(** * AI-Tutor: the retrieval-and-synthesis pipeline

    A shallow embedding of the Python sources

      - [Backend/retriever.py]            (text filter, retriever)
      - [Backend/agents/retrieval_agent.py], [Backend/agents/explainer.py]
      - [Backend/quiz_generator.py]       (quiz synthesizer)
      - [Backend/planner.py], [Backend/agents/planner.py], [Backend/progress_db.py]

    A Python [str] is a list of Unicode code points.  What CPython takes
    from the Unicode character database (character classes, NFC, case
    mapping) is an interface, [Unicode], of which [ascii_db] is the
    instance for text made of ASCII code points.  The regular expressions
    of the sources are written in a small abstract syntax and run by a
    backtracking matcher with the priorities of Python's [re]. *)

From Stdlib Require Import String Ascii.
From stdpp Require Import gmap list.

Local Open Scope N_scope.

(** ** Python strings *)

Abbreviation pystr := (list N) (only parsing).

(** A literal of the source, as code points. *)
Definition py (s : String.string) : list N :=
  N_of_ascii <$> list_ascii_of_string s.

(** The part of the Unicode character database the sources consult:
    [str.isspace], [str.isalnum], [str.isdecimal] (the regular expression
    class [\d]), [str.isdigit], [str.isprintable],
    [unicodedata.normalize("NFC", _)] and [str.lower]. *)
Class Unicode := {
  isspace : N → bool;
  isalnum : N → bool;
  isdecimal : N → bool;
  isdigit : N → bool;
  isprintable : N → bool;
  nfc : list N → list N;
  str_lower : list N → list N
}.

Definition in_range (lo hi c : N) : bool := (lo <=? c) && (c <=? hi).

Definition ascii_upper_letter (c : N) : bool := in_range 65 90 c.
Definition ascii_lower_letter (c : N) : bool := in_range 97 122 c.
Definition ascii_letter (c : N) : bool := ascii_upper_letter c || ascii_lower_letter c.
Definition ascii_digit (c : N) : bool := in_range 48 57 c.
Definition ascii_tolower (c : N) : N := if ascii_upper_letter c then c + 32 else c.

(** CPython's tables on the ASCII range: white space is TAB..CR, FS..US and
    the space; the printable characters are 32..126.  NFC leaves ASCII text
    unchanged.  Code points above 127 are left unclassified: the instance
    is meant for ASCII text only. *)
Definition ascii_db : Unicode := {|
  isspace c := in_range 9 13 c || in_range 28 32 c;
  isalnum c := ascii_letter c || ascii_digit c;
  isdecimal := ascii_digit;
  isdigit := ascii_digit;
  isprintable c := in_range 32 126 c;
  nfc s := s;
  str_lower s := ascii_tolower <$> s
|}.

Section PyStr.
Context {U : Unicode}.

(** [len(s)] is [length s]; [a + b] is [a ++ b]; [not s], for a string or
    a list [s], is [bnil s]. *)
Definition bnil {A} (s : list A) : bool :=
  match s with [] => true | _ => false end.

Definition str_eqb (a b : list N) : bool := bool_decide (a = b).

Fixpoint lstrip (s : list N) : list N :=
  match s with
  | c :: tl => if isspace c then lstrip tl else s
  | [] => []
  end.

Definition rstrip (s : list N) : list N := reverse (lstrip (reverse s)).

(** [s.strip()] *)
Definition strip (s : list N) : list N := rstrip (lstrip s).

(** [s.startswith(t)] *)
Fixpoint startswith (t s : list N) : bool :=
  match t, s with
  | [], _ => true
  | a :: t', b :: s' => (a =? b) && startswith t' s'
  | _ :: _, [] => false
  end.

(** [t in s] on strings: [t] occurs in [s] as a contiguous run. *)
Fixpoint contains (t s : list N) : bool :=
  startswith t s ||
  match s with
  | [] => false
  | _ :: s' => contains t s'
  end.

(** [sep.join(parts)] *)
Fixpoint join (sep : list N) (parts : list (list N)) : list N :=
  match parts with
  | [] => []
  | [p] => p
  | p :: rest => p ++ sep ++ join sep rest
  end.

(** [s.split()]: the maximal runs of characters that are not white space. *)
Fixpoint split_ws_aux (cur : list N) (s : list N) : list (list N) :=
  match s with
  | [] => match cur with [] => [] | _ => [reverse cur] end
  | c :: tl =>
      if isspace c
      then match cur with
           | [] => split_ws_aux [] tl
           | _ => reverse cur :: split_ws_aux [] tl
           end
      else split_ws_aux (c :: cur) tl
  end.

Definition split_ws (s : list N) : list (list N) := split_ws_aux [] s.

(** [s[:n]] for an [int] [n]: a negative [n] counts from the end. *)
Definition slice_to {A} (n : Z) (s : list A) : list A :=
  if bool_decide (0 ≤ n)%Z then take (Z.to_nat n) s
  else take (length s - Z.to_nat (- n))%nat s.

(** The index of the last occurrence of [c] in [s], if any. *)
Fixpoint rindex (c : N) (s : list N) : option nat :=
  match s with
  | [] => None
  | x :: tl =>
      match rindex c tl with
      | Some i => Some (S i)
      | None => if x =? c then Some 0%nat else None
      end
  end.

(** [s.rsplit(sep, 1)[0]] for a one-character [sep]: what precedes the
    last [sep], or all of [s] when [sep] does not occur. *)
Definition rsplit1_head (sep : N) (s : list N) : list N :=
  match rindex sep s with
  | Some i => take i s
  | None => s
  end.
End PyStr.

(** ** Regular expressions *)

(** The constructs used by the patterns of the sources.  A repetition is
    always over a character class ([\s+], [.+], [[A-Za-z\s]{2,50}]), and
    is greedy. *)
Inductive re :=
| Eps
| Cls (p : N → bool)
| Seq (a b : re)
| Alt (a b : re)
| Rep (lo : nat) (hi : option nat) (p : N → bool)
| Grp (i : nat) (a : re)
| Wb
| Bos
| Lb (p : N → bool).

(** Where the matcher stands: the character before, the text ahead, the
    offset from the start of the subject. *)
Record cursor := Cur { c_prev : option N; c_rest : list N; c_pos : nat }.

(** Captured groups, the one closed last in front. *)
Abbreviation groups := (list (nat * list N)) (only parsing).

Definition start_of (s : list N) : cursor := Cur None s 0.

Definition rep_more (hi : option nat) : bool :=
  match hi with Some O => false | _ => true end.

Section Regex.
Context {U : Unicode}.

(** [\w]: alphanumeric or the underscore. *)
Definition is_word (c : N) : bool := isalnum c || (c =? 95).

Definition is_word_at (o : option N) : bool :=
  match o with Some c => is_word c | None => false end.

(** Greedy [p{lo,hi}]: take a character while allowed, and give
    characters back one at a time when what follows fails. *)
Fixpoint rep {A} (p : N → bool) (lo : nat) (hi : option nat)
    (k : cursor → option A) (prev : option N) (pos : nat) (rest : list N)
    : option A :=
  match rest with
  | c :: tl =>
      if p c && rep_more hi then
        match rep p (pred lo) (pred <$> hi) k (Some c) (S pos) tl with
        | Some r => Some r
        | None => match lo with O => k (Cur prev rest pos) | _ => None end
        end
      else match lo with O => k (Cur prev rest pos) | _ => None end
  | [] => match lo with O => k (Cur prev rest pos) | _ => None end
  end.

(** The matcher, in continuation-passing style: [k] is the rest of the
    pattern; the first alternative that lets [k] succeed wins. *)
Fixpoint mt {A} (r : re) (k : cursor → groups → option A)
    (c : cursor) (g : groups) : option A :=
  match r with
  | Eps => k c g
  | Cls p =>
      match c_rest c with
      | x :: tl => if p x then k (Cur (Some x) tl (S (c_pos c))) g else None
      | [] => None
      end
  | Seq a b => mt a (mt b k) c g
  | Alt a b =>
      match mt a k c g with
      | Some x => Some x
      | None => mt b k c g
      end
  | Rep lo hi p =>
      rep p lo hi (λ c', k c' g) (c_prev c) (c_pos c) (c_rest c)
  | Grp i a =>
      mt a (λ c' g', k c' ((i, take (c_pos c' - c_pos c) (c_rest c)) :: g')) c g
  | Wb =>
      if xorb (is_word_at (c_prev c)) (is_word_at (head (c_rest c)))
      then k c g else None
  | Bos => if bool_decide (c_pos c = 0%nat) then k c g else None
  | Lb p =>
      match c_prev c with
      | Some x => if p x then k c g else None
      | None => None
      end
  end.

(** A match of [r] starting exactly at [c]: where it ends, and the groups. *)
Definition match_at (r : re) (c : cursor) : option (cursor * groups) :=
  mt r (λ c' g, Some (c', g)) c [].

(** [re.match(r, s)] *)
Definition re_match (r : re) (s : list N) : option (cursor * groups) :=
  match_at r (start_of s).

(** [re.search(r, s)]: the first position, from the left, with a match. *)
Fixpoint search_from (r : re) (prev : option N) (pos : nat) (s : list N)
    : option (cursor * groups) :=
  match match_at r (Cur prev s pos) with
  | Some m => Some m
  | None =>
      match s with
      | [] => None
      | x :: tl => search_from r (Some x) (S pos) tl
      end
  end.

Definition re_search (r : re) (s : list N) : option (cursor * groups) :=
  search_from r None 0 s.

Definition re_found (r : re) (s : list N) : bool :=
  bool_decide (is_Some (re_search r s)).

(** [m.group(i)] (the empty string stands for a group that took no part). *)
Fixpoint group (i : nat) (g : groups) : list N :=
  match g with
  | [] => []
  | (j, t) :: g' => if bool_decide (i = j) then t else group i g'
  end.

(** [m.lastindex] *)
Definition lastindex (g : groups) : nat :=
  match g with [] => 0%nat | (j, _) :: _ => j end.

(** [re.sub(r, repl, s)] for a literal [repl].  [skip] counts the
    characters of the current match still to be passed over.  No pattern
    of the sources matches the empty string; an empty match inserts
    [repl] and copies one character, as Python does. *)
Fixpoint sub_aux (r : re) (repl : list N) (prev : option N) (pos : nat)
    (s : list N) (skip : nat) : list N :=
  match skip with
  | S n =>
      match s with
      | [] => []
      | x :: tl => sub_aux r repl (Some x) (S pos) tl n
      end
  | O =>
      match match_at r (Cur prev s pos) with
      | Some (c', _) =>
          repl ++
          match s with
          | [] => []
          | x :: tl =>
              match (c_pos c' - pos)%nat with
              | O => x :: sub_aux r repl (Some x) (S pos) tl 0
              | S n => sub_aux r repl (Some x) (S pos) tl n
              end
          end
      | None =>
          match s with
          | [] => []
          | x :: tl => x :: sub_aux r repl (Some x) (S pos) tl 0
          end
      end
  end.

Definition re_sub (r : re) (repl s : list N) : list N :=
  sub_aux r repl None 0 s 0.

(** [re.split(r, s)] for a pattern without groups that matches no empty
    string: the pieces between the matches, the last one included even
    when empty.  [cur] is the piece being read, reversed. *)
Fixpoint split_aux (r : re) (prev : option N) (pos : nat) (s : list N)
    (skip : nat) (cur : list N) : list (list N) :=
  match skip with
  | S n =>
      match s with
      | [] => [reverse cur]
      | x :: tl => split_aux r (Some x) (S pos) tl n cur
      end
  | O =>
      match s with
      | [] => [reverse cur]
      | x :: tl =>
          match match_at r (Cur prev s pos) with
          | Some (c', _) =>
              match (c_pos c' - pos)%nat with
              | O => split_aux r (Some x) (S pos) tl 0 (x :: cur)
              | S n => reverse cur :: split_aux r (Some x) (S pos) tl n []
              end
          | None => split_aux r (Some x) (S pos) tl 0 (x :: cur)
          end
      end
  end.

Definition re_split (r : re) (s : list N) : list (list N) :=
  split_aux r None 0 s 0 [].

(** *** Building patterns *)

Definition chr (c : N) : re := Cls (N.eqb c).

(** A literal string. *)
Fixpoint lit (s : list N) : re :=
  match s with
  | [] => Eps
  | c :: tl => Seq (chr c) (lit tl)
  end.

(** What [[A-Za-z]] matches under [re.IGNORECASE]: the 52 ASCII letters
    and the four letters that case-fold to one of them, U+0130, U+0131,
    U+017F and U+212A. *)
Definition alpha_ic (c : N) : bool :=
  ascii_letter c || (c =? 304) || (c =? 305) || (c =? 383) || (c =? 8490).

(** What an ASCII pattern character [p] matches under [re.IGNORECASE]:
    either case of [p], and for [i], [s] and [k] their Unicode
    equivalents as well. *)
Definition ic_eq (p c : N) : bool :=
  let lp := ascii_tolower p in
  (ascii_tolower c =? lp)
  || ((lp =? 105) && ((c =? 304) || (c =? 305)))
  || ((lp =? 115) && (c =? 383))
  || ((lp =? 107) && (c =? 8490)).

Fixpoint lit_ic (s : list N) : re :=
  match s with
  | [] => Eps
  | c :: tl => Seq (Cls (ic_eq c)) (lit_ic tl)
  end.

(** [.] without [re.DOTALL]: anything but a newline. *)
Definition dot (c : N) : bool := negb (c =? 10).

Fixpoint seqs (l : list re) : re :=
  match l with
  | [] => Eps
  | [r] => r
  | r :: tl => Seq r (seqs tl)
  end.

Fixpoint alts (l : list re) : re :=
  match l with
  | [] => Cls (λ _, false)
  | [r] => r
  | r :: tl => Alt r (alts tl)
  end.
End Regex.

(** ** Backend/retriever.py: the text filter *)

Section TextFilter.
Context {U : Unicode}.

(** [MATH_TOKENS]; the six symbols outside ASCII are U+00D7, U+00F7,
    U+222B, U+03A3, U+03C0 and U+221A. *)
Definition MATH_TOKENS : list (list N) :=
  [py "\frac"; py "\sum"; py "\int"; py "="; py "<"; py ">";
   [215]; [247]; [8747]; [931]; [960]; [8730];
   py "^"; py "_"; py "lim"; py "exp"].

(** The punctuation the symbol ratio does not count (the 34 is the
    double quote). *)
Definition basic_punct : list N := py ".,;:-()[]{}'" ++ [34] ++ py "/".

Definition count_if {A} (p : A → bool) (l : list A) : nat :=
  length (List.filter p l).

Definition is_surrogate (c : N) : bool := in_range 55296 57343 c.

(** [r"[ \t]{2,}"], [r"\n{3,}"], [r"[-]{3,}"], [r"\.{3,}"] *)
Definition blanks_re : re := Rep 2 None (λ c, (c =? 32) || (c =? 9)).
Definition newlines_re : re := Rep 3 None (N.eqb 10).
Definition dashes_re : re := Rep 3 None (N.eqb 45).
Definition dots_re : re := Rep 3 None (N.eqb 46).

(** [_safe_text]: NFC, drop what is not printable (newline and tab are
    kept), drop what UTF-8 cannot encode (the surrogates), collapse blanks
    and newlines, strip. *)
Definition _safe_text (t : list N) : list N :=
  let t := nfc t in
  let t := List.filter (λ ch, isprintable ch || (ch =? 10) || (ch =? 9)) t in
  let t := List.filter (λ ch, negb (is_surrogate ch)) t in
  let t := re_sub blanks_re (py " ") t in
  let t := re_sub newlines_re [10; 10] t in
  strip t.

(** [r"^\s*\d+[\.\)]"] *)
Definition numbered_re : re :=
  seqs [Bos; Rep 0 None isspace; Rep 1 None isdecimal;
        Cls (λ c, (c =? 46) || (c =? 41))].

Definition non_alnum (text : list N) : nat :=
  count_if (λ ch, negb (isalnum ch || isspace ch
                        || bool_decide (ch ∈ basic_punct))) text.

Definition count_tokens (text : list N) : nat :=
  count_if (λ t, contains t text) MATH_TOKENS.

(** [is_math_block].  The two ratios are floating-point quotients compared
    with the constants 0.28 and 0.05; they are compared here as exact
    fractions, which gives the same answer for every text of fewer than
    10^14 characters (two distinct fractions of such denominators are
    farther apart than the rounding of a double). *)
Definition is_math_block (text : list N) : bool :=
  if bnil text then false else
  let total_chars := Nat.max 1 (length text) in
  let digits := count_if isdigit text in
  if bool_decide (1 ≤ count_tokens text)%nat then true
  else if bool_decide (28 * total_chars < 100 * non_alnum text)%nat
          && bool_decide (5 * total_chars < 100 * digits)%nat then true
  else if re_found numbered_re (strip text) then true
  else false.

(** [_clean_text] *)
Definition _clean_text (t : list N) : list N :=
  if bnil t then [] else
  let t := _safe_text t in
  let t := re_sub dashes_re [] t in
  let t := re_sub dots_re (py ".") t in
  strip t.

(** [r"\b(Find|Calculate|Determine|Show that|Prove)\b"] and [r"^\d+\."] *)
Definition exercise_re : re :=
  seqs [Wb;
        Grp 1 (alts [lit (py "Find"); lit (py "Calculate"); lit (py "Determine");
                     lit (py "Show that"); lit (py "Prove")]);
        Wb].
Definition item_re : re := seqs [Bos; Rep 1 None isdecimal; chr 46].

(** [clean_chunk]; [None] is Python's [None]. *)
Definition clean_chunk (text : list N) : option (list N) :=
  if bnil text then None else
  let text := strip text in
  if re_found exercise_re text then None
  else if bool_decide (is_Some (re_match item_re text)) then None
  else Some text.
End TextFilter.

(** ** Backend/retriever.py: the retriever *)

(** An entry of [kb_chunks.npy]: a bare string, or a dict with string keys
    and values ([kb_builder.py] writes the keys "chapter" and "text"). *)
Inductive kb_entry :=
| KStr (s : list N)
| KDict (d : gmap (list N) (list N)).

(** A returned chunk: the dict with the keys "chapter", "text", "type". *)
Record Chunk := mkChunk {
  ch_chapter : list N;
  ch_text : list N;
  ch_type : list N
}.

Global Instance Chunk_eq_dec : EqDecision Chunk.
Proof. solve_decision. Defined.

(** The exceptions that can be raised. *)
Inductive error :=
| ModelUnavailable
| FileNotFoundError (msg : list N)
| ValueError
| OperationalError.

Section Retriever.
Context {U : Unicode}.

(** The embedding vectors are floating-point arrays; nothing below looks
    inside one. *)
Variable Emb : Type.

(** A loaded FAISS index: for a query vector, the labels of all stored
    vectors from the nearest to the farthest. *)
Definition Index : Type := Emb → list Z.

(** [idx.search(q, k)] returns exactly [k] labels, -1 standing in when
    the index holds fewer than [k] vectors (the callers ask for 1, 3 or 20
    labels). *)
Definition faiss_search (idx : Index) (q : Emb) (k : nat) : list Z :=
  take k (idx q ++ replicate k (-1)%Z).

(** What lies outside the process: the sentence-transformer model that can
    be loaded (if any) and the two files of the knowledge base (if present). *)
Record World := mkWorld {
  w_model : option (list N → Emb);
  w_chunks : option (list kb_entry);
  w_index : option Index
}.

(** The module globals [model], [chunks], [index]. *)
Record Globals := mkGlobals {
  g_model : option (list N → Emb);
  g_chunks : option (list kb_entry);
  g_index : option Index
}.

Definition M (A : Type) : Type := Globals → (error + A) * Globals.

Definition m_ret {A} (x : A) : M A := λ g, (inr x, g).
Definition m_bind {A B} (c : M A) (k : A → M B) : M B :=
  λ g, match c g with
       | (inr x, g') => k x g'
       | (inl e, g') => (inl e, g')
       end.
Definition m_raise {A} (e : error) : M A := λ g, (inl e, g).

Local Instance M_ret : MRet M := @m_ret.
Local Instance M_bind : MBind M := λ A B k c, m_bind c k.

(** [_load_model] *)
Definition _load_model (w : World) : M (list N → Emb) :=
  λ g, match g_model g with
       | Some m => (inr m, g)
       | None =>
           match w_model w with
           | Some m => (inr m, mkGlobals (Some m) (g_chunks g) (g_index g))
           | None => (inl ModelUnavailable, g)
           end
       end.

Definition load_chunks (w : World) : M (list kb_entry) :=
  λ g, match g_chunks g with
       | Some c => (inr c, g)
       | None =>
           match w_chunks w with
           | Some c => (inr c, mkGlobals (g_model g) (Some c) (g_index g))
           | None => (inl (FileNotFoundError (py "kb_chunks.npy missing")), g)
           end
       end.

Definition load_index (w : World) : M Index :=
  λ g, match g_index g with
       | Some i => (inr i, g)
       | None =>
           match w_index w with
           | Some i => (inr i, mkGlobals (g_model g) (g_chunks g) (Some i))
           | None => (inl (FileNotFoundError (py "kb_index.faiss missing")), g)
           end
       end.

(** [_load_kb] *)
Definition _load_kb (w : World) : M (list kb_entry * Index) :=
  c ← load_chunks w;
  i ← load_index w;
  mret (c, i).

(** A bare string becomes a dict. *)
Definition as_dict (e : kb_entry) : gmap (list N) (list N) :=
  match e with
  | KStr s => <[py "chapter" := py "unknown"]>
              (<[py "text" := s]> (<[py "type" := py "text"]> ∅))
  | KDict d => d
  end.

Definition raw_text_of (chunk : gmap (list N) (list N)) : list N :=
  default [] (chunk !! py "text").
Definition chapter_of (chunk : gmap (list N) (list N)) : list N :=
  default (py "unknown") (chunk !! py "chapter").
Definition type_of (chunk : gmap (list N) (list N)) : list N :=
  default (py "text") (chunk !! py "type").

(** The candidate at label [i]: the chapter and cleaned text of the chunk,
    when the label is in range and the chunk passes the filters (the part
    of the loop body before the duplicate test). *)
Definition candidate (chunks_list : list kb_entry) (i : Z)
    : option (list N * list N) :=
  if bool_decide (i < 0)%Z || bool_decide (Z.of_nat (length chunks_list) ≤ i)%Z
  then None else
  match chunks_list !! Z.to_nat i with
  | None => None
  | Some e =>
      let chunk := as_dict e in
      if negb (str_eqb (type_of chunk) (py "text")) then None
      else if is_math_block (raw_text_of chunk) then None
      else match clean_chunk (_clean_text (raw_text_of chunk)) with
           | None => None
           | Some cleaned =>
               if bnil cleaned || bool_decide (length cleaned < 20)%nat
               then None
               else Some (chapter_of chunk, cleaned)
           end
  end.

Definition dedup_key (chapter cleaned : list N) : list N * list N :=
  (chapter, take 120 cleaned).

(** One turn of the loop [for i in I[0]], on the pair ([results], [seen]). *)
Definition retrieve_step (chunks_list : list kb_entry)
    (acc : list Chunk * gset (list N * list N)) (i : Z)
    : list Chunk * gset (list N * list N) :=
  match candidate chunks_list i with
  | None => acc
  | Some (chapter, cleaned) =>
      if bool_decide (dedup_key chapter cleaned ∈ acc.2) then acc
      else (acc.1 ++ [mkChunk chapter cleaned (py "text")],
            {[dedup_key chapter cleaned]} ∪ acc.2)
  end.

Definition retrieve_loop (chunks_list : list kb_entry) (labels : list Z)
    : list Chunk :=
  (foldl (retrieve_step chunks_list) ([], ∅) labels).1.

(** [retrieve(query, top_k)] *)
Definition retrieve (w : World) (query : list N) (top_k : nat) : M (list Chunk) :=
  model ← _load_model w;
  kb ← _load_kb w;
  let q_emb := model query in
  let labels := faiss_search kb.2 q_emb top_k in
  mret (retrieve_loop kb.1 labels).
End Retriever.

Arguments mkWorld {Emb} _ _ _.
Arguments w_model {Emb} _.
Arguments w_chunks {Emb} _.
Arguments w_index {Emb} _.
Arguments mkGlobals {Emb} _ _ _.
Arguments g_model {Emb} _.
Arguments g_chunks {Emb} _.
Arguments g_index {Emb} _.
Arguments faiss_search {Emb} _ _ _.
Arguments _load_model {Emb} _ _.
Arguments load_chunks {Emb} _ _.
Arguments load_index {Emb} _ _.
Arguments _load_kb {Emb} _ _.
Arguments retrieve {U Emb} _ _ _ _.

(** ** Backend/agents/retrieval_agent.py and Backend/agents/explainer.py *)

(** The dict with the keys "chapter" and "text". *)
Record TextChunk := mkTextChunk {
  tc_chapter : list N;
  tc_text : list N
}.

(** The dict returned by [explain]; [None] is Python's [None]. *)
Record Explanation := mkExplanation {
  e_topic : list N;
  e_explanation : list N;
  e_chapter : option (list N);
  e_sources : list (list N)
}.

Section Explainer.
Context {U : Unicode}.
Variable Emb : Type.

(** [_safe_normalize] *)
Definition _safe_normalize (text : list N) : list N :=
  if bnil text then [] else strip (nfc text).

(** [retrieve_text]; [_core_retrieve] is [None] when the import of the
    retriever failed.  Every exception is caught and gives the empty list. *)
Definition retrieve_text
    (_core_retrieve : option (list N → nat → M Emb (list Chunk)))
    (query : list N) (top_k : nat) (g : Globals Emb)
    : list TextChunk * Globals Emb :=
  match _core_retrieve with
  | None => ([], g)
  | Some core =>
      match core query top_k g with
      | (inr chunks, g') =>
          ((λ c, mkTextChunk (ch_chapter c) (_safe_normalize (ch_text c)))
             <$> chunks, g')
      | (inl _, g') => ([], g')
      end
  end.

(** The loop of [explain] over [chunks[:top_k]]: the texts kept, and the
    chapters recorded. *)
Fixpoint explain_parts (chunks : list TextChunk) : list (list N) * list (list N) :=
  match chunks with
  | [] => ([], [])
  | c :: rest =>
      let t := strip (tc_text c) in
      let '(parts, sources) := explain_parts rest in
      if bnil t then (parts, sources)
      else (t :: parts,
            if bnil (tc_chapter c) then sources else tc_chapter c :: sources)
  end.

(** [explanation[:max_chars].rsplit(" ", 1)[0] + "..."] *)
Definition truncate (max_chars : Z) (explanation : list N) : list N :=
  rsplit1_head 32 (slice_to max_chars explanation) ++ py "...".

(** The body of [explain] once the chunks are retrieved. *)
Definition explain_from (topic : list N) (chunks : list TextChunk)
    (top_k : nat) (max_chars : Z) : Explanation :=
  if bnil chunks
  then mkExplanation topic (py "No explanation found.") None []
  else
    let '(parts, sources) := explain_parts (take top_k chunks) in
    let explanation := join [10; 10] parts in
    let explanation :=
      if bool_decide (max_chars < Z.of_nat (length explanation))%Z
      then truncate max_chars explanation
      else explanation in
    mkExplanation topic explanation (head sources) sources.

(** [explain(topic, top_k, max_chars)] *)
Definition explain
    (_core_retrieve : option (list N → nat → M Emb (list Chunk)))
    (topic : list N) (top_k : nat) (max_chars : Z) (g : Globals Emb)
    : Explanation * Globals Emb :=
  let '(chunks, g') := retrieve_text _core_retrieve topic top_k g in
  (explain_from topic chunks top_k max_chars, g').
End Explainer.

Arguments retrieve_text {U Emb} _ _ _ _.
Arguments explain {U Emb} _ _ _ _ _.

(** ** Backend/quiz_generator.py *)

(** The dict of a multiple-choice question. *)
Record MCQ := mkMCQ {
  q_chapter : list N;
  q_question : list N;
  q_options : list (list N);
  q_answer : list N;
  q_explanation : list N
}.

(** [random]: the generator is a tape of raw draws, [_randbelow(n)]
    reads one draw and reduces it below [n].  Every sequence of outcomes
    is the run of some tape. *)
Definition Q (A : Type) : Type := list nat → (error + A) * list nat.

Definition q_ret {A} (x : A) : Q A := λ tape, (inr x, tape).
Definition q_bind {A B} (c : Q A) (k : A → Q B) : Q B :=
  λ tape, match c tape with
          | (inr x, tape') => k x tape'
          | (inl e, tape') => (inl e, tape')
          end.
Definition q_raise {A} (e : error) : Q A := λ tape, (inl e, tape).

Global Instance Q_ret : MRet Q := @q_ret.
Global Instance Q_bind : MBind Q := λ A B k c, q_bind c k.

Definition randbelow (n : nat) : Q nat :=
  λ tape, match tape with
          | [] => (inr 0%nat, [])
          | x :: tape' => (inr (x `mod` n)%nat, tape')
          end.

(** [random.randint(a, b)] *)
Definition randint (a b : nat) : Q nat :=
  j ← randbelow (b - a + 1); mret (a + j)%nat.

(** [x[i], x[j] = x[j], x[i]] *)
Definition swap {A} (x : list A) (i j : nat) : list A :=
  match x !! i, x !! j with
  | Some a, Some b => <[j := a]> (<[i := b]> x)
  | _, _ => x
  end.

(** [random.shuffle(x)]: [for i in reversed(range(1, len(x)))], exchange
    [x[i]] with [x[randbelow(i + 1)]]. *)
Fixpoint shuffle_from {A} (i : nat) (x : list A) : Q (list A) :=
  match i with
  | O => mret x
  | S i' => j ← randbelow (S i); shuffle_from i' (swap x i j)
  end.

Definition shuffle {A} (x : list A) : Q (list A) :=
  shuffle_from (length x - 1) x.

(** [l.index(x)]; [None] where Python raises [ValueError]. *)
Fixpoint list_index (x : list N) (l : list (list N)) : option nat :=
  match l with
  | [] => None
  | y :: tl => if str_eqb x y then Some 0%nat else S <$> list_index x tl
  end.

(** [str(n)] for a two-digit [n]. *)
Definition str_of_2digits (n : nat) : list N :=
  [48 + N.of_nat (n / 10); 48 + N.of_nat (n `mod` 10)].

(** [re.findall(r, s)] for a pattern without groups that matches no empty
    string: the matched texts, from left to right. *)
Fixpoint findall_aux {U : Unicode} (r : re) (prev : option N) (pos : nat)
    (s : list N) (skip : nat) : list (list N) :=
  match skip with
  | S n =>
      match s with
      | [] => []
      | x :: tl => findall_aux r (Some x) (S pos) tl n
      end
  | O =>
      match s with
      | [] => []
      | x :: tl =>
          match match_at r (Cur prev s pos) with
          | Some (c', _) =>
              match (c_pos c' - pos)%nat with
              | O => findall_aux r (Some x) (S pos) tl 0
              | S n => take (S n) s :: findall_aux r (Some x) (S pos) tl n
              end
          | None => findall_aux r (Some x) (S pos) tl 0
          end
      end
  end.

Definition re_findall {U : Unicode} (r : re) (s : list N) : list (list N) :=
  findall_aux r None 0 s 0.

(** The result of a loop that may [return] from the function. *)
Inductive flow (A : Type) :=
| Return (r : A)
| Next (acc : A).
Arguments Return {A} r.
Arguments Next {A} acc.

(** The list a loop ended with, returned or not. *)
Definition flow_list {A} (r : flow A) : A :=
  match r with Return l => l | Next l => l end.

Section Quiz.
Context {U : Unicode}.

Definition BASE_DISTRACTORS : list (list N) :=
  [py "Limit"; py "Derivative"; py "Integral"; py "Matrix"; py "Determinant";
   py "Probability"; py "Permutation"; py "Combination"; py "Vector";
   py "Scalar"; py "Continuity"; py "Differentiability"; py "Gradient"; py "Rank"].

Definition alpha_or_space (c : N) : bool := alpha_ic c || isspace c.

(** The concept group [([A-Za-z][A-Za-z\s]{lo,hi})]. *)
Definition concept_re (lo hi : nat) : re :=
  Grp 1 (Seq (Cls alpha_ic) (Rep lo (Some hi) alpha_or_space)).

(** [DEF_PATTERNS], compiled with [re.IGNORECASE]. *)
Definition DEF_PATTERNS : list re :=
  [ seqs [Wb; concept_re 2 50; lit_ic (py " is defined as "); Grp 2 (Rep 1 None dot)];
    seqs [Wb; concept_re 2 50; lit_ic (py " is ");
          Grp 2 (Alt (lit_ic (py "an")) (lit_ic (py "a"))); lit_ic (py " ");
          Grp 3 (Rep 1 None dot)];
    seqs [Wb; lit_ic (py "The definition of "); concept_re 1 50; lit_ic (py " is ");
          Grp 2 (Rep 1 None dot)];
    seqs [Wb; concept_re 2 50; lit_ic (py " refers to "); Grp 2 (Rep 1 None dot)] ].

(** [DEF_RE_SIMPLE] *)
Definition DEF_RE_SIMPLE : re :=
  seqs [Bos; concept_re 1 40; lit_ic (py " is "); Grp 2 (Rep 1 None dot)].

(** The six private-use code points of the first pattern of [clean_text]:
    U+F8EE, U+F8F9, U+F8EF, U+F8FA, U+F8F0, U+F8FB. *)
Definition bracket_pieces : list N := [63726; 63737; 63727; 63738; 63728; 63739].

Definition bracket_re : re := Cls (λ c, bool_decide (c ∈ bracket_pieces)).
(** [r"\bFig\b.*"] and [r"\s{2,}"] *)
Definition fig_re : re := seqs [Wb; lit (py "Fig"); Wb; Rep 0 None dot].
Definition spaces_re : re := Rep 2 None isspace.

(** [clean_text] *)
Definition clean_text (t : list N) : list N :=
  if bnil t then [] else
  let t := re_sub bracket_re [] t in
  let t := re_sub fig_re [] t in
  let t := re_sub spaces_re (py " ") t in
  strip t.

Definition question_words : list (list N) :=
  [py "what"; py "which"; py "this"; py "that"; py "how"; py "why";
   py "where"; py "when"].

(** [is_bad_concept] *)
Definition is_bad_concept (c : list N) : bool :=
  let c := strip (str_lower c) in
  if bool_decide (length c < 3)%nat then true
  else if existsb (λ w, contains w c) question_words then true
  else if re_found (Cls isdecimal) c then true
  else if bool_decide (5 < length (split_ws c))%nat then true
  else false.

(** The [while] loop of [generate_distractors_for]; [fuel] is the number
    of labels still missing. *)
Fixpoint pad_distractors (fuel : nat) (distractors : list (list N))
    : Q (list (list N)) :=
  match fuel with
  | O => mret distractors
  | S fuel' =>
      n ← randint 10 99;
      pad_distractors fuel' (distractors ++ [py "Option " ++ str_of_2digits n])
  end.

(** [generate_distractors_for] *)
Definition generate_distractors_for (concept correct : list N)
    : Q (list (list N)) :=
  let picks :=
    List.filter (λ d, negb (str_eqb (str_lower d) (str_lower concept)))
                BASE_DISTRACTORS in
  picks ← shuffle picks;
  let distractors := take 3 picks in
  pad_distractors (3 - length distractors) distractors.

(** [(?<=[.!?])\s+] *)
Definition sentence_end_re : re :=
  Seq (Lb (λ c, (c =? 46) || (c =? 33) || (c =? 63))) (Rep 1 None isspace).

(** [extract_candidate_sentences] *)
Definition extract_candidate_sentences (text : list N) : list (list N) :=
  List.filter (λ s2, bool_decide (20 < length s2)%nat
                     && bool_decide (length s2 < 300)%nat)
              (clean_text <$> re_split sentence_end_re text).

(** What both branches of [sentence_to_mcq] and [fallback_mcq] do once the
    question and the correct text are known: draw the distractors, shuffle
    the four options, record the letter of the correct one. *)
Definition make_mcq (chapter question concept correct : list N) : Q MCQ :=
  distractors ← generate_distractors_for concept correct;
  options ← shuffle (distractors ++ [correct]);
  match list_index correct options with
  | None => q_raise ValueError
  | Some i =>
      mret (mkMCQ chapter question options [N.of_nat i + 65] correct)
  end.

(** [not is_bad_concept(concept) and len(definition) > 12] *)
Definition acceptable (concept definition : list N) : bool :=
  negb (is_bad_concept concept) && bool_decide (12 < length definition)%nat.

(** One pattern of the loop over [DEF_PATTERNS]: the concept and the
    definition when the pattern matches and both are acceptable. *)
Definition try_pattern (pat : re) (sentence : list N)
    : option (list N * list N) :=
  match re_search pat sentence with
  | None => None
  | Some (_, g) =>
      let concept := strip (group 1 g) in
      let definition :=
        if bool_decide (2 ≤ lastindex g)%nat then strip (group 2 g)
        else sentence in
      if acceptable concept definition then Some (concept, definition)
      else None
  end.

(** The same for [DEF_RE_SIMPLE], after the loop. *)
Definition try_simple (sentence : list N) : option (list N * list N) :=
  match re_search DEF_RE_SIMPLE sentence with
  | None => None
  | Some (_, g) =>
      let concept := strip (group 1 g) in
      let definition := strip (group 2 g) in
      if acceptable concept definition then Some (concept, definition)
      else None
  end.

Fixpoint first_pattern (pats : list re) (sentence : list N)
    : option (list N * list N) :=
  match pats with
  | [] => None
  | pat :: rest =>
      match try_pattern pat sentence with
      | Some r => Some r
      | None => first_pattern rest sentence
      end
  end.

Definition what_is (concept : list N) : list N :=
  py "What is " ++ concept ++ py "?".

(** [sentence_to_mcq]; [None] is Python's [None]. *)
Definition sentence_to_mcq (sentence chapter : list N) : Q (option MCQ) :=
  match first_pattern DEF_PATTERNS sentence with
  | Some (concept, definition) =>
      mcq ← make_mcq chapter (what_is (strip concept)) concept definition;
      mret (Some mcq)
  | None =>
      match try_simple sentence with
      | Some (concept, definition) =>
          mcq ← make_mcq chapter (what_is concept) concept definition;
          mret (Some mcq)
      | None => mret None
      end
  end.

Definition or_else (a b : list N) : list N := if bnil a then b else a.

(** [fallback_mcq] *)
Definition fallback_mcq (topic chapter : list N) : Q MCQ :=
  let concept := or_else (strip (join (py " ") (take 3 (split_ws topic))))
                         (py "the topic") in
  let correct := py "A brief description of " ++ concept ++ py "." in
  make_mcq chapter
           (py "Which of the following best describes " ++ concept ++ py "?")
           concept correct.

(** The sentinel of the last line of [generate_quiz_for_topic]. *)
Definition sentinel_mcq (topic : list N) : MCQ :=
  mkMCQ []
        (py "No clear MCQs found for '" ++ topic ++ py "'.")
        [py "-"; py "-"; py "-"; py "-"]
        (py "A")
        (py "No definitional or formula-based content detected.").

(** The inner loop [for s in sents]. *)
Fixpoint scan_sentences (n_questions : Z) (chapter : list N)
    (sents : list (list N)) (mcqs : list MCQ) : Q (flow (list MCQ)) :=
  match sents with
  | [] => mret (Next mcqs)
  | s :: rest =>
      mcq ← sentence_to_mcq s chapter;
      let mcqs := match mcq with Some q => mcqs ++ [q] | None => mcqs end in
      if bool_decide (n_questions ≤ Z.of_nat (length mcqs))%Z
      then mret (Return mcqs)
      else scan_sentences n_questions chapter rest mcqs
  end.

(** The outer loop [for ch in chunks]. *)
Fixpoint scan_chunks (n_questions : Z) (chunks : list Chunk)
    (mcqs : list MCQ) : Q (flow (list MCQ)) :=
  match chunks with
  | [] => mret (Next mcqs)
  | ch :: rest =>
      let text := clean_text (ch_text ch) in
      let chapter := ch_chapter ch in
      let sents := extract_candidate_sentences text in
      r ← scan_sentences n_questions chapter sents mcqs;
      match r with
      | Return mcqs => mret (Return mcqs)
      | Next mcqs => scan_chunks n_questions rest mcqs
      end
  end.

(** [for i in range(n): mcqs.append(fallback_mcq(...))] *)
Fixpoint fallbacks (n : nat) (topic chapter : list N) (mcqs : list MCQ)
    : Q (list MCQ) :=
  match n with
  | O => mret mcqs
  | S n' =>
      q ← fallback_mcq topic chapter;
      fallbacks n' topic chapter (mcqs ++ [q])
  end.

(** [r"[A-Za-z]{3,}"] *)
Definition word3_re : re := Rep 3 None ascii_letter.

(** The body of [generate_quiz_for_topic] after the retrieval. *)
Definition quiz_from_chunks (topic : list N) (n_questions : Z)
    (chunks : list Chunk) : Q (list MCQ) :=
  r ← scan_chunks n_questions chunks [];
  match r with
  | Return mcqs => mret mcqs
  | Next mcqs =>
      match mcqs, chunks with
      | [], ch0 :: _ =>
          let words := re_findall word3_re topic in
          let guess := if bnil words then topic
                       else join (py " ") (take 3 words) in
          fallbacks (Z.to_nat n_questions) (or_else guess topic)
                    (ch_chapter ch0) mcqs
      | [], [] => mret [sentinel_mcq topic]
      | _ :: _, _ => mret (slice_to n_questions mcqs)
      end
  end.

(** [generate_quiz_for_topic(topic, n_questions, difficulty)]; the
    difficulty is not used. *)
Definition generate_quiz_for_topic {Emb : Type} (w : World Emb)
    (topic : list N) (n_questions : Z) (difficulty : option (list N))
    (g : Globals Emb) (tape : list nat)
    : (error + list MCQ) * Globals Emb * list nat :=
  match retrieve w topic 20 g with
  | (inl e, g') => (inl e, g', tape)
  | (inr chunks, g') =>
      let '(r, tape') := quiz_from_chunks topic n_questions chunks tape in
      (r, g', tape')
  end.
End Quiz.

(** ** Backend/progress_db.py: the student profile *)

Inductive Strength := Weak | Medium | Strong.
Inductive Action := retrieve_and_explain | generate_quiz.
Inductive Difficulty := easy | medium | hard.

Global Instance Strength_eq_dec : EqDecision Strength.
Proof. solve_decision. Defined.
Global Instance Action_eq_dec : EqDecision Action.
Proof. solve_decision. Defined.
Global Instance Difficulty_eq_dec : EqDecision Difficulty.
Proof. solve_decision. Defined.

(** Code that may raise. *)
Definition E (A : Type) : Type := (error + A)%type.
Global Instance E_ret : MRet E := λ A x, inr x.
Global Instance E_bind : MBind E :=
  λ A B k c, match c with inl e => inl e | inr x => k x end.

(** [try: body / except Exception: handler] *)
Definition try_except {A} (body : E A) (handler : error → E A) : E A :=
  match body with
  | inl e => handler e
  | inr x => inr x
  end.

(** A row of the table [attempts]. *)
Record attempt := mkAttempt {
  a_student : list N;
  a_topic : list N;
  a_correct : bool
}.

(** An entry of the profile: the sums of the SQL query and the strength. *)
Record profile_entry := mkEntry {
  p_correct : nat;
  p_attempts : nat;
  p_strength : Strength
}.

(** The classification of [get_progress].  The accuracy [correct / attempts]
    is a floating-point quotient compared with 0.8 and 0.5; the
    comparisons are made here on exact fractions. *)
Definition classify (correct attempts : nat) : Strength :=
  if bool_decide (3 ≤ attempts)%nat && bool_decide (8 * attempts ≤ 10 * correct)%nat
  then Strong
  else if bool_decide (2 ≤ attempts)%nat && bool_decide (10 * correct ≤ 5 * attempts)%nat
  then Weak
  else Medium.

(** [SELECT topic, SUM(is_correct), COUNT( * ) FROM attempts
     WHERE student_id=? GROUP BY topic] *)
Definition tally (rows : list attempt) (student_id : list N)
    : gmap (list N) (nat * nat) :=
  foldr (λ r acc,
           if bool_decide (a_student r = student_id) then
             let '(c, n) := default (0, 0)%nat (acc !! a_topic r) in
             <[a_topic r := ((if a_correct r then S c else c), S n)]> acc
           else acc)
        ∅ rows.

(** [get_progress]; the database is [None] when it cannot be read, and
    the query then raises. *)
Definition get_progress (db : option (list attempt)) (student_id : list N)
    : E (gmap (list N) profile_entry) :=
  match db with
  | None => inl OperationalError
  | Some rows =>
      inr ((λ cn : nat * nat, mkEntry cn.1 cn.2 (classify cn.1 cn.2))
             <$> tally rows student_id)
  end.

(** [topic_strength] *)
Definition topic_strength (db : option (list attempt))
    (student_id topic : list N) : E Strength :=
  prof ← get_progress db student_id;
  mret (default Medium (p_strength <$> prof !! topic)).

Definition difficulty_of (strength : Strength) : Difficulty :=
  match strength with
  | Weak => easy
  | Strong => hard
  | Medium => medium
  end.

(** ** Backend/planner.py *)

Module Planner.

Record Plan := mkPlan {
  action : Action;
  topic : list N;
  difficulty : Difficulty
}.

Section Planner.
Context {U : Unicode}.

(** [_normalize_topic] *)
Definition _normalize_topic (topic : list N) : list N :=
  if bnil topic then [] else str_lower (strip topic).

(** [VALID_TOPICS], a set. *)
Definition VALID_TOPICS : gset (list N) :=
  list_to_set
    [py "relations and functions"; py "inverse trigonometric function";
     py "matrices"; py "determinants"; py "continuity and differentiability";
     py "application of derivatives"; py "integrals";
     py "application of integrals"; py "differential equations";
     py "vector algebra"; py "three dimensional geometry";
     py "linear programming"; py "probability"].

(** [_match_best_topic]: the first topic, in the order the set is iterated
    in, that occurs in the text. *)
Definition _match_best_topic (text : list N) : list N :=
  let text := str_lower text in
  default [] (List.find (λ t, contains t text) (elements VALID_TOPICS)).

Definition quiz_intent_keywords : list (list N) :=
  [py "quiz"; py "practice"; py "test"; py "exercise"; py "questions"; py "mcq"].
Definition explain_keywords : list (list N) :=
  [py "explain"; py "understand"; py "stuck"; py "help"; py "why"; py "how";
   py "define"].

(** [planner_decide(student_id, query, topic)].  The profile is read by
    [topic_strength]; an exception it raises is not caught here. *)
Definition planner_decide (topic_strength : list N → list N → E Strength)
    (student_id query : list N) (topic : option (list N)) : E Plan :=
  let q := str_lower (strip query) in
  let chosen_topic := or_else (default [] topic) (_match_best_topic q) in
  let chosen_topic := if bnil chosen_topic then q else chosen_topic in
  let chosen_topic := _normalize_topic chosen_topic in
  let action :=
    if existsb (λ k, contains k q) quiz_intent_keywords then generate_quiz
    else if existsb (λ k, contains k q) explain_keywords then retrieve_and_explain
    else retrieve_and_explain in
  strength ← (if bnil student_id then mret Medium
              else topic_strength student_id chosen_topic);
  let difficulty := difficulty_of strength in
  let difficulty := if contains (py "easy") q then easy else difficulty in
  let difficulty :=
    if contains (py "hard") q || contains (py "difficult") q then hard
    else difficulty in
  mret (mkPlan action chosen_topic difficulty).
End Planner.
End Planner.

(** ** Backend/agents/planner.py *)

Module AgentsPlanner.

Record Plan := mkPlan {
  action : Action;
  topic : list N;
  difficulty : Difficulty;
  quiz_suggestion : bool
}.

Section Planner.
Context {U : Unicode}.

(** [VALID_TOPICS], a list. *)
Definition VALID_TOPICS : list (list N) :=
  [py "relations and functions"; py "inverse trigonometric function";
   py "matrices"; py "determinants"; py "continuity and differentiability";
   py "application of derivatives"; py "integrals";
   py "application of integrals"; py "differential equations";
   py "vector algebra"; py "three dimensional geometry";
   py "linear programming"; py "probability"].

(** [_normalize_topic] *)
Definition _normalize_topic (t : list N) : list N :=
  if bnil t then [] else str_lower (strip t).

(** [_match_best_topic] *)
Definition _match_best_topic (text : list N) : list N :=
  if bnil text then [] else
  let s := str_lower text in
  match List.find (λ t, contains t s) VALID_TOPICS with
  | Some t => t
  | None =>
      if contains (py "matrix") s || contains (py "matrices") s
      then py "matrices"
      else if contains (py "probability") s
              || contains (py "conditional probability") s
      then py "probability"
      else []
  end.

Definition quiz_keywords : list (list N) :=
  [py "quiz"; py "practice"; py "test"; py "exercise"; py "questions";
   py "mcq"; py "solve"].
Definition explain_keywords : list (list N) :=
  [py "explain"; py "understand"; py "stuck"; py "help"; py "why"; py "how";
   py "define"; py "what is"].

(** [r"\beasy\b"] and [r"\bhard\b|\bdifficult\b"] *)
Definition word_re (w : list N) : re := seqs [Wb; lit w; Wb].
Definition easy_re : re := word_re (py "easy").
Definition hard_re : re := Alt (word_re (py "hard")) (word_re (py "difficult")).

(** [planner_decide(student_id, query, topic)].  [topic_strength] is
    [None] when the import of [progress_db] failed. *)
Definition planner_decide
    (topic_strength : option (list N → list N → E Strength))
    (student_id query : list N) (topic : option (list N)) : E Plan :=
  let q := strip query in
  let chosen_topic := or_else (default [] topic) (_match_best_topic q) in
  let chosen_topic := _normalize_topic (or_else chosen_topic q) in
  let lower := str_lower q in
  let action :=
    if existsb (λ k, contains k lower) quiz_keywords then generate_quiz
    else if existsb (λ k, contains k lower) explain_keywords
    then retrieve_and_explain
    else retrieve_and_explain in
  diff ← try_except
           (match topic_strength with
            | Some ts =>
                if bnil student_id then mret medium
                else strength ← ts student_id chosen_topic;
                     mret (difficulty_of strength)
            | None => mret medium
            end)
           (λ _, mret medium);
  let diff := if re_found easy_re lower then easy else diff in
  let diff := if re_found hard_re lower then hard else diff in
  mret (mkPlan action chosen_topic diff
               (bool_decide (action = retrieve_and_explain))).
End Planner.
End AgentsPlanner.

(** ** Specification-level notions for the retriever *)

Section RetrieverSpec.
Context {U : Unicode}.

(** The key of the specification, written out: the chapter and the first
    120 characters of the cleaned text. *)
Definition key120 (p : list N * list N) : list N * list N :=
  (p.1, take 120 p.2).

(** The key of a returned chunk. *)
Definition chunk_key (c : Chunk) : list N * list N :=
  (ch_chapter c, take 120 (ch_text c)).

Definition to_chunk (p : list N * list N) : Chunk :=
  mkChunk p.1 p.2 (py "text").

(** The candidates that pass the filters, in rank order. *)
Definition survivors (chunks_list : list kb_entry) (labels : list Z)
    : list (list N * list N) :=
  omap (candidate chunks_list) labels.

(** Keep the first of every key: the head stays, and whatever shares its
    key is removed from what is kept of the tail. *)
Fixpoint first_seen (l : list (list N * list N)) : list (list N * list N) :=
  match l with
  | [] => []
  | x :: tl =>
      x :: filter (λ y, key120 y ≠ key120 x) (first_seen tl)
  end.

(** A text in which one of the [MATH_TOKENS] occurs. *)
Definition has_math_token (text : list N) : Prop :=
  ∃ tok a b, tok ∈ MATH_TOKENS ∧ text = a ++ tok ++ b.

Definition has_math_tokenb (text : list N) : bool :=
  existsb (λ tok, contains tok text) MATH_TOKENS.
End RetrieverSpec.

(** ** The properties of the retriever, as the specification words them *)

Section RetrieverClaims.
Context {U : Unicode}.

(** Every returned chunk has a text of at least 20 characters on which
    [is_math_block] is false, and the type "text". *)
Definition returned_chunks_clean {Emb} (w : World Emb) (query : list N)
    (top_k : nat) (g : Globals Emb) : Prop :=
  ∀ res g', retrieve w query top_k g = (inr res, g') →
    ∀ c, c ∈ res →
      (20 ≤ length (ch_text c))%nat
      ∧ is_math_block (ch_text c) = false
      ∧ ch_type c = py "text".


End RetrieverClaims.

(** ** The properties of the explainer, as the specification words them *)

Section ExplainerClaims.
Context {U : Unicode}.

(** The text that [explain] assembles: the stripped texts of the first
    [top_k] chunks that are not empty, in rank order, a blank line between
    two of them. *)
Definition joined_text (chunks : list TextChunk) (top_k : nat) : list N :=
  join [10; 10]
       (filter (λ t, t ≠ []) ((λ c, strip (tc_text c)) <$> take top_k chunks)).

(** A cut between [kept] and [rest] falls inside a word when the
    characters on its two sides are both alphanumeric. *)
Definition mid_word (kept rest : list N) : Prop :=
  ∃ a b, last kept = Some a ∧ head rest = Some b
         ∧ isalnum a = true ∧ isalnum b = true.

(** With a non-empty retrieval and a joined text of more than [max_chars]
    characters, the explanation is at most [max_chars] characters of the
    joined text and the ellipsis, and the cut splits no word. *)
Definition truncation_splits_no_word {Emb}
    (core : option (list N → nat → M Emb (list Chunk)))
    (topic : list N) (top_k : nat) (max_chars : Z) (g : Globals Emb) : Prop :=
  let chunks := (retrieve_text core topic top_k g).1 in
  let joined := joined_text chunks top_k in
  chunks ≠ [] → (max_chars < Z.of_nat (length joined))%Z →
  ∃ kept rest,
    e_explanation (explain core topic top_k max_chars g).1 = kept ++ py "..."
    ∧ joined = kept ++ rest
    ∧ (Z.of_nat (length kept) ≤ max_chars)%Z
    ∧ ¬ mid_word kept rest.
End ExplainerClaims.

(** What [pattern.search(s)] answers, in short: the end of the match, the
    groups 1 to 3 and [lastindex]. *)
Definition search_summary {U : Unicode} (r : re) (s : list N)
    : option (nat * list N * list N * list N * nat) :=
  match re_search r s with
  | Some (c, g) => Some (c_pos c, group 1 g, group 2 g, group 3 g, lastindex g)
  | None => None
  end.

(** The four [DEF_PATTERNS] and [DEF_RE_SIMPLE] on one sentence. *)
Definition all_patterns {U : Unicode} (s : list N)
    : list (option (nat * list N * list N * list N * nat)) :=
  (λ r, search_summary r s) <$> (DEF_PATTERNS ++ [DEF_RE_SIMPLE]).

(** ** The properties of the quiz synthesizer, as the specification words them *)

(** [c] returns, whatever the draws, a value that satisfies [P]. *)
Definition q_ok {A} (c : Q A) (P : A → Prop) : Prop :=
  ∀ tape, ∃ x tape', c tape = (inr x, tape') ∧ P x.

(** The index of the answer letter: A is 0, ..., D is 3. *)
Definition answer_index (m : MCQ) : option nat :=
  match q_answer m with
  | [c] => if in_range 65 68 c then Some (N.to_nat (c - 65)) else None
  | _ => None
  end.

(** Four options, all distinct, and the one at the answer letter is the
    stored explanation. *)
Definition mcq_valid (m : MCQ) : Prop :=
  length (q_options m) = 4%nat
  ∧ NoDup (q_options m)
  ∧ ∃ i, answer_index m = Some i ∧ q_options m !! i = Some (q_explanation m).

Section QuizClaims.
Context {U : Unicode}.

Definition quiz_valid {Emb} (w : World Emb) (topic : list N) (n_questions : Z)
    (g : Globals Emb) (tape : list nat) : Prop :=
  ∀ res g' tape',
    generate_quiz_for_topic w topic n_questions None g tape = (inr res, g', tape') →
    ∀ m, m ∈ res → mcq_valid m.

(** At most [n_questions] questions, and never none. *)
Definition quiz_length_bounded {Emb} (w : World Emb) (topic : list N)
    (n_questions : Z) (g : Globals Emb) (tape : list nat) : Prop :=
  ∀ res g' tape',
    generate_quiz_for_topic w topic n_questions None g tape = (inr res, g', tape') →
    (Z.of_nat (length res) ≤ n_questions)%Z ∧ res ≠ [].

(** The sentence yields a question (this does not depend on the draws). *)
Definition yields (s : list N) : bool :=
  bool_decide (is_Some (first_pattern DEF_PATTERNS s))
  || bool_decide (is_Some (try_simple s)).

(** The candidate sentences of a retrieved chunk. *)
Definition sentences_of (ch : Chunk) : list (list N) :=
  extract_candidate_sentences (clean_text (ch_text ch)).

(** A question made by [fallback_mcq]. *)
Definition fallback_shaped (chapter : list N) (m : MCQ) : Prop :=
  ∃ concept,
    q_chapter m = chapter
    ∧ q_question m = py "Which of the following best describes " ++ concept ++ py "?"
    ∧ q_explanation m = py "A brief description of " ++ concept ++ py ".".

(** What holds of a question built from a sentence or by [fallback_mcq]:
    four options, a letter from A to D that points at the explanation, and
    distinct options unless the correct text is itself a term of the bank
    (the bank's terms being distinct up to case). *)
Definition mcq_built (m : MCQ) : Prop :=
  length (q_options m) = 4%nat
  ∧ (∃ i, answer_index m = Some i ∧ q_options m !! i = Some (q_explanation m))
  ∧ (NoDup (str_lower <$> BASE_DISTRACTORS) →
     q_explanation m ∉ BASE_DISTRACTORS → NoDup (q_options m)).
End QuizClaims.

(** ** The properties of the planner, as the specification words them *)

Section PlannerClaims.
Context {U : Unicode}.

(** The last character of [l], or [p] when [l] is empty. *)
Definition last_or (p : option N) (l : list N) : option N :=
  match last l with Some c => Some c | None => p end.

(** [w] stands in [s] as a word of its own: it occurs there with a word
    boundary on each side (a word character on exactly one side of the
    position). *)
Definition standalone (w s : list N) : Prop :=
  ∃ a b, s = a ++ w ++ b
         ∧ is_word_at (last a) ≠ is_word_at (head (w ++ b))
         ∧ is_word_at (last_or (last a) w) ≠ is_word_at (head b).

(** The quiz-intent keywords of the specification. *)
Definition spec_quiz_keywords : list (list N) :=
  [py "quiz"; py "practice"; py "test"; py "exercise"; py "questions";
   py "mcq"; py "solve"].

(** The difficulty read from the profile, before the overrides: medium
    unless the profile can be read and says weak or strong. *)
Definition agents_base (ts : option (list N → list N → E Strength))
    (student_id chosen_topic : list N) : Difficulty :=
  match ts with
  | None => medium
  | Some f =>
      if bnil student_id then medium
      else match f student_id chosen_topic with
           | inr s => difficulty_of s
           | inl _ => medium
           end
  end.

(** The action the specification asks for; the query is read as the
    planner reads it, stripped and in lower case. *)
Definition spec_action (query : list N) : Action :=
  if existsb (λ k, contains k (str_lower (strip query))) spec_quiz_keywords
  then generate_quiz else retrieve_and_explain.
End PlannerClaims.

(** ** Sample worlds *)

(** A database with two failed attempts of student "s1" on "matrices". *)
Definition weak_db : option (list attempt) :=
  Some [mkAttempt (py "s1") (py "matrices") false;
        mkAttempt (py "s1") (py "matrices") false].

(** An empty knowledge base. *)
Definition empty_world : World unit :=
  mkWorld (Some (λ _, tt)) (Some []) (Some (λ _, [])).

(** A knowledge base whose only chunk defines a word by a term of the
    distractor bank. *)
Definition smooth_kb : list kb_entry :=
  [KStr (py "Smoothness is defined as Differentiability")].

Definition smooth_world : World unit :=
  mkWorld (Some (λ _, tt)) (Some smooth_kb) (Some (λ _, [0%Z])).

(** Nothing loaded yet. *)
Definition cold : Globals unit := mkGlobals None None None.

(** A knowledge base of one chunk that opens with a run of dashes and an
    item number; the index ranks it first. *)
Definition marker_kb : list kb_entry :=
  [KDict (<[py "chapter" := py "5.pdf"]>
          (<[py "text" := py "---- 3) The derivative measures the rate of change."]> ∅))].

Definition marker_world : World unit :=
  mkWorld (Some (λ _, tt)) (Some marker_kb) (Some (λ _, [0%Z])).

(** A knowledge base of one chunk of prose with the word "example", in
    which none of the math tokens occurs. *)
Definition example_kb : list kb_entry :=
  [KDict (<[py "chapter" := py "3.pdf"]>
          (<[py "text" := py "For example, a matrix is a rectangular array."]> ∅))].

Definition example_world : World unit :=
  mkWorld (Some (λ _, tt)) (Some example_kb) (Some (λ _, [0%Z])).

(** A knowledge base of one chunk of plain prose. *)
Definition matrices_kb : list kb_entry :=
  [KDict (<[py "chapter" := py "3.pdf"]>
          (<[py "text" := py "Matrices are rectangular arrays of numbers."]> ∅))].

Definition matrices_world : World unit :=
  mkWorld (Some (λ _, tt)) (Some matrices_kb) (Some (λ _, [0%Z])).

(** A knowledge base of three chunks, the last a copy of the first. *)
Definition small_kb : list kb_entry :=
  [KStr (py "A matrix is defined as a rectangular array of numbers. It has rows.");
   KDict (<[py "chapter" := py "3.pdf"]>
          (<[py "text" := py "Please explain the rank of a matrix in detail."]> ∅));
   KStr (py "A matrix is defined as a rectangular array of numbers. It has rows.")].

Definition small_world : World unit :=
  mkWorld (Some (λ _, tt)) (Some small_kb) (Some (λ _, [2; 1; 0]%Z)).

(** A knowledge base of three chunks with the same first 137 characters:
    the second has the chapter of the first and another ending, the third
    the text of the first and another chapter. *)
Definition long_opening : list N :=
  py "A matrix is a rectangular array of numbers arranged in rows and columns, and the numbers in the array are called the entries of the matrix".

Definition long_kb : list kb_entry :=
  [KDict (<[py "chapter" := py "3.pdf"]>
          (<[py "text" := long_opening ++ py " in the first book."]> ∅));
   KDict (<[py "chapter" := py "3.pdf"]>
          (<[py "text" := long_opening ++ py " in the second book."]> ∅));
   KDict (<[py "chapter" := py "4.pdf"]>
          (<[py "text" := long_opening ++ py " in the first book."]> ∅))].

Definition long_world : World unit :=
  mkWorld (Some (λ _, tt)) (Some long_kb) (Some (λ _, [0; 1; 2]%Z)).

(** ** Notions for the text cleaning *)

(** The length of the run of [p]-characters a text starts with. *)
Fixpoint run (p : N → bool) (s : list N) : nat :=
  match s with
  | c :: tl => if p c then S (run p tl) else 0%nat
  | [] => 0%nat
  end.

(** Nowhere in [s] do [lo] characters of the class [p] follow one another. *)
Definition runs_below (lo : nat) (p : N → bool) (s : list N) : Prop :=
  ∀ i, (run p (drop i s) < lo)%nat.

(** [s] neither starts nor ends with white space. *)
Definition stripped {U : Unicode} (s : list N) : Prop :=
  (∀ c, head s = Some c → isspace c = false)
  ∧ (∀ c, last s = Some c → isspace c = false).

Definition is_blank (c : N) : bool := (c =? 32) || (c =? 9).



(** A world in which the two files of the knowledge base are missing. *)
Definition missing_world : World unit :=
  mkWorld (Some (λ _, tt)) None None.

(** The labels that point into the chunk store. *)
Definition in_store (chunks_list : list kb_entry) (i : Z) : Prop :=
  (0 ≤ i < Z.of_nat (length chunks_list))%Z.

Global Instance in_store_dec chunks_list i : Decision (in_store chunks_list i).
Proof. unfold in_store. apply _. Defined.

(** The chapters [explain] records: those of the first [top_k] chunks with
    a text and a chapter that are not empty, in rank order. *)
Definition chapters_of (chunks : list TextChunk) (top_k : nat)
    {U : Unicode} : list (list N) :=
  tc_chapter <$> filter (λ c, strip (tc_text c) ≠ [] ∧ tc_chapter c ≠ [])
                        (take top_k chunks).

(** What [explain] returns when nothing was retrieved. *)
Definition no_explanation (topic : list N) : Explanation :=
  mkExplanation topic (py "No explanation found.") None [].

(** ** The part of a quiz that the draws do not touch *)

Section QuizOutline.
Context {U : Unicode}.

(** The question and the explanation [sentence_to_mcq] builds from a
    sentence, if any. *)
Definition sentence_plan (s : list N) : option (list N * list N) :=
  match first_pattern DEF_PATTERNS s with
  | Some (concept, definition) => Some (what_is (strip concept), definition)
  | None =>
      match try_simple s with
      | Some (concept, definition) => Some (what_is concept, definition)
      | None => None
      end
  end.

(** Chapter, question and explanation of the questions a list of
    sentences gives, in order. *)
Definition sentences_outline (chapter : list N) (sents : list (list N))
    : list (list N * list N * list N) :=
  omap (λ s, (λ qe : list N * list N, (chapter, qe.1, qe.2)) <$> sentence_plan s)
       sents.

(** The same for the retrieved chunks, chunk after chunk. *)
Definition outline (chunks : list Chunk) : list (list N * list N * list N) :=
  concat ((λ ch, sentences_outline (ch_chapter ch) (sentences_of ch)) <$> chunks).

Definition mcq_core (m : MCQ) : list N * list N * list N :=
  (q_chapter m, q_question m, q_explanation m).
End QuizOutline.

(** ** Backend/agents/quiz_agent.py *)

(** [str(i)] for an [int]. *)
Fixpoint uint_str (d : Decimal.uint) : list N :=
  match d with
  | Decimal.Nil => []
  | Decimal.D0 d => 48 :: uint_str d
  | Decimal.D1 d => 49 :: uint_str d
  | Decimal.D2 d => 50 :: uint_str d
  | Decimal.D3 d => 51 :: uint_str d
  | Decimal.D4 d => 52 :: uint_str d
  | Decimal.D5 d => 53 :: uint_str d
  | Decimal.D6 d => 54 :: uint_str d
  | Decimal.D7 d => 55 :: uint_str d
  | Decimal.D8 d => 56 :: uint_str d
  | Decimal.D9 d => 57 :: uint_str d
  end.

Definition str_of_int (i : Z) : list N :=
  match Z.to_int i with
  | Decimal.Pos d => uint_str d
  | Decimal.Neg d => 45 :: uint_str d
  end.

(** [range(1, n + 1)] *)
Definition range1 (n : Z) : list Z :=
  (λ k, Z.of_nat k + 1)%Z <$> seq 0 (Z.to_nat n).

Module QuizAgent.
Section QuizAgent.
Context {Emb : Type}.

(** The imported [generate_quiz_for_topic], as the wrapper sees it. *)
Definition CoreQuiz : Type :=
  list N → Z → option (list N) → Globals Emb → list nat
  → (error + list MCQ) * Globals Emb * list nat.

Definition placeholder (topic : list N) (i : Z) : MCQ :=
  mkMCQ []
        (py "No generated MCQs found for '" ++ topic ++ py "'. Placeholder Q"
           ++ str_of_int i)
        [py "-"; py "-"; py "-"; py "-"]
        (py "A")
        (py "No content available to generate MCQs.").

(** [generate_quiz]; [_core_quiz] is [None] when the import failed.  The
    core returns a list whenever it returns, so the [isinstance] test
    always passes. *)
Definition generate_quiz (_core_quiz : option CoreQuiz) (topic : list N)
    (n_questions : Z) (difficulty : option (list N))
    (g : Globals Emb) (tape : list nat)
    : list MCQ * Globals Emb * list nat :=
  match _core_quiz with
  | None => (placeholder topic <$> range1 n_questions, g, tape)
  | Some core =>
      match core topic n_questions difficulty g tape with
      | (inl _, g', tape') => ([], g', tape')
      | (inr quiz, g', tape') => (slice_to n_questions quiz, g', tape')
      end
  end.
End QuizAgent.
End QuizAgent.

(** A text of two sentences, the second too short to be a candidate. *)
Definition two_sentences : list N :=
  py "A matrix is defined as a   rectangular array of numbers.  It has rows.".

(** ** Notions for the planners *)

Section PlannerNotions.
Context {U : Unicode}.

(** The topic [planner_decide] of Backend/planner.py settles on, before
    it reads the profile. *)
Definition chosen_topic (query : list N) (topic : option (list N)) : list N :=
  let q := str_lower (strip query) in
  let c := or_else (default [] topic) (Planner._match_best_topic q) in
  Planner._normalize_topic (if bnil c then q else c).
End PlannerNotions.

(** ** Backend/progress_db.py: recording attempts *)

(** [record_attempt]: one more row in the table [attempts].  The
    question, the difficulty and the time stamp of the row are not read
    by [get_progress] and are left out of [attempt]. *)
Definition record_attempt (db : option (list attempt))
    (student_id topic : list N) (is_correct : bool) : E (list attempt) :=
  match db with
  | None => inl OperationalError
  | Some rows => inr (rows ++ [mkAttempt student_id topic is_correct])
  end.

(** The attempts of a student on a topic, and the correct ones among
    them. *)
Definition attempts_on (rows : list attempt) (student_id topic : list N)
    : list attempt :=
  filter (λ r, a_student r = student_id ∧ a_topic r = topic) rows.

Definition n_correct (rows : list attempt) : nat :=
  length (filter (λ r, a_correct r = true) rows).

(** ** Backend/kb_builder.py: the math filter of the index builder *)

Module KbBuilder.
Section KbBuilder.
Context {U : Unicode}.

(** [MATH_TOKENS] of kb_builder.py: those of the retriever but "exp". *)
Definition MATH_TOKENS : list (list N) :=
  [py "\frac"; py "\sum"; py "\int"; py "="; py "<"; py ">";
   [215]; [247]; [8747]; [931]; [960]; [8730];
   py "^"; py "_"; py "lim"].

Definition count_tokens (text : list N) : nat :=
  count_if (λ t, contains t text) MATH_TOKENS.

(** [is_math_block] of kb_builder.py, with the fractions compared as in
    the retriever's. *)
Definition is_math_block (text : list N) : bool :=
  if bnil text then false else
  let total_chars := Nat.max 1 (length text) in
  let digits := count_if isdigit text in
  if bool_decide (1 ≤ count_tokens text)%nat then true
  else if bool_decide (28 * total_chars < 100 * non_alnum text)%nat
          && bool_decide (5 * total_chars < 100 * digits)%nat then true
  else if re_found numbered_re (strip text) then true
  else false.
End KbBuilder.
End KbBuilder.

(** A database in which student "s1" has four attempts on "matrices",
    three of them correct, and one on "probability". *)
Definition mixed_db : list attempt :=
  [mkAttempt (py "s1") (py "matrices") true;
   mkAttempt (py "s2") (py "matrices") false;
   mkAttempt (py "s1") (py "matrices") true;
   mkAttempt (py "s1") (py "probability") false;
   mkAttempt (py "s1") (py "matrices") false;
   mkAttempt (py "s1") (py "matrices") true].

(** ** Backend/main.py: the endpoint /ask *)

Module Main.

(** What [ask] answers: one of its two JSON bodies, or the
    [HTTPException] 500 that [fail(e, context)] builds, of which the
    context is kept. *)
Inductive Response :=
| Explain (topic : list N) (difficulty : Difficulty) (answer : list N)
          (chapter : option (list N)) (quiz_suggestion : bool)
| Quiz (topic : list N) (difficulty : Difficulty) (quiz : list MCQ)
| ServerError (context : list N).

Definition difficulty_str (d : Difficulty) : list N :=
  match d with
  | easy => py "easy"
  | medium => py "medium"
  | hard => py "hard"
  end.

Section Main.
Context {Emb : Type}.

(** [ask(student_id, query)].  The three functions are [None] when their
    module could not be imported.  The calls of [log_interaction] are
    left out: their results are not used and their exceptions are
    swallowed, so that the answer does not depend on them. *)
Definition ask
    (planner_decide : option (list N → list N → option (list N) → E Planner.Plan))
    (retrieve : option (list N → nat → M Emb (list Chunk)))
    (generate_quiz_for_topic : option (@QuizAgent.CoreQuiz Emb))
    (student_id query : list N) (g : Globals Emb) (tape : list nat)
    : Response * Globals Emb * list nat :=
  match (match planner_decide with
         | Some pd => pd student_id query None
         | None => inr (Planner.mkPlan retrieve_and_explain query medium)
         end) with
  | inl _ => (ServerError (py "planner_decide() crashed"), g, tape)
  | inr plan =>
      let topic := Planner.topic plan in
      let difficulty := Planner.difficulty plan in
      match Planner.action plan with
      | retrieve_and_explain =>
          match retrieve with
          | None => (ServerError (py "retriever import failure"), g, tape)
          | Some retrieve =>
              match retrieve topic 1%nat g with
              | (inl _, g') => (ServerError (py "retrieve() crashed"), g', tape)
              | (inr [], g') =>
                  (Explain topic difficulty (py "No explanation found.") None
                           false, g', tape)
              | (inr (chunk :: _), g') =>
                  (Explain topic difficulty (ch_text chunk)
                           (Some (ch_chapter chunk)) true, g', tape)
              end
          end
      | generate_quiz =>
          match generate_quiz_for_topic with
          | None => (ServerError (py "quiz_generator import failure"), g, tape)
          | Some generate =>
              match generate topic 3%Z (Some (difficulty_str difficulty)) g tape with
              | (inl _, g', tape') =>
                  (ServerError (py "generate_quiz_for_topic crashed"), g', tape')
              | (inr quiz, g', tape') => (Quiz topic difficulty quiz, g', tape')
              end
          end
      end
  end.
End Main.
End Main.

(** The endpoint over the modules as [main.py] imports them; [db] is the
    table of attempts, [None] when the database cannot be read. *)
Definition ask_backend {U : Unicode} {Emb : Type} (db : option (list attempt))
    (w : World Emb) :=
  Main.ask (Some (Planner.planner_decide (topic_strength db)))
           (Some (retrieve w)) (Some (generate_quiz_for_topic w)).

(** ** Facts on Python strings *)

Section PyStrFacts.
Context {U : Unicode}.

Lemma startswith_spec (t s : list N) :
  startswith t s = true ↔ ∃ b, s = t ++ b.
Proof.
  revert s. induction t as [|a t IH]; intros s; simpl.
  - split; [eauto | done].
  - destruct s as [|b s].
    + split; [done | intros [? ?]; done].
    + rewrite andb_true_iff, N.eqb_eq, IH. split.
      * intros [-> [r ->]]. eauto.
      * intros [r Hr]. simplify_eq. eauto.
Qed.

Lemma contains_spec (t s : list N) :
  contains t s = true ↔ ∃ a b, s = a ++ t ++ b.
Proof.
  induction s as [|x s IH]; simpl; rewrite orb_true_iff, startswith_spec.
  - split.
    + intros [[b Hb] | ?]; [exists [], b; done | done].
    + intros (a & b & Hab). left.
      destruct a; [eauto | done].
  - rewrite IH. split.
    + intros [[b Hb] | (a & b & ->)]; [exists [], b; done |].
      exists (x :: a), b. done.
    + intros (a & b & Hab). destruct a as [|y a]; [left; eauto |].
      right. simpl in Hab. injection Hab as -> ->. eauto.
Qed.


Lemma length_rsplit1_head (sep : N) (s : list N) :
  (length (rsplit1_head sep s) ≤ length s)%nat.
Proof.
  unfold rsplit1_head. destruct (rindex sep s); [|done].
  rewrite length_take. lia.
Qed.

Lemma rindex_Some (c : N) (s : list N) (i : nat) :
  rindex c s = Some i →
  ∃ tl, s = take i s ++ c :: tl ∧ c ∉ tl.
Proof.
  revert i. induction s as [|x s IH]; intros i; simpl; [done|].
  destruct (rindex c s) as [j|] eqn:Hj.
  - intros [= <-]. destruct (IH j eq_refl) as (tl & Hs & Htl).
    exists tl. simpl. split; [congruence | done].
  - destruct (N.eqb_spec x c) as [->|]; [|done].
    intros [= <-]. exists s. split; [done|].
    clear IH. induction s as [|y s IHs]; [apply not_elem_of_nil|].
    simpl in Hj. destruct (rindex c s); [done|].
    destruct (N.eqb_spec y c); [done|].
    apply not_elem_of_cons. auto.
Qed.

Lemma rindex_None (c : N) (s : list N) : rindex c s = None → c ∉ s.
Proof.
  induction s as [|y s IHs]; simpl; [intros; apply not_elem_of_nil|].
  destruct (rindex c s); [done|].
  destruct (N.eqb_spec y c); [done|].
  intros _. apply not_elem_of_cons. auto.
Qed.
End PyStrFacts.

Lemma filter_all {A} (P : A → Prop) `{∀ x, Decision (P x)} (l : list A) :
  (∀ x, P x) → filter P l = l.
Proof.
  intros HP. induction l as [|x l IH]; [done|].
  rewrite filter_cons_True by done. by rewrite IH.
Qed.

(** ** The retriever *)

Section RetrieverFacts.
Context {U : Unicode}.
Variable Emb : Type.

Lemma length_faiss_search (idx : Index Emb) (q : Emb) (k : nat) :
  length (faiss_search idx q k) = k.
Proof.
  unfold faiss_search. rewrite length_take, length_app, length_replicate. lia.
Qed.

(** When [retrieve] returns, the three globals are loaded and the result
    is the loop run on the labels of the search. *)
Lemma retrieve_inr (w : World Emb) (query : list N) (top_k : nat)
    (g g' : Globals Emb) (res : list Chunk) :
  retrieve w query top_k g = (inr res, g') →
  ∃ model kb idx,
    g' = mkGlobals (Some model) (Some kb) (Some idx)
    ∧ res = retrieve_loop kb (faiss_search idx (model query) top_k).
Proof.
  unfold retrieve, _load_kb, _load_model, load_chunks, load_index.
  unfold mbind, M_bind, m_bind, mret, M_ret, m_ret.
  destruct g as [gm gc gi], w as [wm wc wi]; simpl.
  destruct gm as [m|]; [|destruct wm as [m|]]; simpl; try done;
    (destruct gc as [c|]; [|destruct wc as [c|]]; simpl; try done);
    (destruct gi as [i|]; [|destruct wi as [i|]]; simpl; try done);
    intros [= <- <-]; by exists m, c, i.
Qed.

(** With a loadable model and both files present, [retrieve] returns. *)
Lemma retrieve_total (w : World Emb) (query : list N) (top_k : nat)
    (g : Globals Emb) :
  is_Some (w_model w) → is_Some (w_chunks w) → is_Some (w_index w) →
  ∃ res g', retrieve w query top_k g = (inr res, g').
Proof.
  intros [m Hm] [c Hc] [i Hi].
  unfold retrieve, _load_kb, _load_model, load_chunks, load_index.
  unfold mbind, M_bind, m_bind, mret, M_ret, m_ret.
  destruct g as [gm gc gi], w as [wm wc wi]; simpl in *; subst.
  destruct gm, gc, gi; simpl; eauto.
Qed.

Section Loop.
Variable chunks_list : list kb_entry.

Local Abbreviation step := (retrieve_step chunks_list).

Lemma candidate_Some (i : Z) (chapter cleaned : list N) :
  candidate chunks_list i = Some (chapter, cleaned) →
  ∃ e, chunks_list !! Z.to_nat i = Some e
    ∧ type_of (as_dict e) = py "text"
    ∧ is_math_block (raw_text_of (as_dict e)) = false
    ∧ clean_chunk (_clean_text (raw_text_of (as_dict e))) = Some cleaned
    ∧ chapter = chapter_of (as_dict e)
    ∧ (20 ≤ length cleaned)%nat.
Proof.
  unfold candidate. destruct (_ || _); [done|].
  destruct (chunks_list !! Z.to_nat i) as [e|]; [|done].
  unfold str_eqb. intros Hcand. exists e. revert Hcand.
  case_bool_decide as Ht; simpl; [|done].
  destruct (is_math_block _) eqn:Hm; [done|].
  destruct (clean_chunk _) as [c|] eqn:Hc; [|done].
  destruct (bnil c); simpl; [done|].
  case_bool_decide; [done|].
  intros [= <- <-]. repeat split; auto with lia.
Qed.

(** The loop, from any state: what it adds to [results] is the first of
    every key not yet in [seen], in rank order. *)
Lemma foldl_step_first_seen (labels : list Z) (results : list Chunk)
    (seen : gset (list N * list N)) :
  (foldl step (results, seen) labels).1
  = results ++ (to_chunk <$> filter (λ y, key120 y ∉ seen)
                                    (first_seen (survivors chunks_list labels))).
Proof.
  revert results seen.
  induction labels as [|i labels IH]; intros results seen; simpl.
  { by rewrite app_nil_r. }
  unfold survivors in *. simpl. unfold retrieve_step at 2.
  destruct (candidate chunks_list i) as [[chapter cleaned]|]; simpl; [|apply IH].
  change (dedup_key chapter cleaned) with (key120 (chapter, cleaned)).
  case_bool_decide as Hseen; simpl.
  - rewrite IH. f_equal. f_equal.
    rewrite filter_cons_False by (simpl; tauto).
    rewrite list_filter_filter. apply list_filter_iff.
    intros [c t]; simpl. split; [|tauto].
    intros Hn. split; [done|]. intros Heq. rewrite Heq in Hn. done.
  - rewrite IH, <- app_assoc. f_equal.
    rewrite filter_cons_True by done. simpl. f_equal. f_equal.
    rewrite list_filter_filter. apply list_filter_iff.
    intros [c t]; simpl.
    rewrite not_elem_of_union, not_elem_of_singleton. tauto.
Qed.

Lemma retrieve_loop_first_seen (labels : list Z) :
  retrieve_loop chunks_list labels
  = to_chunk <$> first_seen (survivors chunks_list labels).
Proof.
  unfold retrieve_loop. rewrite foldl_step_first_seen. simpl. f_equal.
  apply filter_all. intros; apply not_elem_of_empty.
Qed.
End Loop.

(** What [first_seen] keeps: a sublist, without two equal keys, in which
    an element stands whenever no element before it has its key. *)
Lemma first_seen_sublist (l : list (list N * list N)) :
  first_seen l `sublist_of` l.
Proof.
  induction l as [|x l IH]; simpl; [done|].
  apply sublist_skip. etrans; [apply sublist_filter | done].
Qed.

Lemma first_seen_keys (l : list (list N * list N)) (k : list N * list N) :
  k ∈ key120 <$> first_seen l
  ↔ k ∈ key120 <$> l.
Proof.
  induction l as [|x l IH]; simpl; [done|].
  rewrite !elem_of_cons, <- IH, !list_elem_of_fmap.
  split.
  - intros [-> | (y & -> & Hy)]; [by left|].
    apply list_elem_of_filter in Hy as [_ Hy]. right. eauto.
  - intros [-> | (y & -> & Hy)]; [by left|].
    destruct (decide (key120 y = key120 x)) as [Heq|Hne];
      [by left|].
    right. exists y. split; [done|]. apply list_elem_of_filter. done.
Qed.

Lemma first_seen_NoDup (l : list (list N * list N)) :
  NoDup (key120 <$> first_seen l).
Proof.
  induction l as [|x l IH]; simpl; [constructor|].
  constructor.
  - rewrite list_elem_of_fmap. intros (y & Hk & Hy).
    apply list_elem_of_filter in Hy as [Hne _]. by apply Hne.
  - eapply sublist_NoDup; [apply IH|].
    apply fmap_sublist, sublist_filter.
Qed.

Lemma first_seen_first (l1 l2 : list (list N * list N)) (x : list N * list N) :
  key120 x ∉ key120 <$> l1 →
  x ∈ first_seen (l1 ++ x :: l2).
Proof.
  induction l1 as [|y l1 IH]; simpl; intros Hx; [by left|].
  apply not_elem_of_cons in Hx as [Hne Hx].
  right. apply list_elem_of_filter. split; [done | auto].
Qed.
End RetrieverFacts.

Section RetrieverTheorems.
Context {U : Unicode}.
Variable Emb : Type.

Lemma length_omap_le {A B} (f : A → option B) (l : list A) :
  (length (omap f l) ≤ length l)%nat.
Proof.
  induction l as [|x l IH]; [done|].
  change (omap f (x :: l))
    with (match f x with Some y => y :: omap f l | None => omap f l end).
  destruct (f x); simpl; lia.
Qed.

Lemma chunk_key_to_chunk (l : list (list N * list N)) :
  chunk_key <$> (to_chunk <$> l) = key120 <$> l.
Proof. rewrite <- list_fmap_compose. done. Qed.

(** Where a returned chunk comes from. *)
Lemma returned_chunk_origin (w : World Emb) (query : list N)
    (top_k : nat) (g g' : Globals Emb) (res : list Chunk) :
  retrieve w query top_k g = (inr res, g') →
  ∀ c, c ∈ res →
    (20 ≤ length (ch_text c))%nat
    ∧ ch_type c = py "text"
    ∧ ∃ kb e, g_chunks g' = Some kb ∧ e ∈ kb
        ∧ is_math_block (raw_text_of (as_dict e)) = false
        ∧ clean_chunk (_clean_text (raw_text_of (as_dict e))) = Some (ch_text c)
        ∧ ch_chapter c = chapter_of (as_dict e).
Proof.
  intros Hret c Hc.
  apply retrieve_inr in Hret as (model & kb & idx & -> & ->).
  rewrite retrieve_loop_first_seen in Hc.
  apply list_elem_of_fmap in Hc as ([chapter cleaned] & -> & Hc).
  eapply elem_of_sublist in Hc; [|apply first_seen_sublist].
  apply list_elem_of_omap in Hc as (i & _ & Hi).
  apply candidate_Some in Hi as (e & He & _ & Hmath & Hclean & -> & Hlen).
  simpl. repeat split; [done|].
  exists kb, e. repeat split; try done.
  eapply list_elem_of_lookup_2; eauto.
Qed.

(** C3, as amended.  Every chunk returned by [retrieve] has a text of at
    least 20 characters and the type "text", and is the cleaned form of a
    stored chunk on whose raw text [is_math_block] is false (the filter is
    applied before the cleaning, not to the text that is returned). *)
Theorem retrieve_chunks_filtered (w : World Emb) (query : list N)
    (top_k : nat) (g g' : Globals Emb) (res : list Chunk) :
  retrieve w query top_k g = (inr res, g') →
  ∀ c, c ∈ res →
    (20 ≤ length (ch_text c))%nat
    ∧ ch_type c = py "text"
    ∧ ∃ kb e, g_chunks g' = Some kb ∧ e ∈ kb
        ∧ is_math_block (raw_text_of (as_dict e)) = false
        ∧ clean_chunk (_clean_text (raw_text_of (as_dict e))) = Some (ch_text c)
        ∧ ch_chapter c = chapter_of (as_dict e).
Proof. apply returned_chunk_origin. Qed.

(** C4.  The sequence returned by [retrieve] has at most [top_k] chunks,
    and no two of them have the same chapter and the same first 120
    characters of text.  It is the candidates that pass the filters, in
    rank order, with the first of every such key kept and the later ones
    dropped: a candidate is returned when no candidate before it has its
    chapter and its first 120 characters, and is the only chunk returned
    with them. *)
Theorem retrieve_dedup (w : World Emb) (query : list N) (top_k : nat)
    (g g' : Globals Emb) (res : list Chunk) :
  retrieve w query top_k g = (inr res, g') →
  (length res ≤ top_k)%nat
  ∧ NoDup ((λ c, (ch_chapter c, take 120 (ch_text c))) <$> res)
  ∧ (∀ i j ci cj, res !! i = Some ci → res !! j = Some cj →
       ch_chapter ci = ch_chapter cj →
       take 120 (ch_text ci) = take 120 (ch_text cj) → i = j)
  ∧ ∃ model kb idx,
      g' = mkGlobals (Some model) (Some kb) (Some idx)
      ∧ let cands := survivors kb (faiss_search idx (model query) top_k) in
        res = to_chunk <$> first_seen cands
        ∧ res `sublist_of` (to_chunk <$> cands)
        ∧ ∀ l1 x l2, cands = l1 ++ x :: l2 →
            (∀ y, y ∈ l1 → ¬ (y.1 = x.1 ∧ take 120 y.2 = take 120 x.2)) →
            to_chunk x ∈ res.
Proof.
  intros Hret.
  apply retrieve_inr in Hret as (model & kb & idx & -> & ->).
  rewrite retrieve_loop_first_seen.
  assert (Hnd : NoDup ((λ c, (ch_chapter c, take 120 (ch_text c)))
                         <$> (to_chunk <$> first_seen
                                (survivors kb (faiss_search idx (model query) top_k))))).
  { change (λ c, (ch_chapter c, take 120 (ch_text c))) with chunk_key.
    rewrite chunk_key_to_chunk. apply first_seen_NoDup. }
  split; [|split; [exact Hnd|split]].
  - rewrite length_fmap.
    etrans; [apply sublist_length, first_seen_sublist|].
    etrans; [apply length_omap_le|].
    by rewrite length_faiss_search.
  - intros i j ci cj Hi Hj Hch Htx.
    eapply NoDup_lookup; [exact Hnd | |].
    + rewrite list_lookup_fmap, Hi. reflexivity.
    + rewrite list_lookup_fmap, Hj. simpl. by rewrite Hch, Htx.
  - exists model, kb, idx. split; [done|]. simpl. split; [done|]. split.
    + apply fmap_sublist, first_seen_sublist.
    + intros l1 x l2 -> Hx. apply list_elem_of_fmap_2.
      apply first_seen_first. rewrite list_elem_of_fmap.
      intros (y & Hk & Hy). apply (Hx y Hy).
      unfold key120 in Hk. by injection Hk as -> ->.
Qed.


Lemma has_math_tokenb_spec (text : list N) :
  has_math_tokenb text = true ↔ has_math_token text.
Proof.
  unfold has_math_tokenb, has_math_token. rewrite existsb_exists. split.
  - intros (tok & Hin & Hc). apply contains_spec in Hc as (a & b & ->).
    exists tok, a, b. split; [by apply list_elem_of_In | done].
  - intros (tok & a & b & Hin & ->). exists tok.
    split; [by apply list_elem_of_In | apply contains_spec; eauto].
Qed.


(** C10.  A second call of [retrieve] with the same query, against the
    same files and model, returns what the first returned (the same chunk
    sequence, or the same error) and leaves the globals as the first left
    them. *)
Theorem retrieve_idempotent (w : World Emb) (query : list N) (top_k : nat)
    (g : Globals Emb) :
  retrieve w query top_k (retrieve w query top_k g).2
  = retrieve w query top_k g.
Proof.
  unfold retrieve, _load_kb, _load_model, load_chunks, load_index.
  unfold mbind, M_bind, m_bind, mret, M_ret, m_ret.
  destruct g as [gm gc gi], w as [wm wc wi]; simpl.
  destruct gm as [m|]; [|destruct wm as [m|]]; simpl; try done;
    (destruct gc as [c|]; [|destruct wc as [c|]]; simpl; try done);
    (destruct gi as [i|]; [|destruct wi as [i|]]; simpl; done).
Qed.
End RetrieverTheorems.

(** C3 as stated fails: the chunk "---- 3) The derivative ..." is not a
    math block, it is cleaned to "3) The derivative ...", which is one,
    and that is the text returned. *)
Lemma returned_chunk_is_math_block :
  ¬ returned_chunks_clean (U := ascii_db) marker_world (py "derivative") 3 cold.
Proof.
  intros Hclaim.
  pose (c := mkChunk (py "5.pdf")
                     (py "3) The derivative measures the rate of change.")
                     (py "text")).
  assert (Hret : retrieve (U := ascii_db) marker_world (py "derivative") 3 cold
                 = (inr [c], mkGlobals (w_model marker_world) (Some marker_kb)
                                       (w_index marker_world))).
  { vm_compute. reflexivity. }
  destruct (Hclaim _ _ Hret c) as (_ & Hmath & _); [by left|].
  vm_compute in Hmath. discriminate.
Qed.

Lemma retrieve_chunks_filtered_witness :
  let c := mkChunk (py "5.pdf")
                   (py "3) The derivative measures the rate of change.")
                   (py "text") in
  let g' := mkGlobals (w_model marker_world) (Some marker_kb)
                      (w_index marker_world) in
  retrieve (U := ascii_db) marker_world (py "derivative") 3 cold = (inr [c], g')
  ∧ c ∈ [c]
  ∧ (20 ≤ length (ch_text c))%nat
  ∧ ch_type c = py "text"
  ∧ ∃ kb e, g_chunks g' = Some kb ∧ e ∈ kb
      ∧ is_math_block (U := ascii_db) (raw_text_of (as_dict e)) = false
      ∧ clean_chunk (U := ascii_db)
          (_clean_text (U := ascii_db) (raw_text_of (as_dict e)))
        = Some (ch_text c)
      ∧ ch_chapter c = chapter_of (as_dict e).
Proof.
  intros c g'.
  assert (Hret : retrieve (U := ascii_db) marker_world (py "derivative") 3 cold
                 = (inr [c], g')) by (vm_compute; reflexivity).
  split; [exact Hret|]. split; [by left|].
  apply (retrieve_chunks_filtered (U := ascii_db) unit marker_world
           (py "derivative") 3 cold g' [c] Hret c).
  by left.
Defined.

Lemma retrieve_dedup_witness :
  let c0 := mkChunk (py "3.pdf") (long_opening ++ py " in the first book.")
              (py "text") in
  let c2 := mkChunk (py "4.pdf") (long_opening ++ py " in the first book.")
              (py "text") in
  let res := [c0; c2] in
  let g' := mkGlobals (w_model long_world) (Some long_kb) (w_index long_world) in
  retrieve (U := ascii_db) long_world (py "matrix") 3 cold = (inr res, g')
  ∧ (length res ≤ 3)%nat
  ∧ NoDup ((λ c, (ch_chapter c, take 120 (ch_text c))) <$> res)
  ∧ (∀ i j ci cj, res !! i = Some ci → res !! j = Some cj →
       ch_chapter ci = ch_chapter cj →
       take 120 (ch_text ci) = take 120 (ch_text cj) → i = j)
  ∧ ∃ model kb idx,
      g' = mkGlobals (Some model) (Some kb) (Some idx)
      ∧ let cands := survivors (U := ascii_db) kb
                       (faiss_search idx (model (py "matrix")) 3) in
        res = to_chunk <$> first_seen cands
        ∧ res `sublist_of` (to_chunk <$> cands)
        ∧ ∀ l1 x l2, cands = l1 ++ x :: l2 →
            (∀ y, y ∈ l1 → ¬ (y.1 = x.1 ∧ take 120 y.2 = take 120 x.2)) →
            to_chunk x ∈ res.
Proof.
  intros c0 c2 res g'.
  assert (Hret : retrieve (U := ascii_db) long_world (py "matrix") 3 cold
                 = (inr res, g')) by (vm_compute; reflexivity).
  split; [exact Hret|].
  exact (retrieve_dedup (U := ascii_db) unit long_world (py "matrix") 3
           cold g' res Hret).
Defined.

(** The three stored chunks of [long_kb] all pass the filters; the second
    differs from the first after its 120th character only, and is the
    one left out. *)
Example long_kb_candidates :
  survivors (U := ascii_db) long_kb [0; 1; 2]%Z
  = [(py "3.pdf", long_opening ++ py " in the first book.");
     (py "3.pdf", long_opening ++ py " in the second book.");
     (py "4.pdf", long_opening ++ py " in the first book.")]
  ∧ (120 ≤ length long_opening)%nat.
Proof. vm_compute. split; [reflexivity | lia]. Qed.


(** The words "explain" and "limit" are enough. *)
Example prose_words_are_math :
  is_math_block (U := ascii_db) (py "We explain the idea.") = true
  ∧ is_math_block (U := ascii_db) (py "There is a limit.") = true.
Proof. vm_compute. done. Qed.

(** The word "example" is not such a word: "exp" does not occur in it.
    A text with that word and no token is not a math block, and
    [retrieve] returns its chunk. *)
Example example_is_not_math :
  has_math_tokenb (py "For example, a matrix is a rectangular array.") = false
  ∧ is_math_block (U := ascii_db)
      (py "For example, a matrix is a rectangular array.") = false
  ∧ retrieve (U := ascii_db) example_world (py "matrix") 1 cold
    = (inr [mkChunk (py "3.pdf")
                    (py "For example, a matrix is a rectangular array.")
                    (py "text")],
       mkGlobals (w_model example_world) (Some example_kb)
                 (w_index example_world)).
Proof. vm_compute. done. Qed.


(** ** The explainer *)

Section ExplainerTheorems.
Context {U : Unicode}.
Variable Emb : Type.

Lemma explain_fst (core : option (list N → nat → M Emb (list Chunk)))
    (topic : list N) (top_k : nat) (max_chars : Z) (g : Globals Emb) :
  (explain core topic top_k max_chars g).1
  = explain_from topic (retrieve_text core topic top_k g).1 top_k max_chars.
Proof. unfold explain. by destruct (retrieve_text core topic top_k g). Qed.

(** The loop of [explain] keeps the stripped texts that are not empty. *)
Lemma explain_parts_fst (chunks : list TextChunk) :
  (explain_parts chunks).1
  = filter (λ t, t ≠ []) ((λ c, strip (tc_text c)) <$> chunks).
Proof.
  induction chunks as [|c chunks IH]; [done|].
  simpl. destruct (explain_parts chunks) as [parts sources]. simpl in IH.
  destruct (strip (tc_text c)) as [|x t] eqn:Ht; simpl.
  - rewrite filter_cons_False by tauto. done.
  - rewrite filter_cons_True by done. by rewrite IH.
Qed.

Lemma explain_from_explanation (topic : list N) (chunks : list TextChunk)
    (top_k : nat) (max_chars : Z) :
  chunks ≠ [] →
  e_explanation (explain_from topic chunks top_k max_chars)
  = if bool_decide (max_chars < Z.of_nat (length (joined_text chunks top_k)))%Z
    then truncate max_chars (joined_text chunks top_k)
    else joined_text chunks top_k.
Proof.
  intros Hne. unfold explain_from, joined_text.
  destruct chunks as [|c chunks]; [done|]. simpl bnil. cbv iota.
  rewrite <- explain_parts_fst.
  destruct (explain_parts (take top_k (c :: chunks))) as [parts sources].
  simpl. by case_bool_decide.
Qed.

(** C8, as amended.  With a non-empty retrieval and a joined text (the
    chunks' texts in rank order, a blank line between them) of more than
    [max_chars ≥ 0] characters, the explanation is a prefix of the joined
    text of at most [max_chars] characters, and the ellipsis.  When the
    first [max_chars] characters hold a space, the prefix ends before the
    last space among them, so the cut falls on a space; when they hold no
    space, the prefix is those [max_chars] characters, whatever word they
    cut. *)
Theorem explain_truncation (core : option (list N → nat → M Emb (list Chunk)))
    (topic : list N) (top_k : nat) (max_chars : Z) (g : Globals Emb) :
  let chunks := (retrieve_text core topic top_k g).1 in
  let joined := joined_text chunks top_k in
  let pre := take (Z.to_nat max_chars) joined in
  chunks ≠ [] → (0 ≤ max_chars < Z.of_nat (length joined))%Z →
  ∃ kept,
    e_explanation (explain core topic top_k max_chars g).1 = kept ++ py "..."
    ∧ (Z.of_nat (length kept) ≤ max_chars)%Z
    ∧ (32 ∈ pre → ∃ tl, pre = kept ++ 32 :: tl ∧ 32 ∉ tl)
    ∧ (32 ∉ pre → kept = pre).
Proof.
  intros chunks joined pre Hne [Hmax Hlen].
  rewrite explain_fst, explain_from_explanation by done.
  fold chunks. fold joined.
  rewrite bool_decide_eq_true_2 by done.
  unfold truncate, slice_to. rewrite bool_decide_eq_true_2 by done.
  fold pre. exists (rsplit1_head 32 pre).
  split; [done|]. split.
  { pose proof (length_rsplit1_head 32 pre) as Hle.
    assert (length pre ≤ Z.to_nat max_chars)%nat
      by (unfold pre; rewrite length_take; lia).
    lia. }
  unfold rsplit1_head.
  destruct (rindex 32 pre) as [i|] eqn:Hi.
  - apply rindex_Some in Hi as (tl & Hpre & Htl). split.
    + intros _. exists tl. done.
    + intros Hnot. exfalso. apply Hnot. rewrite Hpre.
      apply elem_of_app. right. by left.
  - apply rindex_None in Hi. split; [done|]. done.
Qed.

(** X10.  With a non-empty retrieval and a joined text of at most
    [max_chars] characters, the explanation is the joined text, whole and
    without ellipsis. *)
Lemma explain_whole (core : option (list N → nat → M Emb (list Chunk)))
    (topic : list N) (top_k : nat) (max_chars : Z) (g : Globals Emb) :
  let chunks := (retrieve_text core topic top_k g).1 in
  let joined := joined_text chunks top_k in
  chunks ≠ [] → (Z.of_nat (length joined) ≤ max_chars)%Z →
  e_explanation (explain core topic top_k max_chars g).1 = joined.
Proof.
  intros chunks joined Hne Hlen.
  rewrite explain_fst, explain_from_explanation by done.
  fold chunks. fold joined. rewrite bool_decide_eq_false_2; [done | lia].
Qed.
End ExplainerTheorems.

(** C8 as stated fails: with [max_chars = 3] the explanation of
    "Matrices are rectangular arrays of numbers." is "Mat...", which
    cuts the word "Matrices". *)
Lemma truncation_splits_a_word :
  ¬ truncation_splits_no_word (U := ascii_db)
      (Some (retrieve (U := ascii_db) matrices_world)) (py "matrices") 1 3 cold.
Proof.
  intros Hclaim.
  destruct Hclaim as (kept & rest & Hex & Hjoin & _ & Hmid).
  { vm_compute. discriminate. }
  { vm_compute. reflexivity. }
  assert (Hk : kept = py "Mat").
  { apply (app_inv_tail (py "...")). rewrite <- Hex. vm_compute. reflexivity. }
  subst kept.
  assert (Hr : rest = py "rices are rectangular arrays of numbers.").
  { apply (app_inv_head (py "Mat")). rewrite <- Hjoin. vm_compute. reflexivity. }
  subst rest.
  apply Hmid. exists 116, 114. vm_compute. done.
Qed.

Lemma explain_truncation_witness :
  let core := Some (retrieve (U := ascii_db) matrices_world) in
  let chunks := (retrieve_text (U := ascii_db) core (py "matrices") 1 cold).1 in
  let joined := joined_text (U := ascii_db) chunks 1 in
  let pre := take (Z.to_nat 12) joined in
  chunks ≠ []
  ∧ (0 ≤ 12 < Z.of_nat (length joined))%Z
  ∧ ∃ kept,
      e_explanation (explain (U := ascii_db) core (py "matrices") 1 12 cold).1
      = kept ++ py "..."
      ∧ (Z.of_nat (length kept) ≤ 12)%Z
      ∧ (32 ∈ pre → ∃ tl, pre = kept ++ 32 :: tl ∧ 32 ∉ tl)
      ∧ (32 ∉ pre → kept = pre).
Proof.
  intros core chunks joined pre.
  assert (Hne : chunks ≠ []) by (vm_compute; discriminate).
  assert (Hlen : (0 ≤ 12 < Z.of_nat (length joined))%Z)
    by (vm_compute; split; [discriminate | reflexivity]).
  split; [exact Hne|]. split; [exact Hlen|].
  exact (explain_truncation (U := ascii_db) unit core (py "matrices") 1 12
           cold Hne Hlen).
Defined.

(** ** The quiz synthesizer *)

Section QLogic.

Lemma q_ok_ret {A} (x : A) (P : A → Prop) : P x → q_ok (mret x) P.
Proof. intros HP tape. exists x, tape. done. Qed.

Lemma q_ok_bind {A B} (c : Q A) (k : A → Q B) (P : A → Prop) (R : B → Prop) :
  q_ok c P → (∀ x, P x → q_ok (k x) R) → q_ok (x ← c; k x) R.
Proof.
  intros Hc Hk tape. destruct (Hc tape) as (x & t1 & Hx & HP).
  destruct (Hk x HP t1) as (y & t2 & Hy & HR).
  exists y, t2. unfold mbind, Q_bind, q_bind. by rewrite Hx.
Qed.

Lemma q_ok_mono {A} (c : Q A) (P R : A → Prop) :
  q_ok c P → (∀ x, P x → R x) → q_ok c R.
Proof.
  intros Hc HPR tape. destruct (Hc tape) as (x & t1 & Hx & HP). eauto.
Qed.

Lemma randbelow_ok (n : nat) : q_ok (randbelow n) (λ _, True).
Proof.
  intros [|x tape]; simpl; eauto.
Qed.

Lemma randint_ok (a b : nat) : q_ok (randint a b) (λ _, True).
Proof.
  unfold randint. eapply q_ok_bind; [apply randbelow_ok|].
  intros j _. by apply q_ok_ret.
Qed.

Lemma swap_Permutation {A} (x : list A) (i j : nat) : swap x i j ≡ₚ x.
Proof.
  unfold swap.
  destruct (x !! i) as [a|] eqn:Hi; [|done].
  destruct (x !! j) as [b|] eqn:Hj; [|done].
  by apply Permutation_insert_swap.
Qed.

(** [random.shuffle] returns a permutation of its argument. *)
Lemma shuffle_from_ok {A} (i : nat) (x : list A) :
  q_ok (shuffle_from i x) (λ y, y ≡ₚ x).
Proof.
  revert x. induction i as [|i IH]; intros x; simpl.
  - by apply q_ok_ret.
  - eapply q_ok_bind; [apply randbelow_ok|].
    intros j _. eapply q_ok_mono; [apply IH|].
    intros y Hy. simpl in Hy. rewrite Hy. apply swap_Permutation.
Qed.

Lemma shuffle_ok {A} (x : list A) : q_ok (shuffle x) (λ y, y ≡ₚ x).
Proof. apply shuffle_from_ok. Qed.

Lemma list_index_Some (x : list N) (l : list (list N)) (i : nat) :
  list_index x l = Some i → l !! i = Some x.
Proof.
  revert i. induction l as [|y l IH]; intros i; simpl; [done|].
  unfold str_eqb. case_bool_decide as Hxy.
  - intros [= <-]. by subst.
  - destruct (list_index x l) as [j|]; simpl; [|done].
    intros [= <-]. simpl. auto.
Qed.

Lemma list_index_elem (x : list N) (l : list (list N)) :
  x ∈ l → is_Some (list_index x l).
Proof.
  induction 1 as [x l | x y l _ IH]; simpl; unfold str_eqb.
  - rewrite bool_decide_eq_true_2 by done. eauto.
  - case_bool_decide; [eauto|]. destruct IH as [j ->]. simpl. eauto.
Qed.
End QLogic.

Section QuizFacts.
Context {U : Unicode}.

Lemma List_filter_all {A} (p : A → bool) (l : list A) :
  (∀ x, x ∈ l → p x = true) → List.filter p l = l.
Proof.
  induction l as [|x l IH]; intros Hp; simpl; [done|].
  rewrite Hp by left. rewrite IH; [done|].
  intros y Hy. apply Hp. by right.
Qed.

Lemma List_filter_sublist {A} (p : A → bool) (l : list A) :
  List.filter p l `sublist_of` l.
Proof.
  induction l as [|x l IH]; simpl; [done|].
  destruct (p x); [by apply sublist_skip | by apply sublist_cons].
Qed.

(** Removing the elements with one given image removes at most one
    element of a list whose images are distinct. *)
Lemma length_filter_image {A} (f : A → list N) (v : list N) (l : list A) :
  NoDup (f <$> l) →
  (length l ≤ S (length (List.filter (λ d, negb (str_eqb (f d) v)) l)))%nat.
Proof.
  induction l as [|d l IH]; simpl; [lia|].
  intros Hnd. apply NoDup_cons in Hnd as [Hd Hnd].
  unfold str_eqb at 1. case_bool_decide as Hv; simpl.
  - rewrite List_filter_all; [lia|].
    intros x Hx. unfold str_eqb. rewrite bool_decide_eq_false_2; [done|].
    intros Hfx. apply Hd. rewrite Hv, <- Hfx. by apply list_elem_of_fmap_2.
  - specialize (IH Hnd). lia.
Qed.

Lemma pad_distractors_ok (fuel : nat) (ds : list (list N)) :
  q_ok (pad_distractors fuel ds)
       (λ r, length r = (length ds + fuel)%nat ∧ (fuel = 0%nat → r = ds)).
Proof.
  revert ds. induction fuel as [|fuel IH]; intros ds; simpl.
  - apply q_ok_ret. split; [lia | done].
  - eapply q_ok_bind; [apply randint_ok|].
    intros n _. eapply q_ok_mono; [apply IH|].
    intros r [Hlen _]. rewrite length_app in Hlen. simpl in Hlen.
    split; [lia | done].
Qed.

(** [generate_distractors_for] returns three distractors; they are
    distinct terms of the bank when the bank is distinct up to case. *)
Lemma generate_distractors_for_ok (concept correct : list N) :
  q_ok (generate_distractors_for concept correct)
       (λ ds, length ds = 3%nat
              ∧ (NoDup (str_lower <$> BASE_DISTRACTORS) →
                 NoDup ds ∧ ∀ d, d ∈ ds → d ∈ BASE_DISTRACTORS)).
Proof.
  unfold generate_distractors_for.
  set (picks := List.filter _ BASE_DISTRACTORS).
  eapply q_ok_bind; [apply shuffle_ok|].
  intros picks' Hperm. cbv beta in Hperm.
  eapply q_ok_mono; [apply pad_distractors_ok|].
  intros r [Hlen Hfuel]. cbv beta in Hlen, Hfuel. split.
  { rewrite length_take in Hlen. lia. }
  intros Hbank.
  assert (Hpicks : (13 ≤ length picks)%nat).
  { pose proof (length_filter_image str_lower (str_lower concept)
                  BASE_DISTRACTORS Hbank) as Hle.
    fold picks in Hle.
    change (length BASE_DISTRACTORS) with 14%nat in Hle. lia. }
  assert (Hsub : picks `sublist_of` BASE_DISTRACTORS)
    by apply List_filter_sublist.
  rewrite Hfuel.
  2:{ rewrite length_take, Hperm. lia. }
  split.
  - eapply sublist_NoDup; [|apply sublist_take].
    rewrite Hperm. eapply sublist_NoDup; [|exact Hsub].
    by apply NoDup_fmap_1 in Hbank.
  - intros d Hd. eapply elem_of_sublist; [|exact Hsub].
    rewrite <- Hperm. eapply elem_of_sublist; [exact Hd | apply sublist_take].
Qed.

Lemma answer_index_letter (m : MCQ) (i : nat) :
  (i < 4)%nat → q_answer m = [N.of_nat i + 65] → answer_index m = Some i.
Proof.
  intros Hi Ha. unfold answer_index, in_range. rewrite Ha.
  destruct (N.leb_spec 65 (N.of_nat i + 65)); [|lia].
  destruct (N.leb_spec (N.of_nat i + 65) 68); [|lia].
  simpl. f_equal. lia.
Qed.

(** [make_mcq] never raises: the correct text is among the shuffled
    options, so that [index] finds it. *)
Lemma make_mcq_ok (chapter question concept correct : list N) :
  q_ok (make_mcq chapter question concept correct)
       (λ m, q_chapter m = chapter ∧ q_question m = question
             ∧ q_explanation m = correct ∧ mcq_built m).
Proof.
  unfold make_mcq.
  eapply q_ok_bind; [apply generate_distractors_for_ok|].
  intros ds [Hlen Hds]. cbv beta in Hlen, Hds.
  eapply q_ok_bind; [apply shuffle_ok|].
  intros options Hperm. cbv beta in Hperm.
  assert (Hin : correct ∈ options).
  { rewrite Hperm. apply elem_of_app. right. by left. }
  destruct (list_index_elem _ _ Hin) as [i Hi]. rewrite Hi.
  apply q_ok_ret. simpl.
  apply list_index_Some in Hi.
  assert (Hlen4 : length options = 4%nat).
  { rewrite Hperm, length_app. simpl. lia. }
  repeat split; try done.
  - exists i. split; [|done].
    apply answer_index_letter; [|done].
    apply lookup_lt_Some in Hi. simpl. lia.
  - simpl. intros Hbank Hcorrect.
    destruct (Hds Hbank) as [Hnd Hsub].
    rewrite Hperm. apply NoDup_app. split; [done|]. split.
    + intros d Hd Hd'. apply list_elem_of_singleton in Hd'. subst d. auto.
    + apply NoDup_singleton.
Qed.

Lemma sentence_to_mcq_ok (sentence chapter : list N) :
  q_ok (sentence_to_mcq sentence chapter)
       (λ r, (yields sentence = false → r = None)
             ∧ ∀ m, r = Some m → mcq_built m).
Proof.
  unfold sentence_to_mcq, yields.
  destruct (first_pattern DEF_PATTERNS sentence) as [[concept definition]|].
  { eapply q_ok_bind; [apply make_mcq_ok|].
    intros m (_ & _ & _ & Hm). apply q_ok_ret.
    split; [|by intros ? [= <-]].
    rewrite bool_decide_eq_true_2 by eauto. done. }
  destruct (try_simple sentence) as [[concept definition]|].
  { eapply q_ok_bind; [apply make_mcq_ok|].
    intros m (_ & _ & _ & Hm). apply q_ok_ret.
    split; [|by intros ? [= <-]].
    rewrite (bool_decide_eq_true_2 (is_Some (Some _))) by eauto.
    rewrite orb_true_r. done. }
  apply q_ok_ret. done.
Qed.

(** The correct text of a fallback question is no term of the bank. *)
Lemma brief_description_not_in_bank (concept : list N) :
  py "A brief description of " ++ concept ++ py "." ∉ BASE_DISTRACTORS.
Proof.
  unfold BASE_DISTRACTORS.
  repeat (apply not_elem_of_cons; split; [discriminate|]).
  apply not_elem_of_nil.
Qed.

Lemma fallback_mcq_ok (topic chapter : list N) :
  q_ok (fallback_mcq topic chapter)
       (λ m, mcq_built m ∧ fallback_shaped chapter m).
Proof.
  unfold fallback_mcq.
  eapply q_ok_mono; [apply make_mcq_ok|].
  intros m (Hch & Hq & He & Hm). split; [done|].
  eexists. eauto.
Qed.
End QuizFacts.

Section QuizLoops.
Context {U : Unicode}.

Lemma scan_sentences_ok (n : Z) (chapter : list N) (sents : list (list N))
    (mcqs : list MCQ) :
  Forall mcq_built mcqs →
  q_ok (scan_sentences n chapter sents mcqs)
       (λ r, Forall mcq_built (flow_list r)
             ∧ ((Z.of_nat (length mcqs) < n)%Z →
                match r with
                | Return l => Z.of_nat (length l) = n
                | Next l => (Z.of_nat (length l) < n)%Z
                end
                ∧ ((∀ s, s ∈ sents → yields s = false) → r = Next mcqs))).
Proof.
  revert mcqs. induction sents as [|s sents IH]; intros mcqs Hall; simpl.
  { apply q_ok_ret. simpl. auto. }
  eapply q_ok_bind; [apply sentence_to_mcq_ok|].
  intros mcq [Hnone Hsome]. cbv beta in Hnone, Hsome.
  set (mcqs' := match mcq with Some q => mcqs ++ [q] | None => mcqs end).
  assert (Hall' : Forall mcq_built mcqs').
  { unfold mcqs'. destruct mcq as [q|]; [|done].
    apply Forall_app. split; [done|]. apply Forall_singleton. auto. }
  assert (Hlen' : (length mcqs' ≤ S (length mcqs))%nat).
  { unfold mcqs'. destruct mcq; [rewrite length_app; simpl|]; lia. }
  assert (Hsame : yields s = false → mcqs' = mcqs).
  { intros Hy. unfold mcqs'. by rewrite (Hnone Hy). }
  case_bool_decide as Hfull.
  - apply q_ok_ret. simpl. split; [done|]. intros Hlt. split; [lia|].
    intros Hno. rewrite Hsame in Hfull by (apply Hno; left). lia.
  - eapply q_ok_mono; [apply IH, Hall'|].
    intros r [Hr Hpost]. split; [done|]. intros Hlt.
    destruct Hpost as [Hlen Hnext]; [lia|]. split; [done|].
    intros Hno. rewrite <- Hsame by (apply Hno; left).
    apply Hnext. intros s' Hs'. apply Hno. by right.
Qed.

Lemma scan_chunks_ok (n : Z) (chunks : list Chunk) (mcqs : list MCQ) :
  Forall mcq_built mcqs →
  q_ok (scan_chunks n chunks mcqs)
       (λ r, Forall mcq_built (flow_list r)
             ∧ ((Z.of_nat (length mcqs) < n)%Z →
                match r with
                | Return l => Z.of_nat (length l) = n
                | Next l => (Z.of_nat (length l) < n)%Z
                end
                ∧ ((∀ ch s, ch ∈ chunks → s ∈ sentences_of ch → yields s = false) →
                   r = Next mcqs))).
Proof.
  revert mcqs. induction chunks as [|ch chunks IH]; intros mcqs Hall; simpl.
  { apply q_ok_ret. simpl. auto. }
  eapply q_ok_bind; [by apply scan_sentences_ok|].
  intros r [Hr Hpost]. cbv beta in Hr, Hpost.
  destruct r as [l|l]; simpl in Hr.
  - apply q_ok_ret. simpl. split; [done|]. intros Hlt.
    destruct (Hpost Hlt) as [Hlen Hnext]. split; [done|].
    intros Hno. discriminate Hnext.
    intros s Hs. apply (Hno ch); [by left | done].
  - eapply q_ok_mono; [apply IH, Hr|].
    intros r' [Hr' Hpost']. split; [done|]. intros Hlt.
    destruct (Hpost Hlt) as [Hlen Hnext].
    destruct (Hpost' Hlen) as [Hlen' Hnext']. split; [done|].
    intros Hno.
    assert (Hl : l = mcqs).
    { assert (Heq : Next l = Next mcqs); [|by injection Heq].
      apply Hnext. intros s Hs. apply (Hno ch); [by left | done]. }
    subst l. apply Hnext'. intros ch' s Hch' Hs. apply (Hno ch'); [by right | done].
Qed.

Lemma fallbacks_ok (k : nat) (topic chapter : list N) (mcqs : list MCQ) :
  Forall (λ m, mcq_built m ∧ fallback_shaped chapter m) mcqs →
  q_ok (fallbacks k topic chapter mcqs)
       (λ r, length r = (length mcqs + k)%nat
             ∧ Forall (λ m, mcq_built m ∧ fallback_shaped chapter m) r).
Proof.
  revert mcqs. induction k as [|k IH]; intros mcqs Hall; simpl.
  { apply q_ok_ret. split; [lia | done]. }
  eapply q_ok_bind; [apply fallback_mcq_ok|].
  intros q Hq. cbv beta in Hq.
  eapply q_ok_mono.
  { apply IH. apply Forall_app. split; [done|]. by apply Forall_singleton. }
  intros r [Hlen Hr]. rewrite length_app in Hlen. simpl in Hlen.
  split; [lia | done].
Qed.

Lemma elem_of_slice_to {A} (n : Z) (l : list A) (x : A) :
  x ∈ slice_to n l → x ∈ l.
Proof.
  unfold slice_to. case_bool_decide; intros Hx;
    (eapply elem_of_sublist; [exact Hx | apply sublist_take]).
Qed.

Lemma slice_to_all {A} (n : Z) (l : list A) :
  (Z.of_nat (length l) ≤ n)%Z → slice_to n l = l.
Proof.
  intros Hn. unfold slice_to. rewrite bool_decide_eq_true_2 by lia.
  apply take_ge. lia.
Qed.

(** The body of [generate_quiz_for_topic] never raises.  Whatever
    [n_questions], a question of the result is the sentinel or was built
    from a sentence or by [fallback_mcq]; for [n_questions ≥ 1] the result
    has between one and [n_questions] questions. *)
Lemma quiz_from_chunks_ok (topic : list N) (n : Z) (chunks : list Chunk) :
  q_ok (quiz_from_chunks topic n chunks)
       (λ res,
          (∀ m, m ∈ res → m = sentinel_mcq topic ∨ mcq_built m)
          ∧ ((1 ≤ n)%Z →
             (Z.of_nat (length res) ≤ n)%Z ∧ res ≠ []
             ∧ (chunks = [] → res = [sentinel_mcq topic])
             ∧ ((∀ ch s, ch ∈ chunks → s ∈ sentences_of ch → yields s = false) →
                ∀ ch0, head chunks = Some ch0 →
                  Z.of_nat (length res) = n
                  ∧ ∀ m, m ∈ res → fallback_shaped (ch_chapter ch0) m))).
Proof.
  unfold quiz_from_chunks.
  eapply q_ok_bind; [apply scan_chunks_ok; constructor|].
  intros r [Hr Hpost]. cbv beta in Hr, Hpost. simpl length in Hpost.
  destruct r as [l|l]; simpl in Hr.
  { apply q_ok_ret. split.
    { intros m Hm. right. by eapply Forall_forall in Hr. }
    intros Hn. destruct Hpost as [Hlen Hnext]; [lia|].
    split; [lia|]. split; [intros ->; simpl in Hlen; lia|]. split.
    - intros ->. discriminate Hnext. intros ch s Hch. by apply elem_of_nil in Hch.
    - intros Hno. discriminate (Hnext Hno). }
  destruct l as [|m0 l].
  - destruct chunks as [|ch0 chunks].
    + apply q_ok_ret. split.
      { intros m Hm. apply list_elem_of_singleton in Hm. by left. }
      intros Hn. simpl. split; [lia|]. split; [done|]. split; [done|].
      intros _ ch0 Hch0. done.
    + eapply q_ok_mono; [apply fallbacks_ok; constructor|].
      intros res [Hlen Hres]. simpl in Hlen. split.
      { intros m Hm. right. eapply Forall_forall in Hres as [Hm' _]; eauto. }
      intros Hn. split; [lia|]. split; [intros ->; simpl in Hlen; lia|].
      split; [done|].
      intros _ ch0' [= <-]. split; [lia|].
      intros m Hm. eapply Forall_forall in Hres as [_ Hm']; eauto.
  - apply q_ok_ret. split.
    { intros m Hm. right. apply elem_of_slice_to in Hm.
      by eapply Forall_forall in Hr. }
    intros Hn. destruct Hpost as [Hlen Hnext]; [lia|].
    rewrite slice_to_all by lia.
    split; [lia|]. split; [done|]. split.
    + intros ->. discriminate Hnext. intros ch s Hch. by apply elem_of_nil in Hch.
    + intros Hno. discriminate (Hnext Hno).
Qed.

Lemma sentinel_mcq_shape (topic : list N) :
  length (q_options (sentinel_mcq topic)) = 4%nat
  ∧ answer_index (sentinel_mcq topic) = Some 0%nat.
Proof. done. Qed.

(** C1, as amended.  Every MCQ returned by [generate_quiz_for_topic] has
    exactly 4 options and an answer that is one letter from A to D.  It is
    either the sentinel placeholder (four "-" options, answer "A"), or a
    question built from a sentence or by the generic fallback: then the
    option at the answer letter's index is the stored explanation, and the
    4 options are pairwise distinct provided the explanation is not itself
    a term of the distractor bank (a fallback explanation never is). *)
Theorem quiz_mcqs_wellformed {Emb} (w : World Emb) (topic : list N) (n : Z)
    (difficulty : option (list N)) (g g' : Globals Emb) (tape tape' : list nat)
    (res : list MCQ) :
  generate_quiz_for_topic w topic n difficulty g tape = (inr res, g', tape') →
  ∀ m, m ∈ res →
    length (q_options m) = 4%nat
    ∧ (∃ i, (i < 4)%nat ∧ answer_index m = Some i)
    ∧ (m = sentinel_mcq topic
       ∨ ((∃ i, answer_index m = Some i
                ∧ q_options m !! i = Some (q_explanation m))
          ∧ (NoDup (str_lower <$> BASE_DISTRACTORS) →
             q_explanation m ∉ BASE_DISTRACTORS → NoDup (q_options m))
          ∧ ∀ concept,
              q_explanation m = py "A brief description of " ++ concept ++ py "." →
              q_explanation m ∉ BASE_DISTRACTORS)).
Proof.
  unfold generate_quiz_for_topic.
  destruct (retrieve w topic 20 g) as [[e|chunks] g1]; [done|].
  destruct (quiz_from_chunks_ok topic n chunks tape) as (res1 & t1 & Hq & Hall & _).
  rewrite Hq. intros [= <- <- <-] m Hm.
  destruct (Hall m Hm) as [-> | (Hlen & (i & Hi & Hopt) & Hnd)].
  - split; [done|]. split; [exists 0%nat; split; [lia | done]|]. by left.
  - split; [done|]. split.
    { exists i. split; [|done]. apply lookup_lt_Some in Hopt. lia. }
    right. split; [eauto|]. split; [done|].
    intros concept ->. apply brief_description_not_in_bank.
Qed.

(** C2, as amended.  For [n_questions ≥ 1], once the retrieval has
    returned, [generate_quiz_for_topic] returns, whatever the random draws,
    a sequence of at least one and at most [n_questions] questions: when
    the retrieval returned no chunk, the sentinel alone; when it returned
    chunks of which no sentence yields a question, [n_questions] generic
    fallback questions. *)
Theorem quiz_length {Emb} (w : World Emb) (topic : list N) (n : Z)
    (difficulty : option (list N)) (g g' : Globals Emb) (chunks : list Chunk)
    (tape : list nat) :
  (1 ≤ n)%Z →
  retrieve w topic 20 g = (inr chunks, g') →
  ∃ res tape',
    generate_quiz_for_topic w topic n difficulty g tape = (inr res, g', tape')
    ∧ (Z.of_nat (length res) ≤ n)%Z
    ∧ res ≠ []
    ∧ (chunks = [] → res = [sentinel_mcq topic])
    ∧ ((∀ ch s, ch ∈ chunks → s ∈ sentences_of ch → yields s = false) →
       ∀ ch0, head chunks = Some ch0 →
         Z.of_nat (length res) = n
         ∧ ∀ m, m ∈ res → fallback_shaped (ch_chapter ch0) m).
Proof.
  intros Hn Hret. unfold generate_quiz_for_topic. rewrite Hret.
  destruct (quiz_from_chunks_ok topic n chunks tape) as (res & t1 & Hq & _ & Hpost).
  rewrite Hq. exists res, t1. split; [done|]. by apply Hpost.
Qed.
End QuizLoops.

(** C1 as stated fails on the sentinel: with an empty retrieval the only
    question has the four options "-", which are not distinct, and none
    of them is the stored explanation. *)
Lemma sentinel_is_not_valid :
  ¬ quiz_valid (U := ascii_db) empty_world (py "matrices") 3 cold [].
Proof.
  intros Hclaim.
  assert (Hrun : generate_quiz_for_topic (U := ascii_db) empty_world
                   (py "matrices") 3 None cold []
                 = (inr [sentinel_mcq (py "matrices")],
                    mkGlobals (w_model empty_world) (Some []) (w_index empty_world),
                    [])).
  { vm_compute. reflexivity. }
  destruct (Hclaim _ _ _ Hrun (sentinel_mcq (py "matrices"))) as (_ & Hnd & _);
    [by left|].
  simpl in Hnd. apply NoDup_cons in Hnd as [Hin _]. apply Hin. by left.
Qed.

Lemma quiz_mcqs_wellformed_witness :
  let m := mkMCQ (py "unknown") (py "What is A matrix?")
             [py "Integral"; py "Matrix"; py "a rectangular array of numbers.";
              py "Derivative"]
             (py "C") (py "a rectangular array of numbers.") in
  let g' := mkGlobals (w_model small_world) (Some small_kb) (w_index small_world) in
  generate_quiz_for_topic (U := ascii_db) small_world (py "matrix") 1 None cold []
  = (inr [m], g', [])
  ∧ m ∈ [m]
  ∧ length (q_options m) = 4%nat
  ∧ (∃ i, (i < 4)%nat ∧ answer_index m = Some i)
  ∧ (m = sentinel_mcq (py "matrix")
     ∨ ((∃ i, answer_index m = Some i
              ∧ q_options m !! i = Some (q_explanation m))
        ∧ (NoDup (str_lower (Unicode := ascii_db) <$> BASE_DISTRACTORS) →
           q_explanation m ∉ BASE_DISTRACTORS → NoDup (q_options m))
        ∧ ∀ concept,
            q_explanation m
            = py "A brief description of " ++ concept ++ py "." →
            q_explanation m ∉ BASE_DISTRACTORS)).
Proof.
  intros m g'.
  assert (Hrun : generate_quiz_for_topic (U := ascii_db) small_world
                   (py "matrix") 1 None cold [] = (inr [m], g', []))
    by (vm_compute; reflexivity).
  assert (Hm : m ∈ [m]) by (by left).
  split; [exact Hrun|]. split; [exact Hm|].
  exact (quiz_mcqs_wellformed (U := ascii_db) small_world (py "matrix") 1 None
           cold g' [] [] [m] Hrun m Hm).
Defined.

(** The pattern "X is a/an Y" never gives a question: its second group
    is the article, too short for a definition; such a sentence is left
    to [DEF_RE_SIMPLE]. *)
Example article_pattern_yields_nothing :
  let s := py "A matrix is a rectangular array of numbers." in
  (∃ pat c g, DEF_PATTERNS (U := ascii_db) !! 1%nat = Some pat
              ∧ re_search (U := ascii_db) pat s = Some (c, g)
              ∧ group 2 g = py "a")
  ∧ first_pattern (U := ascii_db) (DEF_PATTERNS (U := ascii_db)) s = None
  ∧ try_simple (U := ascii_db) s
    = Some (py "A matrix", py "a rectangular array of numbers.").
Proof.
  intros s. split; [|vm_compute; done].
  eexists _, _, _. split; [reflexivity|].
  split; [vm_compute; reflexivity|]. vm_compute. done.
Qed.

(** The options of a question built from a sentence can repeat: the
    definition "Differentiability" is a term of the bank, and the draws
    below put that term among the three distractors. *)
Example duplicate_options_possible :
  ∃ m g' tape',
    generate_quiz_for_topic (U := ascii_db) smooth_world (py "smoothness") 1 None
      cold [13; 12; 0; 10; 9; 8; 7; 6; 5; 4; 3; 2; 1; 3; 2; 1]%nat
    = (inr [m], g', tape')
    ∧ q_options m = [py "Differentiability"; py "Derivative"; py "Integral";
                     py "Differentiability"]
    ∧ q_answer m = py "A"
    ∧ q_explanation m = py "Differentiability".
Proof.
  eexists _, _, _. split; [vm_compute; reflexivity|].
  vm_compute. done.
Qed.

(** C2 as stated fails for [n_questions = 0]: with an empty retrieval the
    result is the sentinel alone, one question where at most none is
    allowed. *)
Lemma zero_questions_unbounded :
  ¬ quiz_length_bounded (U := ascii_db) empty_world (py "matrices") 0 cold [].
Proof.
  intros Hclaim.
  assert (Hrun : generate_quiz_for_topic (U := ascii_db) empty_world
                   (py "matrices") 0 None cold []
                 = (inr [sentinel_mcq (py "matrices")],
                    mkGlobals (w_model empty_world) (Some []) (w_index empty_world),
                    [])).
  { vm_compute. reflexivity. }
  destruct (Hclaim _ _ _ Hrun) as [Hlen _]. simpl in Hlen. lia.
Qed.

Lemma quiz_length_witness :
  let c := mkChunk (py "3.pdf") (py "Matrices are rectangular arrays of numbers.")
                   (py "text") in
  let g' := mkGlobals (w_model matrices_world) (Some matrices_kb)
                      (w_index matrices_world) in
  (1 ≤ 2)%Z
  ∧ retrieve (U := ascii_db) matrices_world (py "matrices") 20 cold = (inr [c], g')
  ∧ ∃ res tape',
      generate_quiz_for_topic (U := ascii_db) matrices_world (py "matrices") 2
        None cold [] = (inr res, g', tape')
      ∧ (Z.of_nat (length res) ≤ 2)%Z
      ∧ res ≠ []
      ∧ ([c] = [] → res = [sentinel_mcq (py "matrices")])
      ∧ ((∀ ch s, ch ∈ [c] → s ∈ sentences_of (U := ascii_db) ch →
            yields (U := ascii_db) s = false) →
         ∀ ch0, head [c] = Some ch0 →
           Z.of_nat (length res) = 2%Z
           ∧ ∀ m, m ∈ res → fallback_shaped (ch_chapter ch0) m).
Proof.
  intros c g'.
  assert (Hn : (1 ≤ 2)%Z) by lia.
  assert (Hret : retrieve (U := ascii_db) matrices_world (py "matrices") 20 cold
                 = (inr [c], g')) by (vm_compute; reflexivity).
  split; [exact Hn|]. split; [exact Hret|].
  exact (quiz_length (U := ascii_db) matrices_world (py "matrices") 2 None
           cold g' [c] [] Hn Hret).
Defined.

(** ** The regular expression of a word *)

Section WordRegex.
Context {U : Unicode}.

Lemma last_or_cons (p : option N) (a : N) (w : list N) :
  last_or p (a :: w) = last_or (Some a) w.
Proof. unfold last_or. rewrite last_cons. by destruct (last w). Qed.

Lemma last_or_app (p : option N) (a w : list N) :
  last_or p (a ++ w) = last_or (last_or p a) w.
Proof.
  revert p. induction a as [|x a IH]; intros p; simpl; [by destruct (last w)|].
  change (x :: a ++ w) with (x :: (a ++ w)).
  rewrite !last_or_cons. apply IH.
Qed.

(** A literal matches where the text starts with it. *)
Lemma mt_lit {A} (w : list N) (k : cursor → list (nat * list N) → option A)
    (prev : option N) (rest : list N) (pos : nat) (g : list (nat * list N)) :
  mt (lit w) k (Cur prev rest pos) g
  = if startswith w rest
    then k (Cur (last_or prev w) (drop (length w) rest) (pos + length w)) g
    else None.
Proof.
  revert prev rest pos. induction w as [|a w IH]; intros prev rest pos; simpl.
  { by rewrite Nat.add_0_r. }
  destruct rest as [|x rest]; [done|]. simpl.
  destruct (N.eqb_spec a x) as [->|]; simpl; [|done].
  rewrite IH, last_or_cons. by rewrite Nat.add_succ_r.
Qed.

(** [\bw\b] at a position. *)
Lemma match_at_word (w : list N) (prev : option N) (rest : list N) (pos : nat) :
  is_Some (match_at (AgentsPlanner.word_re w) (Cur prev rest pos))
  ↔ ∃ b, rest = w ++ b
         ∧ is_word_at prev ≠ is_word_at (head rest)
         ∧ is_word_at (last_or prev w) ≠ is_word_at (head b).
Proof.
  unfold match_at, AgentsPlanner.word_re. simpl.
  destruct (is_word_at prev) eqn:Hp, (is_word_at (head rest)) eqn:Hr; simpl;
    try (split; [by intros [? ?] | by intros (? & ? & ? & ?)]).
  all: rewrite mt_lit.
  all: destruct (startswith w rest) eqn:Hw;
    [apply startswith_spec in Hw as [b ->]
    |split; [by intros [? ?]|]; intros (b & -> & _);
     assert (startswith w (w ++ b) = true) by (apply startswith_spec; eauto);
     congruence].
  all: simpl; rewrite drop_app_length.
  all: destruct (is_word_at (last_or prev w)) eqn:Hl, (is_word_at (head b)) eqn:Hb;
    simpl.
  all: split;
    [ try (by intros [? ?]); intros _; exists b; rewrite ?Hl, ?Hb; done
    | intros (b' & Hb' & _ & Hne); apply app_inv_head in Hb'; subst b';
      rewrite ?Hl, ?Hb in Hne; try done; eauto ].
Qed.

Lemma search_from_word (w : list N) (prev : option N) (pos : nat) (s : list N) :
  is_Some (search_from (AgentsPlanner.word_re w) prev pos s)
  ↔ ∃ a b, s = a ++ w ++ b
           ∧ is_word_at (last_or prev a) ≠ is_word_at (head (w ++ b))
           ∧ is_word_at (last_or (last_or prev a) w) ≠ is_word_at (head b).
Proof.
  revert prev pos. induction s as [|x s IH]; intros prev pos; simpl.
  - destruct (match_at _ _) as [m|] eqn:Hm.
    + split; [intros _|eauto].
      assert (Hs : is_Some (match_at (AgentsPlanner.word_re w) (Cur prev [] pos)))
        by (rewrite Hm; eauto).
      apply match_at_word in Hs as (b & Hb & H1 & H2).
      exists [], b. rewrite <- Hb. done.
    + split; [by intros [? ?]|]. intros (a & b & Hab & H1 & H2).
      destruct a; [|done]. simpl in *.
      assert (Hs : is_Some (match_at (AgentsPlanner.word_re w) (Cur prev [] pos))).
      { apply match_at_word. exists b. rewrite Hab at 2. done. }
      rewrite Hm in Hs. by destruct Hs.
  - destruct (match_at _ _) as [m|] eqn:Hm.
    + split; [intros _|eauto].
      assert (Hs : is_Some (match_at (AgentsPlanner.word_re w) (Cur prev (x :: s) pos)))
        by (rewrite Hm; eauto).
      apply match_at_word in Hs as (b & Hb & H1 & H2).
      exists [], b. rewrite <- Hb. done.
    + rewrite IH. split.
      * intros (a & b & -> & H1 & H2). exists (x :: a), b.
        rewrite !last_or_cons. done.
      * intros (a & b & Hab & H1 & H2). destruct a as [|y a].
        { exfalso. simpl in *.
          assert (Hs : is_Some (match_at (AgentsPlanner.word_re w)
                                  (Cur prev (x :: s) pos))).
          { apply match_at_word. exists b. rewrite Hab at 2. done. }
          rewrite Hm in Hs. by destruct Hs. }
        simpl in Hab. injection Hab as -> ->. exists a, b.
        rewrite !last_or_cons in H1, H2. done.
Qed.

(** [re.search(r"\bw\b", s)] finds a match exactly when [w] stands in [s]
    as a word of its own. *)
Lemma re_found_word (w s : list N) :
  re_found (AgentsPlanner.word_re w) s = true ↔ standalone w s.
Proof.
  unfold re_found, re_search, standalone.
  rewrite bool_decide_eq_true, search_from_word.
  assert (Hlast : ∀ a, last_or None a = last a)
    by (intros a; unfold last_or; by destruct (last a)).
  split; intros (a & b & Hs & H1 & H2); exists a, b;
    rewrite ?Hlast in *; done.
Qed.

(** A word of its own is, in particular, a substring. *)
Lemma standalone_contains (w s : list N) :
  standalone w s → contains w s = true.
Proof. intros (a & b & -> & _). apply contains_spec. eauto. Qed.
End WordRegex.

(** ** The planner of Backend/agents/planner.py *)

Section AgentsPlannerTheorems.
Context {U : Unicode}.

Lemma re_found_alt (a b : re) (s : list N) :
  re_found (Alt a b) s = re_found a s || re_found b s.
Proof.
  unfold re_found, re_search.
  assert (Hs : ∀ prev pos,
    is_Some (search_from (Alt a b) prev pos s)
    ↔ is_Some (search_from a prev pos s) ∨ is_Some (search_from b prev pos s)).
  { induction s as [|x s IH]; intros prev pos; simpl.
    - unfold match_at at 1. simpl. fold (match_at a (Cur prev [] pos)).
      fold (match_at b (Cur prev [] pos)).
      destruct (match_at a _), (match_at b _);
        split; eauto; intros [[? ?]|[? ?]]; done.
    - unfold match_at at 1. simpl. fold (match_at a (Cur prev (x :: s) pos)).
      fold (match_at b (Cur prev (x :: s) pos)).
      destruct (match_at a _), (match_at b _); rewrite ?IH; split; eauto; tauto. }
  apply eq_true_iff_eq. rewrite orb_true_iff, !bool_decide_eq_true. apply Hs.
Qed.

(** [planner_decide] never raises, and its plan is the one the
    specification describes. *)
Lemma agents_planner_decide_spec
    (ts : option (list N → list N → E Strength))
    (student_id query : list N) (topic : option (list N)) :
  ∃ p, AgentsPlanner.planner_decide ts student_id query topic = inr p
       ∧ AgentsPlanner.action p = spec_action query
       ∧ AgentsPlanner.difficulty p
         = let lower := str_lower (strip query) in
           if re_found AgentsPlanner.hard_re lower then hard
           else if re_found AgentsPlanner.easy_re lower then easy
           else agents_base ts student_id (AgentsPlanner.topic p).
Proof.
  unfold AgentsPlanner.planner_decide, agents_base.
  set (chosen := AgentsPlanner._normalize_topic _).
  set (lower := str_lower (strip query)).
  assert (Hact : (if existsb (λ k, contains k lower) AgentsPlanner.quiz_keywords
                  then generate_quiz
                  else if existsb (λ k, contains k lower) AgentsPlanner.explain_keywords
                       then retrieve_and_explain else retrieve_and_explain)
                 = spec_action query).
  { unfold spec_action. fold lower.
    change spec_quiz_keywords with AgentsPlanner.quiz_keywords.
    destruct (existsb _ AgentsPlanner.quiz_keywords); [done|].
    by destruct (existsb _ AgentsPlanner.explain_keywords). }
  rewrite Hact.
  destruct ts as [f|]; simpl.
  - destruct (bnil student_id); simpl.
    { eexists. split; [reflexivity|]. simpl. done. }
    destruct (f student_id chosen) as [e|s] eqn:Hf; simpl.
    all: eexists; split; [reflexivity|]; simpl; rewrite Hf; done.
  - eexists. split; [reflexivity|]. simpl. done.
Qed.

(** X17.  What C5 says, for the planner of Backend/agents/planner.py: the
    action is [generate_quiz] exactly when one of the seven keywords
    occurs in the query (stripped, in lower case), and
    [retrieve_and_explain] otherwise, explanation keywords or not. *)
Lemma agents_planner_action
    (ts : option (list N → list N → E Strength))
    (student_id query : list N) (topic : option (list N)) (p : AgentsPlanner.Plan) :
  AgentsPlanner.planner_decide ts student_id query topic = inr p →
  let lower := str_lower (strip query) in
  ((∃ k, k ∈ spec_quiz_keywords ∧ ∃ a b, lower = a ++ k ++ b) →
   AgentsPlanner.action p = generate_quiz)
  ∧ ((∀ k, k ∈ spec_quiz_keywords → ¬ ∃ a b, lower = a ++ k ++ b) →
     AgentsPlanner.action p = retrieve_and_explain).
Proof.
  intros Hp lower.
  destruct (agents_planner_decide_spec ts student_id query topic)
    as (p' & Hp' & Hact & _).
  rewrite Hp in Hp'. injection Hp' as <-. rewrite Hact.
  unfold spec_action. fold lower. split.
  - intros (k & Hk & Hc). apply contains_spec in Hc.
    assert (He : existsb (λ k, contains k lower) spec_quiz_keywords = true).
    { apply existsb_exists. exists k. split; [by apply list_elem_of_In | done]. }
    by rewrite He.
  - intros Hno.
    destruct (existsb _ spec_quiz_keywords) eqn:He; [|done].
    apply existsb_exists in He as (k & Hk & Hc).
    apply list_elem_of_In in Hk. apply contains_spec in Hc.
    by destruct (Hno k Hk).
Qed.

(** X18.  What C6 says, for the planner of Backend/agents/planner.py: the
    word "hard" or "difficult", standing on its own in the query, gives
    hard, whatever else the query and the profile hold; otherwise the word
    "easy" on its own gives easy; otherwise the difficulty is the one read
    from the profile. *)
Lemma agents_planner_difficulty
    (ts : option (list N → list N → E Strength))
    (student_id query : list N) (topic : option (list N)) (p : AgentsPlanner.Plan) :
  AgentsPlanner.planner_decide ts student_id query topic = inr p →
  let lower := str_lower (strip query) in
  let forced_hard := standalone (py "hard") lower ∨ standalone (py "difficult") lower in
  (forced_hard → AgentsPlanner.difficulty p = hard)
  ∧ (¬ forced_hard → standalone (py "easy") lower →
     AgentsPlanner.difficulty p = easy)
  ∧ (¬ forced_hard → ¬ standalone (py "easy") lower →
     AgentsPlanner.difficulty p = agents_base ts student_id (AgentsPlanner.topic p)).
Proof.
  intros Hp lower forced_hard.
  destruct (agents_planner_decide_spec ts student_id query topic)
    as (p' & Hp' & _ & Hdiff).
  rewrite Hp in Hp'. injection Hp' as <-. rewrite Hdiff. cbv zeta. fold lower.
  assert (Hhard : re_found AgentsPlanner.hard_re lower = true ↔ forced_hard).
  { unfold AgentsPlanner.hard_re, forced_hard.
    rewrite re_found_alt, orb_true_iff, !re_found_word. done. }
  assert (Heasy : re_found AgentsPlanner.easy_re lower = true
                  ↔ standalone (py "easy") lower)
    by apply re_found_word.
  destruct (re_found AgentsPlanner.hard_re lower).
  { split; [done|]. split; intros Hn; exfalso; apply Hn, Hhard; done. }
  destruct (re_found AgentsPlanner.easy_re lower).
  { split; [intros Hf; apply Hhard in Hf; done|].
    split; [done|]. intros _ Hn. exfalso. by apply Hn, Heasy. }
  split; [intros Hf; apply Hhard in Hf; done|].
  split; [intros _ He; apply Heasy in He; done | done].
Qed.

(** What C7 says, for this planner: it never raises; a failure of
    [topic_strength], an empty student id and a missing import all give
    the base difficulty medium. *)
Lemma agents_planner_never_raises
    (ts : option (list N → list N → E Strength))
    (student_id query : list N) (topic : option (list N)) :
  (∃ p, AgentsPlanner.planner_decide ts student_id query topic = inr p)
  ∧ (∀ chosen, student_id = [] → agents_base ts student_id chosen = medium)
  ∧ (∀ chosen f e, ts = Some f → f student_id chosen = inl e →
       agents_base ts student_id chosen = medium).
Proof.
  split.
  { destruct (agents_planner_decide_spec ts student_id query topic) as (p & Hp & _).
    eauto. }
  split.
  - intros chosen ->. unfold agents_base. by destruct ts.
  - intros chosen f e -> Hf. unfold agents_base. rewrite Hf.
    by destruct (bnil student_id).
Qed.

(** A topic without attempts has the strength medium. *)
Lemma topic_strength_absent (rows : list attempt) (student_id topic : list N) :
  (∀ r, r ∈ rows → a_student r = student_id → a_topic r ≠ topic) →
  topic_strength (Some rows) student_id topic = inr Medium.
Proof.
  intros Hno. unfold topic_strength, get_progress. simpl.
  rewrite lookup_fmap.
  assert (Hnone : tally rows student_id !! topic = None).
  { induction rows as [|r rows IH]; simpl; [done|].
    case_bool_decide as Hs.
    - destruct (default _ _) as [c n].
      rewrite lookup_insert_ne; [|apply Hno; [by left | done]].
      apply IH. intros r' Hr'. apply Hno. by right.
    - apply IH. intros r' Hr'. apply Hno. by right. }
  by rewrite Hnone.
Qed.
End AgentsPlannerTheorems.

(** The two scenarios of the specification, on both planners. *)
Example planner_scenarios :
  AgentsPlanner.planner_decide (U := ascii_db) (Some (topic_strength (Some [])))
    (py "s1") (py "explain matrices") None
  = inr (AgentsPlanner.mkPlan retrieve_and_explain (py "matrices") medium true)
  ∧ AgentsPlanner.planner_decide (U := ascii_db) (Some (topic_strength (Some [])))
      (py "s1") (py "give me a hard quiz on probability") None
    = inr (AgentsPlanner.mkPlan generate_quiz (py "probability") hard false)
  ∧ AgentsPlanner.planner_decide (U := ascii_db) (Some (topic_strength weak_db))
      (py "s1") (py "explain matrices hard") None
    = inr (AgentsPlanner.mkPlan retrieve_and_explain (py "matrices") hard true)
  ∧ Planner.planner_decide (U := ascii_db) (topic_strength (Some []))
      (py "s1") (py "explain matrices") None
    = inr (Planner.mkPlan retrieve_and_explain (py "matrices") medium)
  ∧ Planner.planner_decide (U := ascii_db) (topic_strength (Some []))
      (py "s1") (py "give me a hard quiz on probability") None
    = inr (Planner.mkPlan generate_quiz (py "probability") hard)
  ∧ Planner.planner_decide (U := ascii_db) (topic_strength weak_db)
      (py "s1") (py "explain matrices hard") None
    = inr (Planner.mkPlan retrieve_and_explain (py "matrices") hard).
Proof. vm_compute. done. Qed.

(** ** The planner of Backend/planner.py *)

Section PlannerTheorems.
Context {U : Unicode}.

(** The topic [planner_decide] settles on. *)
Lemma planner_decide_raises (ts : list N → list N → E Strength)
    (student_id query : list N) (topic : option (list N)) (e : error) :
  student_id ≠ [] →
  (∀ chosen, ts student_id chosen = inl e) →
  Planner.planner_decide ts student_id query topic = inl e.
Proof.
  intros Hsid Hts. unfold Planner.planner_decide, mbind, E_bind.
  destruct student_id; [done|]. cbn [bnil]. by rewrite Hts.
Qed.

(** The action of this planner knows six keywords only. *)
Lemma planner_decide_action (ts : list N → list N → E Strength)
    (student_id query : list N) (topic : option (list N)) (p : Planner.Plan) :
  Planner.planner_decide ts student_id query topic = inr p →
  Planner.action p
  = if existsb (λ k, contains k (str_lower (strip query)))
               Planner.quiz_intent_keywords
    then generate_quiz else retrieve_and_explain.
Proof.
  unfold Planner.planner_decide, mbind, E_bind, mret, E_ret.
  destruct (if bnil student_id then _ else _) as [e|s]; [done|].
  intros [= <-]. simpl. by repeat case_match.
Qed.

(** X23.  The overrides of the planner of Backend/planner.py test
    substrings, not words: "hard" or "difficult" anywhere in the query
    (stripped, in lower case), also inside a word, gives hard, and "easy"
    anywhere gives easy or hard. *)
Lemma planner_decide_difficulty (ts : list N → list N → E Strength)
    (student_id query : list N) (topic : option (list N)) (p : Planner.Plan) :
  Planner.planner_decide ts student_id query topic = inr p →
  let q := str_lower (strip query) in
  ((∃ a b, q = a ++ py "hard" ++ b) ∨ (∃ a b, q = a ++ py "difficult" ++ b) →
   Planner.difficulty p = hard)
  ∧ ((∃ a b, q = a ++ py "easy" ++ b) →
     Planner.difficulty p = easy ∨ Planner.difficulty p = hard).
Proof.
  unfold Planner.planner_decide, mbind, E_bind, mret, E_ret.
  destruct (if bnil student_id then _ else _) as [e|s]; [done|].
  intros [= <-]. cbn [Planner.difficulty]. split.
  - intros Hh.
    assert (Hc : contains (py "hard") (str_lower (strip query))
                 || contains (py "difficult") (str_lower (strip query)) = true).
    { apply orb_true_iff. rewrite !contains_spec. done. }
    by rewrite Hc.
  - intros He. apply contains_spec in He. rewrite He.
    case_match; auto.
Qed.
End PlannerTheorems.

(** C5 on Backend/planner.py: "solve" is not among its keywords.  The
    query "solve this problem" is planned as [retrieve_and_explain], where
    the specification, and the planner of Backend/agents/planner.py, say
    [generate_quiz]. *)
Theorem planner_ignores_solve :
  Planner.planner_decide (U := ascii_db) (topic_strength (Some []))
    (py "s1") (py "solve this problem") None
  = inr (Planner.mkPlan retrieve_and_explain (py "solve this problem") medium)
  ∧ spec_action (U := ascii_db) (py "solve this problem") = generate_quiz
  ∧ AgentsPlanner.planner_decide (U := ascii_db) (Some (topic_strength (Some [])))
      (py "s1") (py "solve this problem") None
    = inr (AgentsPlanner.mkPlan generate_quiz (py "solve this problem") medium false).
Proof. vm_compute. done. Qed.

(** C6 on Backend/planner.py: the overrides fire inside other words.
    Neither "easy" nor "hard" stands on its own in the two queries below,
    and the student has no history, so that the difficulty should be
    medium, as it is for the planner of Backend/agents/planner.py; this
    planner answers easy to the first and hard to the second. *)
Theorem planner_overrides_inside_words :
  let q1 := py "i am uneasy about matrices" in
  let q2 := py "i can hardly follow matrices" in
  ¬ standalone (U := ascii_db) (py "easy") q1
  ∧ ¬ standalone (U := ascii_db) (py "hard") q2
  ∧ Planner.planner_decide (U := ascii_db) (topic_strength (Some [])) (py "s1") q1 None
    = inr (Planner.mkPlan retrieve_and_explain (py "matrices") easy)
  ∧ Planner.planner_decide (U := ascii_db) (topic_strength (Some [])) (py "s1") q2 None
    = inr (Planner.mkPlan retrieve_and_explain (py "matrices") hard)
  ∧ AgentsPlanner.planner_decide (U := ascii_db) (Some (topic_strength (Some [])))
      (py "s1") q1 None
    = inr (AgentsPlanner.mkPlan retrieve_and_explain (py "matrices") medium true)
  ∧ AgentsPlanner.planner_decide (U := ascii_db) (Some (topic_strength (Some [])))
      (py "s1") q2 None
    = inr (AgentsPlanner.mkPlan retrieve_and_explain (py "matrices") medium true).
Proof.
  intros q1 q2. split; [|split].
  - rewrite <- (re_found_word (U := ascii_db)). vm_compute. discriminate.
  - rewrite <- (re_found_word (U := ascii_db)). vm_compute. discriminate.
  - vm_compute. done.
Qed.

(** C7 on Backend/planner.py: a failure of [topic_strength] is not caught.
    With an unreadable database [planner_decide] raises, where the
    specification, and the planner of Backend/agents/planner.py, answer
    with the difficulty medium. *)
Theorem planner_raises_on_profile_failure :
  Planner.planner_decide (U := ascii_db) (topic_strength None)
    (py "s1") (py "explain matrices") None
  = inl OperationalError
  ∧ AgentsPlanner.planner_decide (U := ascii_db) (Some (topic_strength None))
      (py "s1") (py "explain matrices") None
    = inr (AgentsPlanner.mkPlan retrieve_and_explain (py "matrices") medium true).
Proof. vm_compute. done. Qed.

(** ** The matcher on sample sentences, as Python's [re] answers on them *)

Section MatcherSamples.
Local Existing Instance ascii_db.

Example search_defined_as :
  all_patterns (py "Well, a Matrix IS defined as a rectangular array.")
  = [Some (49%nat, py "a Matrix", py "a rectangular array.", [], 2%nat);
     None; None; None; None].
Proof. vm_compute. reflexivity. Qed.

Example search_backtracks :
  all_patterns (py "This is is is a test of greedy is matching here")
  = [None;
     Some (47%nat, py "This is is", py "a", py "test of greedy is matching here",
           3%nat);
     None; None;
     Some (47%nat, py "This is is is a test of greedy", py "matching here", [],
           2%nat)].
Proof. vm_compute. reflexivity. Qed.

Example search_stops_at_newline :
  all_patterns (py "the definition of a limit is the value approached"
                ++ [10] ++ py "by f")
  = [None; None;
     Some (49%nat, py "a limit", py "the value approached", [], 2%nat);
     None;
     Some (49%nat, py "the definition of a limit", py "the value approached", [],
           2%nat)].
Proof. vm_compute. reflexivity. Qed.

Example search_word_boundary :
  all_patterns (py "_foo bar is defined as something long enough")
  = [Some (44%nat, py "bar", py "something long enough", [], 2%nat);
     None; None; None; None].
Proof. vm_compute. reflexivity. Qed.

Example split_sub_findall :
  re_split sentence_end_re (py "Hi there.  How are you? Fine. ")
  = [py "Hi there."; py "How are you?"; py "Fine."; []]
  ∧ re_sub fig_re [] (py "See Fig 3 here" ++ [10] ++ py "next Figure line")
    = py "See " ++ [10] ++ py "next Figure line"
  ∧ re_sub dashes_re [] (py "a--b---c-----d") = py "a--bcd"
  ∧ re_sub dots_re (py ".") (py "a..b...c.....d") = py "a..b.c.d"
  ∧ re_findall word3_re (py "ab abc d3efgh-ijk l") = [py "abc"; py "efgh"; py "ijk"]
  ∧ re_found exercise_re (py "We Proved it but Find it") = true
  ∧ re_found exercise_re (py "Finding Proven Show  that") = false.
Proof. vm_compute. done. Qed.
End MatcherSamples.

(** ** Substitution of the runs of a character class *)

Section RunSubstitution.
Context {U : Unicode}.

Lemma run_le_length (p : N → bool) (s : list N) : (run p s ≤ length s)%nat.
Proof. induction s as [|c s IH]; simpl; [lia|]. destruct (p c); simpl; lia. Qed.

Lemma run_drop_head (p : N → bool) (s : list N) :
  ∀ c, head (drop (run p s) s) = Some c → p c = false.
Proof.
  induction s as [|x s IH]; simpl; [done|].
  destruct (p x) eqn:Hx; simpl; [done|]. intros c [= <-]. done.
Qed.

(** A greedy repetition without upper bound takes the whole run, and
    matches when the run is long enough. *)
Lemma rep_unbounded (p : N → bool) (lo : nat) (g : list (nat * list N))
    (prev : option N) (pos : nat) (s : list N) :
  rep p lo None (λ c', Some (c', g)) prev pos s
  = if bool_decide (lo ≤ run p s)%nat
    then Some (Cur (last_or prev (take (run p s) s)) (drop (run p s) s)
                   (pos + run p s), g)
    else None.
Proof.
  revert lo prev pos. induction s as [|c s IH]; intros lo prev pos; simpl.
  { destruct lo; simpl; [by rewrite Nat.add_0_r | done]. }
  destruct (p c) eqn:Hc; simpl.
  - rewrite IH. rewrite last_or_cons, Nat.add_succ_r.
    destruct lo as [|lo]; simpl; repeat case_bool_decide; try lia; done.
  - destruct lo; simpl; [by rewrite Nat.add_0_r | done].
Qed.

Lemma match_at_rep (p : N → bool) (lo : nat) (prev : option N) (pos : nat)
    (s : list N) :
  match_at (Rep lo None p) (Cur prev s pos)
  = if bool_decide (lo ≤ run p s)%nat
    then Some (Cur (last_or prev (take (run p s) s)) (drop (run p s) s)
                   (pos + run p s), [])
    else None.
Proof. unfold match_at. simpl. apply rep_unbounded. Qed.

(** Passing over [n] characters. *)
Lemma sub_aux_skip (r : re) (repl : list N) (n : nat) (s : list N)
    (prev : option N) (pos : nat) :
  (n ≤ length s)%nat →
  ∃ prev' pos',
    sub_aux r repl prev pos s n = sub_aux r repl prev' pos' (drop n s) 0.
Proof.
  revert s prev pos. induction n as [|n IH]; intros s prev pos Hn.
  { exists prev, pos. by rewrite drop_0. }
  destruct s as [|x s]; simpl in *; [lia|].
  apply IH. lia.
Qed.

Section OneClass.
Variables (p : N → bool) (lo : nat) (repl : list N).
Hypothesis lo_pos : (1 ≤ lo)%nat.

Local Abbreviation sub0 prev pos s := (sub_aux (Rep lo None p) repl prev pos s 0).

(** A run of at least [lo] characters is replaced as a whole, a shorter
    one is copied. *)
Lemma sub_aux_rep_cons (prev : option N) (pos : nat) (x : N) (s : list N) :
  (∃ prev' pos',
      (lo ≤ run p (x :: s))%nat
      ∧ sub0 prev pos (x :: s)
        = repl ++ sub0 prev' pos' (drop (run p (x :: s)) (x :: s)))
  ∨ ((run p (x :: s) < lo)%nat
     ∧ sub0 prev pos (x :: s) = x :: sub0 (Some x) (S pos) s).
Proof.
  cbn [sub_aux]. rewrite match_at_rep.
  case_bool_decide as Hrun; [left | right; split; [lia | done]].
  cbn [c_pos].
  replace (pos + run p (x :: s) - pos)%nat with (run p (x :: s)) by lia.
  destruct (run p (x :: s)) as [|n] eqn:Hn; [lia|].
  destruct (sub_aux_skip (Rep lo None p) repl n s (Some x) (S pos))
    as (prev' & pos' & Heq).
  { pose proof (run_le_length p (x :: s)) as Hle. simpl length in Hle. lia. }
  exists prev', pos'. split; [lia|]. rewrite Heq. done.
Qed.

Lemma sub_aux_rep_nil (prev : option N) (pos : nat) : sub0 prev pos [] = [].
Proof.
  cbn [sub_aux]. rewrite match_at_rep. simpl.
  rewrite bool_decide_eq_false_2 by lia. done.
Qed.

(** When the replacement is made of fewer than [lo] characters of the
    class, no run of [lo] of them is left. *)
Lemma sub_rep_runs (s : list N) :
  (∀ c, c ∈ repl → p c = true) → (length repl < lo)%nat →
  ∀ prev pos,
    runs_below lo p (sub0 prev pos s)
    ∧ (run p (sub0 prev pos s)
       ≤ if bool_decide (lo ≤ run p s)%nat then length repl else run p s)%nat.
Proof.
  intros Hrepl Hlen.
  assert (Hrun_app : ∀ l, (∀ c, head l = Some c → p c = false) →
            ∀ i, (run p (drop i (repl ++ l)) ≤ length repl - i)%nat
                 ∨ (length repl ≤ i)%nat).
  { intros l Hl. clear Hlen. induction repl as [|c rp IHr]; intros i.
    { right. simpl. lia. }
    destruct i as [|i]; simpl.
    - left. rewrite Hrepl by left.
      destruct (IHr (λ c' Hc', Hrepl c' (list_elem_of_further _ _ _ Hc')) 0%nat)
        as [H0|H0].
      + rewrite drop_0 in H0. lia.
      + destruct rp; [|simpl in H0; lia]. simpl.
        destruct l as [|y l]; [simpl; lia|]. simpl. rewrite (Hl y eq_refl). lia.
    - destruct (IHr (λ c' Hc', Hrepl c' (list_elem_of_further _ _ _ Hc')) i)
        as [H0|H0]; [left | right]; lia. }
  remember (length s) as n eqn:Hn. revert s Hn.
  induction n as [n IHn] using lt_wf_ind. intros s Hn.
  assert (IH : ∀ s', (length s' < length s)%nat → ∀ prev pos,
            runs_below lo p (sub0 prev pos s')
            ∧ (run p (sub0 prev pos s')
               ≤ if bool_decide (lo ≤ run p s')%nat then length repl
                 else run p s')%nat).
  { intros s' Hs'. apply (IHn (length s')); [lia | done]. }
  clear IHn Hn n.
  intros prev pos. destruct s as [|x s].
  { rewrite sub_aux_rep_nil. split; [intros i; rewrite drop_nil; simpl; lia|].
    simpl. case_bool_decide; lia. }
  destruct (sub_aux_rep_cons prev pos x s)
    as [(prev' & pos' & Hrun & ->) | [Hrun ->]].
  - set (rest := drop (run p (x :: s)) (x :: s)).
    assert (Hshort : (length rest < length (x :: s))%nat).
    { unfold rest. rewrite length_drop. cbn [length]. lia. }
    destruct (IH rest Hshort prev' pos') as [Hbelow Hlead].
    assert (Hhead : ∀ c, head (sub0 prev' pos' rest) = Some c → p c = false).
    { intros c Hc. destruct (sub0 prev' pos' rest) as [|y out] eqn:Hout; [done|].
      injection Hc as ->.
      assert (H0 : run p rest = 0%nat).
      { unfold rest. pose proof (run_drop_head p (x :: s)) as Hd.
        destruct (drop (run p (x :: s)) (x :: s)) as [|z l]; [done|].
        simpl. by rewrite (Hd z eq_refl). }
      rewrite H0 in Hlead. rewrite bool_decide_eq_false_2 in Hlead by lia.
      simpl in Hlead. destruct (p c); [lia | done]. }
    rewrite bool_decide_eq_true_2 by done. split.
    + intros i. destruct (Hrun_app _ Hhead i) as [Hi|Hi]; [lia|].
      rewrite drop_app_ge by done. apply Hbelow.
    + destruct (Hrun_app _ Hhead 0%nat) as [Hi|Hi].
      * rewrite drop_0 in Hi. lia.
      * assert (Hnil : repl = []) by (apply nil_length_inv; lia).
        rewrite Hnil. simpl.
        destruct (sub_aux _ [] prev' pos' rest 0) as [|y out] eqn:Hout; [simpl; lia|].
        simpl. rewrite Hnil in Hhead. rewrite Hout in Hhead.
        rewrite (Hhead y eq_refl). lia.
  - assert (Hshort : (length s < length (x :: s))%nat) by (simpl; lia).
    destruct (IH s Hshort (Some x) (S pos)) as [Hbelow Hlead].
    rewrite bool_decide_eq_false_2 by lia.
    assert (Hle : (run p (x :: sub0 (Some x) (S pos) s) ≤ run p (x :: s))%nat).
    { simpl in *. destruct (p x); [|lia].
      rewrite bool_decide_eq_false_2 in Hlead by lia. lia. }
    split; [|done].
    intros [|i]; [rewrite drop_0; lia | apply Hbelow].
Qed.
End OneClass.
End RunSubstitution.

Section CleaningFacts.
Context {U : Unicode}.

(** A replacement that starts with a character outside [q] leaves the
    runs of [q] no longer than they were. *)
Lemma sub_rep_keeps_runs (p q : N → bool) (lo m : nat) (repl : list N) (s : list N) :
  (1 ≤ lo)%nat → repl ≠ [] → (∀ c, c ∈ repl → q c = false) →
  runs_below m q s →
  ∀ prev pos,
    runs_below m q (sub_aux (Rep lo None p) repl prev pos s 0)
    ∧ (run q (sub_aux (Rep lo None p) repl prev pos s 0) ≤ run q s)%nat.
Proof.
  intros Hlo Hne Hrepl.
  assert (Hrun_app : ∀ l i, (i < length repl)%nat → run q (drop i (repl ++ l)) = 0%nat).
  { intros l i Hi. rewrite drop_app_le by lia.
    destruct (drop i repl) as [|c d] eqn:Hd.
    { apply (f_equal length) in Hd. rewrite length_drop in Hd. simpl in Hd. lia. }
    simpl. rewrite Hrepl; [done|].
    eapply elem_of_sublist; [|apply sublist_drop]. rewrite Hd. by left. }
  remember (length s) as n eqn:Hn. revert s Hn.
  induction n as [n IHn] using lt_wf_ind. intros s Hn Hs prev pos.
  destruct s as [|x s].
  { rewrite sub_aux_rep_nil by done. split; [done | simpl; lia]. }
  assert (Htl : ∀ k, runs_below m q (drop k (x :: s))).
  { intros k i. rewrite drop_drop. apply Hs. }
  destruct (sub_aux_rep_cons p lo repl Hlo prev pos x s)
    as [(prev' & pos' & Hrun & ->) | [Hrun ->]].
  - set (rest := drop (run p (x :: s)) (x :: s)).
    assert (Hshort : (length rest < n)%nat).
    { subst n. unfold rest. rewrite length_drop. cbn [length]. lia. }
    destruct (IHn _ Hshort rest eq_refl (Htl _) prev' pos') as [Hbelow _].
    split.
    + intros i. destruct (decide (i < length repl)%nat) as [Hi|Hi].
      * rewrite Hrun_app by done. specialize (Hs 0%nat). lia.
      * rewrite drop_app_ge by lia. apply Hbelow.
    + rewrite <- (drop_0 (repl ++ _)), Hrun_app; [lia|].
      destruct repl; [done | simpl; lia].
  - assert (Hshort : (length s < n)%nat) by (subst n; simpl; lia).
    destruct (IHn _ Hshort s eq_refl (Htl 1%nat) (Some x) (S pos)) as [Hbelow Hlead].
    assert (Hle : (run q (x :: sub_aux (Rep lo None p) repl (Some x) (S pos) s 0)
                   ≤ run q (x :: s))%nat).
    { simpl. destruct (q x); lia. }
    split; [|done].
    intros [|i]; [rewrite drop_0; specialize (Hs 0%nat); rewrite drop_0 in Hs; lia
                 | apply Hbelow].
Qed.

Lemma run_take_le (p : N → bool) (n : nat) (s : list N) :
  (run p (take n s) ≤ run p s)%nat.
Proof.
  revert n. induction s as [|c s IH]; intros [|n]; simpl; try lia.
  destruct (p c); [specialize (IH n)|]; lia.
Qed.

Lemma runs_below_drop (m : nat) (p : N → bool) (k : nat) (s : list N) :
  runs_below m p s → runs_below m p (drop k s).
Proof. intros Hs i. rewrite drop_drop. apply Hs. Qed.

Lemma runs_below_take (m : nat) (p : N → bool) (k : nat) (s : list N) :
  runs_below m p s → runs_below m p (take k s).
Proof.
  intros Hs i. specialize (Hs i).
  destruct (decide (i ≤ k)%nat) as [Hi|Hi].
  - replace k with (i + (k - i))%nat by lia.
    rewrite <- take_drop_commute.
    pose proof (run_take_le p (k - i) (drop i s)). lia.
  - rewrite drop_ge by (rewrite length_take; lia). simpl. lia.
Qed.

Lemma lstrip_drop (s : list N) : ∃ k, lstrip s = drop k s.
Proof.
  induction s as [|c s [k IH]]; simpl; [by exists 0%nat|].
  destruct (isspace c); [by exists (S k) | by exists 0%nat].
Qed.

Lemma rstrip_take (s : list N) : ∃ k, rstrip s = take k s.
Proof.
  unfold rstrip. destruct (lstrip_drop (reverse s)) as [k ->].
  rewrite drop_reverse, reverse_involutive. eauto.
Qed.

Lemma lstrip_head (s : list N) (c : N) :
  head (lstrip s) = Some c → isspace c = false.
Proof.
  induction s as [|x s IH]; simpl; [done|].
  destruct (isspace x) eqn:Hx; [done|]. by intros [= <-].
Qed.

(** [strip] cuts a piece out of its argument, which neither starts nor
    ends with white space. *)
Lemma strip_piece (s : list N) : ∃ k n, strip s = take n (drop k s).
Proof.
  unfold strip. destruct (lstrip_drop s) as [k ->].
  destruct (rstrip_take (drop k s)) as [n ->]. eauto.
Qed.

Lemma strip_stripped (s : list N) : stripped (strip s).
Proof.
  unfold stripped, strip. split; intros c Hc.
  - destruct (rstrip_take (lstrip s)) as [n Hn]. rewrite Hn in Hc.
    apply (lstrip_head s). destruct n; [done|].
    destruct (lstrip s); [done|]. done.
  - unfold rstrip in Hc. rewrite last_reverse in Hc.
    by apply lstrip_head in Hc.
Qed.

Lemma runs_below_strip (m : nat) (p : N → bool) (s : list N) :
  runs_below m p s → runs_below m p (strip s).
Proof.
  intros Hs. destruct (strip_piece s) as (k & n & ->).
  by apply runs_below_take, runs_below_drop.
Qed.

Lemma run_app_all (p : N → bool) (w b : list N) :
  (∀ c, c ∈ w → p c = true) → run p (w ++ b) = (length w + run p b)%nat.
Proof.
  induction w as [|c w IH]; intros Hw; simpl; [done|].
  rewrite Hw by left. rewrite IH; [done|]. intros c' Hc'. apply Hw. by right.
Qed.

(** Without a run of [length w] characters of the class there is no
    occurrence of a string [w] made of them. *)
Lemma runs_below_contains (p : N → bool) (w s : list N) :
  (∀ c, c ∈ w → p c = true) → runs_below (length w) p s →
  contains w s = false.
Proof.
  intros Hw Hs. destruct (contains w s) eqn:Hc; [|done].
  apply contains_spec in Hc as (a & b & ->).
  specialize (Hs (length a)). rewrite drop_app_length, run_app_all in Hs by done.
  lia.
Qed.

Lemma re_sub_runs (p : N → bool) (lo : nat) (repl s : list N) :
  (1 ≤ lo)%nat → (∀ c, c ∈ repl → p c = true) → (length repl < lo)%nat →
  runs_below lo p (re_sub (Rep lo None p) repl s).
Proof.
  intros Hlo Hrepl Hlen. unfold re_sub.
  by destruct (sub_rep_runs p lo repl Hlo s Hrepl Hlen None 0%nat).
Qed.

Lemma re_sub_keeps_runs (p q : N → bool) (lo m : nat) (repl s : list N) :
  (1 ≤ lo)%nat → repl ≠ [] → (∀ c, c ∈ repl → q c = false) →
  runs_below m q s → runs_below m q (re_sub (Rep lo None p) repl s).
Proof.
  intros Hlo Hne Hrepl Hs. unfold re_sub.
  by destruct (sub_rep_keeps_runs p q lo m repl s Hlo Hne Hrepl Hs None 0%nat).
Qed.

End CleaningFacts.

(** ** What the cleaning functions guarantee *)

(** Every character of a literal string is in the class. *)
Ltac in_class :=
  let c := fresh "c" in
  let Hc := fresh "Hc" in
  intros c Hc; cbv [py] in Hc; simpl in Hc;
  repeat (apply elem_of_cons in Hc as [->|Hc]; [done|]);
  by apply elem_of_nil in Hc.

Section CleaningTheorems.
Context {U : Unicode}.

(** X1.  The text returned by [_safe_text] neither starts nor ends with
    white space, holds no two blanks (space or tab) in a row and no three
    newlines in a row. *)
Theorem safe_text_normal_form (t : list N) :
  stripped (_safe_text t)
  ∧ runs_below 2 is_blank (_safe_text t)
  ∧ contains [10; 10; 10] (_safe_text t) = false.
Proof.
  unfold _safe_text.
  set (t1 := List.filter _ (List.filter _ (nfc t))).
  assert (H2 : runs_below 2 is_blank (re_sub blanks_re (py " ") t1)).
  { apply re_sub_runs; [lia | | vm_compute; lia].
    in_class. }
  assert (H3 : runs_below 2 is_blank
                 (re_sub newlines_re [10; 10] (re_sub blanks_re (py " ") t1))).
  { apply re_sub_keeps_runs; [lia | done | | done].
    in_class. }
  split; [apply strip_stripped|]. split; [by apply runs_below_strip|].
  apply (runs_below_contains (N.eqb 10)).
  { in_class. }
  change (length [10; 10; 10]) with 3%nat.
  apply runs_below_strip, re_sub_runs; [lia | | vm_compute; lia].
  in_class.
Qed.

Lemma clean_text_runs (t : list N) :
  stripped (_clean_text t)
  ∧ runs_below 3 (N.eqb 45) (_clean_text t)
  ∧ runs_below 3 (N.eqb 46) (_clean_text t).
Proof.
  unfold _clean_text. destruct (bnil t).
  { repeat split; try done; intros i; rewrite drop_nil; simpl; lia. }
  set (s1 := _safe_text t).
  assert (Hd : runs_below 3 (N.eqb 45) (re_sub dashes_re [] s1)).
  { apply re_sub_runs; [lia | | vm_compute; lia]. in_class. }
  split; [apply strip_stripped|]. split; apply runs_below_strip.
  - apply re_sub_keeps_runs; [lia | done | | done].
    in_class.
  - apply re_sub_runs; [lia | | vm_compute; lia].
    in_class.
Qed.

(** X2.  The text returned by [_clean_text] neither starts nor ends with
    white space and holds neither "---" nor "...". *)
Theorem clean_text_no_separators (t : list N) :
  stripped (_clean_text t)
  ∧ contains (py "---") (_clean_text t) = false
  ∧ contains (py "...") (_clean_text t) = false.
Proof.
  destruct (clean_text_runs t) as (Hs & Hd & Hp).
  split; [done|]. split.
  - apply (runs_below_contains (N.eqb 45)); [|done].
    in_class.
  - apply (runs_below_contains (N.eqb 46)); [|done].
    in_class.
Qed.

End CleaningTheorems.


(** Removing the dashes after the blanks were collapsed can leave two
    blanks side by side. *)
Example clean_text_double_space :
  _clean_text (U := ascii_db) (py "area --- under the curve")
  = py "area  under the curve".
Proof. vm_compute. reflexivity. Qed.

(** ** The globals of the retriever *)

Section RetrieverGlobals.
Context {U : Unicode}.
Variable Emb : Type.

(** X4.  Once a call of [retrieve] has returned, the model and the
    knowledge base stay in the globals: every later call, whatever became
    of the files and whatever the query, returns without reading them
    again and leaves the globals as they are. *)
Theorem retrieve_uses_cache (w : World Emb) (query : list N) (top_k : nat)
    (g g' : Globals Emb) (res : list Chunk) :
  retrieve w query top_k g = (inr res, g') →
  ∀ (w' : World Emb) (query' : list N) (top_k' : nat),
    retrieve w' query' top_k' g' = retrieve w query' top_k' g'
    ∧ ∃ res', retrieve w' query' top_k' g' = (inr res', g').
Proof.
  intros Hret w' query' top_k'.
  apply retrieve_inr in Hret as (model & kb & idx & -> & _).
  split; [done|]. eexists. reflexivity.
Qed.

End RetrieverGlobals.

Lemma retrieve_uses_cache_witness :
  let c := mkChunk (py "3.pdf") (py "Matrices are rectangular arrays of numbers.")
                   (py "text") in
  let g' := mkGlobals (w_model matrices_world) (Some matrices_kb)
                      (w_index matrices_world) in
  retrieve (U := ascii_db) matrices_world (py "matrices") 1 cold = (inr [c], g')
  ∧ ∀ (w' : World unit) (query' : list N) (top_k' : nat),
      retrieve (U := ascii_db) w' query' top_k' g'
      = retrieve (U := ascii_db) matrices_world query' top_k' g'
      ∧ ∃ res', retrieve (U := ascii_db) w' query' top_k' g' = (inr res', g').
Proof.
  intros c g'.
  assert (Hret : retrieve (U := ascii_db) matrices_world (py "matrices") 1 cold
                 = (inr [c], g')) by (vm_compute; reflexivity).
  split; [exact Hret|].
  exact (retrieve_uses_cache (U := ascii_db) unit matrices_world (py "matrices") 1
           cold g' [c] Hret).
Defined.

Section RetrieverBounds.
Context {U : Unicode}.

Lemma candidate_out_of_store (chunks_list : list kb_entry) (i : Z) :
  ¬ in_store chunks_list i → candidate chunks_list i = None.
Proof.
  unfold in_store, candidate. intros Hi.
  case_bool_decide; [done|]. case_bool_decide; [done|]. simpl. lia.
Qed.

(** X6.  Labels that point outside the chunk store (the -1 an index
    pads its answer with, or the labels of an index larger than the
    store) give no chunk and change nothing for the other labels. *)
Theorem retrieve_loop_skips_out_of_store (chunks_list : list kb_entry)
    (labels : list Z) :
  retrieve_loop chunks_list labels
  = retrieve_loop chunks_list (filter (in_store chunks_list) labels).
Proof.
  rewrite !retrieve_loop_first_seen. f_equal. f_equal. unfold survivors.
  induction labels as [|i labels IH]; [done|].
  rewrite filter_cons. destruct (decide (in_store chunks_list i)) as [Hi|Hi].
  - change (omap ?f (i :: ?l))
      with (match f i with Some y => y :: omap f l | None => omap f l end).
    by rewrite IH.
  - change (omap ?f (i :: labels))
      with (match f i with Some y => y :: omap f labels | None => omap f labels end).
    by rewrite candidate_out_of_store.
Qed.
End RetrieverBounds.

(** ** More on the explainer *)

Section ExplainerMore.
Context {U : Unicode}.
Variable Emb : Type.

(** X7.  When the retriever cannot be imported, when it raises, and when
    it returns no chunk, [explain] raises nothing and returns the fixed
    answer "No explanation found." with no chapter and no sources. *)
Theorem explain_without_chunks
    (core : option (list N → nat → M Emb (list Chunk)))
    (topic : list N) (top_k : nat) (max_chars : Z) (g : Globals Emb) :
  core = None
  ∨ (∃ f e g1, core = Some f ∧ f topic top_k g = (inl e, g1))
  ∨ (∃ f g1, core = Some f ∧ f topic top_k g = (inr [], g1)) →
  (explain core topic top_k max_chars g).1 = no_explanation topic.
Proof.
  intros Hcore. rewrite explain_fst.
  assert (Hno : (retrieve_text core topic top_k g).1 = []).
  { unfold retrieve_text.
    destruct Hcore as [-> | [(f & e & g1 & -> & Hf) | (f & g1 & -> & Hf)]];
      [done | by rewrite Hf | by rewrite Hf]. }
  by rewrite Hno.
Qed.

Lemma explain_parts_snd (chunks : list TextChunk) :
  (explain_parts chunks).2
  = tc_chapter <$> filter (λ c, strip (tc_text c) ≠ [] ∧ tc_chapter c ≠ []) chunks.
Proof.
  induction chunks as [|c chunks IH]; [done|].
  simpl. destruct (explain_parts chunks) as [parts sources]. simpl in IH.
  rewrite filter_cons.
  destruct (decide (strip (tc_text c) ≠ [] ∧ tc_chapter c ≠ [])) as [[Ht Hch]|Hn].
  - destruct (strip (tc_text c)); [done|].
    destruct (tc_chapter c) eqn:Hc; [done|]. rewrite fmap_cons, Hc, <- IH. done.
  - destruct (strip (tc_text c)); [done|].
    destruct (tc_chapter c); [done|]. exfalso. by apply Hn.
Qed.

(** X8.  With a non-empty retrieval, the sources of [explain] are the
    chapters of the first [top_k] chunks whose text and chapter are not
    empty, in rank order and with repetitions, at most [top_k] of them;
    the chapter is the first source, if any. *)
Theorem explain_sources (core : option (list N → nat → M Emb (list Chunk)))
    (topic : list N) (top_k : nat) (max_chars : Z) (g : Globals Emb) :
  let chunks := (retrieve_text core topic top_k g).1 in
  let ex := (explain core topic top_k max_chars g).1 in
  chunks ≠ [] →
  e_topic ex = topic
  ∧ e_sources ex = chapters_of chunks top_k
  ∧ e_chapter ex = head (e_sources ex)
  ∧ (length (e_sources ex) ≤ top_k)%nat.
Proof.
  intros chunks ex Hne. unfold ex. rewrite explain_fst. fold chunks.
  unfold explain_from, chapters_of.
  destruct chunks as [|c chunks']; [done|]. cbn [bnil].
  rewrite <- explain_parts_snd.
  destruct (explain_parts (take top_k (c :: chunks'))) as [parts sources] eqn:Hp.
  simpl. repeat split.
  assert (Hs : sources = (explain_parts (take top_k (c :: chunks'))).2)
    by (by rewrite Hp).
  rewrite Hs, explain_parts_snd, length_fmap.
  etrans; [apply length_filter|]. rewrite length_take. lia.
Qed.

(** X9.  A negative [max_chars] always truncates, however short the
    joined text is.  The explanation is the joined text without its last
    [-max_chars] characters (empty when it has no more than that), cut
    once more before the last space of what is left when there is one,
    and the ellipsis. *)
Theorem explain_negative_max_chars
    (core : option (list N → nat → M Emb (list Chunk)))
    (topic : list N) (top_k : nat) (max_chars : Z) (g : Globals Emb) :
  let chunks := (retrieve_text core topic top_k g).1 in
  let joined := joined_text chunks top_k in
  chunks ≠ [] → (max_chars < 0)%Z →
  let slice := take (length joined - Z.to_nat (- max_chars)) joined in
  ∃ kept word,
    e_explanation (explain core topic top_k max_chars g).1 = kept ++ py "..."
    ∧ slice = kept ++ word
    ∧ ((word = [] ∧ 32 ∉ slice) ∨ (∃ tl, word = 32 :: tl ∧ 32 ∉ tl)).
Proof.
  intros chunks joined Hne Hneg slice.
  rewrite explain_fst, explain_from_explanation by done.
  fold chunks. fold joined.
  rewrite bool_decide_eq_true_2 by lia.
  unfold truncate, slice_to. rewrite bool_decide_eq_false_2 by lia.
  fold slice.
  unfold rsplit1_head. destruct (rindex 32 slice) as [i|] eqn:Hi.
  - destruct (rindex_Some _ _ _ Hi) as (tl & Hs & Htl).
    exists (take i slice), (32 :: tl). split; [done|]. split; [done|].
    right. eauto.
  - exists slice, []. split; [done|]. split; [by rewrite app_nil_r|].
    left. split; [done|]. by apply rindex_None.
Qed.
End ExplainerMore.

Lemma explain_without_chunks_witness :
  let core := Some (retrieve (U := ascii_db) missing_world) in
  (core = None
   ∨ (∃ f e g1, core = Some f ∧ f (py "matrices") 3%nat cold = (inl e, g1))
   ∨ (∃ f g1, core = Some f ∧ f (py "matrices") 3%nat cold = (inr [], g1)))
  ∧ (explain (U := ascii_db) core (py "matrices") 3 1000 cold).1
    = no_explanation (py "matrices").
Proof.
  intros core.
  assert (Hcore : core = None
    ∨ (∃ f e g1, core = Some f ∧ f (py "matrices") 3%nat cold = (inl e, g1))
    ∨ (∃ f g1, core = Some f ∧ f (py "matrices") 3%nat cold = (inr [], g1))).
  { right. left.
    exists (retrieve (U := ascii_db) missing_world),
           (FileNotFoundError (py "kb_chunks.npy missing")),
           (mkGlobals (Some (λ _, tt)) None None).
    split; [reflexivity|]. vm_compute. reflexivity. }
  split; [exact Hcore|].
  exact (explain_without_chunks (U := ascii_db) unit core (py "matrices") 3 1000
           cold Hcore).
Defined.

Lemma explain_sources_witness :
  let core := Some (retrieve (U := ascii_db) small_world) in
  let chunks := (retrieve_text (U := ascii_db) core (py "matrix") 3 cold).1 in
  let ex := (explain (U := ascii_db) core (py "matrix") 3 1000 cold).1 in
  chunks ≠ []
  ∧ e_topic ex = py "matrix"
  ∧ e_sources ex = chapters_of chunks 3 (U := ascii_db)
  ∧ e_chapter ex = head (e_sources ex)
  ∧ (length (e_sources ex) ≤ 3)%nat.
Proof.
  intros core chunks ex.
  assert (Hne : chunks ≠ []) by (vm_compute; discriminate).
  split; [exact Hne|].
  exact (explain_sources (U := ascii_db) unit core (py "matrix") 3 1000 cold Hne).
Defined.

Lemma explain_negative_max_chars_witness :
  let core := Some (retrieve (U := ascii_db) matrices_world) in
  let chunks := (retrieve_text (U := ascii_db) core (py "matrices") 1 cold).1 in
  let joined := joined_text (U := ascii_db) chunks 1 in
  chunks ≠ [] ∧ (-5 < 0)%Z
  ∧ let slice := take (length joined - Z.to_nat (- -5)) joined in
    ∃ kept word,
      e_explanation (explain (U := ascii_db) core (py "matrices") 1 (-5) cold).1
      = kept ++ py "..."
      ∧ slice = kept ++ word
      ∧ ((word = [] ∧ 32 ∉ slice) ∨ (∃ tl, word = 32 :: tl ∧ 32 ∉ tl)).
Proof.
  intros core chunks joined.
  assert (Hne : chunks ≠ []) by (vm_compute; discriminate).
  assert (Hneg : (-5 < 0)%Z) by lia.
  split; [exact Hne|]. split; [exact Hneg|].
  exact (explain_negative_max_chars (U := ascii_db) unit core (py "matrices") 1
           (-5) cold Hne Hneg).
Defined.

(** On "Matrices are rectangular arrays of numbers." and [max_chars = -5]
    the last five characters go, then the cut word "num". *)
Example explain_negative_sample :
  e_explanation (explain (U := ascii_db)
                   (Some (retrieve (U := ascii_db) matrices_world))
                   (py "matrices") 1 (-5) cold).1
  = py "Matrices are rectangular arrays of...".
Proof. vm_compute. reflexivity. Qed.

Lemma explain_whole_witness :
  let core := Some (retrieve (U := ascii_db) matrices_world) in
  let chunks := (retrieve_text (U := ascii_db) core (py "matrices") 1 cold).1 in
  let joined := joined_text (U := ascii_db) chunks 1 in
  chunks ≠ [] ∧ (Z.of_nat (length joined) ≤ 1000)%Z
  ∧ e_explanation (explain (U := ascii_db) core (py "matrices") 1 1000 cold).1
    = joined.
Proof.
  intros core chunks joined.
  assert (Hne : chunks ≠ []) by (vm_compute; discriminate).
  assert (Hlen : (Z.of_nat (length joined) ≤ 1000)%Z) by (vm_compute; discriminate).
  split; [exact Hne|]. split; [exact Hlen|].
  exact (explain_whole (U := ascii_db) unit core (py "matrices") 1 1000 cold
           Hne Hlen).
Defined.

(** ** The content of a quiz *)

Section QuizOutlineFacts.
Context {U : Unicode}.

Lemma lstrip_id (s : list N) :
  (∀ c, head s = Some c → isspace c = false) → lstrip s = s.
Proof. destruct s as [|x s]; simpl; [done|]. intros H. by rewrite (H x eq_refl). Qed.

(** [strip] changes nothing in a text that is stripped already. *)
Lemma strip_id (s : list N) : stripped s → strip s = s.
Proof.
  intros [Hh Hl]. unfold strip, rstrip. rewrite (lstrip_id s Hh).
  rewrite lstrip_id; [apply reverse_involutive|].
  intros c Hc. rewrite head_reverse in Hc. auto.
Qed.

Lemma try_pattern_Some (pat : re) (s concept definition : list N) :
  try_pattern pat s = Some (concept, definition) →
  stripped concept ∧ is_bad_concept concept = false
  ∧ (12 < length definition)%nat.
Proof.
  unfold try_pattern. destruct (re_search pat s) as [[c g]|]; [|done].
  unfold acceptable.
  destruct (is_bad_concept (strip (group 1 g))) eqn:Hb; [done|]. simpl.
  case_bool_decide as Hl; [|done]. intros [= <- <-].
  split; [apply strip_stripped | done].
Qed.

Lemma first_pattern_Some (pats : list re) (s concept definition : list N) :
  first_pattern pats s = Some (concept, definition) →
  stripped concept ∧ is_bad_concept concept = false
  ∧ (12 < length definition)%nat.
Proof.
  induction pats as [|pat pats IH]; simpl; [done|].
  destruct (try_pattern pat s) as [[c d]|] eqn:Hp; [|done].
  intros [= <- <-]. by eapply try_pattern_Some.
Qed.

Lemma try_simple_Some (s concept definition : list N) :
  try_simple s = Some (concept, definition) →
  stripped concept ∧ is_bad_concept concept = false
  ∧ (12 < length definition)%nat.
Proof.
  unfold try_simple. destruct (re_search DEF_RE_SIMPLE s) as [[c g]|]; [|done].
  unfold acceptable.
  destruct (is_bad_concept (strip (group 1 g))) eqn:Hb; [done|]. simpl.
  case_bool_decide as Hl; [|done]. intros [= <- <-].
  split; [apply strip_stripped | done].
Qed.

Lemma sentence_plan_Some (s question explanation : list N) :
  sentence_plan s = Some (question, explanation) →
  ∃ concept, question = what_is concept
             ∧ stripped concept ∧ is_bad_concept concept = false
             ∧ (12 < length explanation)%nat.
Proof.
  unfold sentence_plan.
  destruct (first_pattern DEF_PATTERNS s) as [[c d]|] eqn:Hf.
  { intros [= <- <-]. apply first_pattern_Some in Hf as (Hs & Hb & Hl).
    exists c. by rewrite strip_id. }
  destruct (try_simple s) as [[c d]|] eqn:Ht; [|done].
  intros [= <- <-]. apply try_simple_Some in Ht as (Hs & Hb & Hl). eauto.
Qed.

(** What [sentence_to_mcq] returns is decided by the sentence, up to the
    options and the answer letter. *)
Lemma sentence_to_mcq_plan (sentence chapter : list N) :
  q_ok (sentence_to_mcq sentence chapter)
       (λ r, (mcq_core <$> r)
             = (λ qe : list N * list N, (chapter, qe.1, qe.2))
                 <$> sentence_plan sentence).
Proof.
  unfold sentence_to_mcq, sentence_plan.
  destruct (first_pattern DEF_PATTERNS sentence) as [[concept definition]|].
  { eapply q_ok_bind; [apply make_mcq_ok|].
    intros m (Hc & Hq & He & _). apply q_ok_ret. simpl.
    unfold mcq_core. by rewrite Hc, Hq, He. }
  destruct (try_simple sentence) as [[concept definition]|].
  { eapply q_ok_bind; [apply make_mcq_ok|].
    intros m (Hc & Hq & He & _). apply q_ok_ret. simpl.
    unfold mcq_core. by rewrite Hc, Hq, He. }
  by apply q_ok_ret.
Qed.

Lemma sentences_outline_cons (chapter s : list N) (sents : list (list N)) :
  sentences_outline chapter (s :: sents)
  = match sentence_plan s with
    | Some qe => (chapter, qe.1, qe.2) :: sentences_outline chapter sents
    | None => sentences_outline chapter sents
    end.
Proof. unfold sentences_outline. simpl. by destruct (sentence_plan s). Qed.

Lemma scan_sentences_outline (n : Z) (chapter : list N) (sents : list (list N))
    (mcqs : list MCQ) :
  (Z.of_nat (length mcqs) < n)%Z →
  q_ok (scan_sentences n chapter sents mcqs)
       (λ r, let P := (mcq_core <$> mcqs) ++ sentences_outline chapter sents in
             match r with
             | Return l => Z.of_nat (length l) = n
                           ∧ mcq_core <$> l = take (Z.to_nat n) P
             | Next l => (Z.of_nat (length l) < n)%Z ∧ mcq_core <$> l = P
             end).
Proof.
  revert mcqs. induction sents as [|s sents IH]; intros mcqs Hlt.
  { simpl. apply q_ok_ret. rewrite app_nil_r. done. }
  cbn [scan_sentences].
  eapply q_ok_bind; [apply sentence_to_mcq_plan|].
  intros mcq Hplan. cbv beta in Hplan.
  set (mcqs' := match mcq with Some q => mcqs ++ [q] | None => mcqs end).
  assert (HP : (mcq_core <$> mcqs) ++ sentences_outline chapter (s :: sents)
               = (mcq_core <$> mcqs') ++ sentences_outline chapter sents).
  { rewrite sentences_outline_cons. unfold mcqs'.
    destruct (sentence_plan s) as [qe|], mcq as [q|]; try done.
    assert (Hq : mcq_core q = (chapter, qe.1, qe.2)) by (simpl in Hplan; congruence).
    rewrite fmap_app, <- app_assoc. simpl. by rewrite Hq. }
  assert (Hlen' : (length mcqs' ≤ S (length mcqs))%nat).
  { unfold mcqs'. destruct mcq; [rewrite length_app; simpl|]; lia. }
  rewrite HP.
  case_bool_decide as Hfull.
  - apply q_ok_ret. split; [lia|].
    rewrite take_app_length'; [done|]. rewrite length_fmap. lia.
  - apply IH. lia.
Qed.

Lemma outline_cons (ch : Chunk) (chunks : list Chunk) :
  outline (ch :: chunks)
  = sentences_outline (ch_chapter ch) (sentences_of ch) ++ outline chunks.
Proof. reflexivity. Qed.

Lemma scan_chunks_outline (n : Z) (chunks : list Chunk) (mcqs : list MCQ) :
  (Z.of_nat (length mcqs) < n)%Z →
  q_ok (scan_chunks n chunks mcqs)
       (λ r, let P := (mcq_core <$> mcqs) ++ outline chunks in
             match r with
             | Return l => Z.of_nat (length l) = n
                           ∧ mcq_core <$> l = take (Z.to_nat n) P
             | Next l => (Z.of_nat (length l) < n)%Z ∧ mcq_core <$> l = P
             end).
Proof.
  revert mcqs. induction chunks as [|ch chunks IH]; intros mcqs Hlt.
  { simpl. apply q_ok_ret. unfold outline. simpl. rewrite app_nil_r. done. }
  cbn [scan_chunks]. cbv zeta. fold (sentences_of ch).
  eapply q_ok_bind; [by apply scan_sentences_outline|].
  intros r Hr. cbv beta zeta in Hr.
  rewrite outline_cons, app_assoc.
  destruct r as [l|l]; destruct Hr as [Hlen Hl].
  - apply q_ok_ret. split; [done|].
    rewrite take_app_le; [done|].
    apply (f_equal length) in Hl. rewrite length_fmap, length_take in Hl. lia.
  - rewrite <- Hl. by apply IH.
Qed.

(** X11.  For [n_questions ≥ 1] and a retrieval in which some sentence
    yields a question, the chapters, questions and explanations of the
    quiz do not depend on the random draws: they are those of the first
    [n_questions] yielding sentences, in chunk-then-sentence order.  Only
    the options and the answer letter are drawn. *)
Theorem quiz_content_is_outline {Emb} (w : World Emb) (topic : list N) (n : Z)
    (difficulty : option (list N)) (g g' : Globals Emb) (chunks : list Chunk)
    (tape : list nat) :
  (1 ≤ n)%Z →
  retrieve w topic 20 g = (inr chunks, g') →
  outline chunks ≠ [] →
  ∃ res tape',
    generate_quiz_for_topic w topic n difficulty g tape = (inr res, g', tape')
    ∧ mcq_core <$> res = take (Z.to_nat n) (outline chunks).
Proof.
  intros Hn Hret Hout. unfold generate_quiz_for_topic. rewrite Hret.
  assert (Hok : q_ok (quiz_from_chunks topic n chunks)
                     (λ res, mcq_core <$> res = take (Z.to_nat n) (outline chunks))).
  { unfold quiz_from_chunks.
    eapply q_ok_bind; [apply scan_chunks_outline; simpl; lia|].
    intros r Hr. cbv beta zeta in Hr. simpl in Hr.
    destruct r as [l|l]; [apply q_ok_ret; tauto|].
    destruct Hr as [Hlen Hl].
    destruct l as [|m l]; [by rewrite <- Hl in Hout|].
    apply q_ok_ret. rewrite slice_to_all by lia.
    rewrite Hl. rewrite take_ge; [done|].
    rewrite <- Hl, length_fmap. lia. }
  destruct (Hok tape) as (res & t1 & Hq & Hres).
  rewrite Hq. eauto.
Qed.

(** X12.  A question built from a sentence asks "What is c?" about a
    concept [c] that [is_bad_concept] accepts (three characters at
    least, no digit, no question word, five words at most), with a
    correct text of more than 12 characters, and carries the chapter
    it was given. *)
Theorem sentence_mcq_is_acceptable (sentence chapter : list N)
    (tape tape' : list nat) (m : MCQ) :
  sentence_to_mcq sentence chapter tape = (inr (Some m), tape') →
  q_chapter m = chapter
  ∧ (12 < length (q_explanation m))%nat
  ∧ ∃ concept, q_question m = py "What is " ++ concept ++ py "?"
               ∧ stripped concept ∧ is_bad_concept concept = false.
Proof.
  intros Hrun.
  destruct (sentence_to_mcq_plan sentence chapter tape) as (r & t1 & Hr & Hplan).
  rewrite Hrun in Hr. injection Hr as <- <-. simpl in Hplan.
  destruct (sentence_plan sentence) as [[q e]|] eqn:Hs; [|done].
  injection Hplan as Hc Hq He.
  apply sentence_plan_Some in Hs as (concept & -> & Hst & Hb & Hl).
  split; [done|]. split; [by rewrite He|]. exists concept. by rewrite Hq.
Qed.
End QuizOutlineFacts.

Lemma quiz_content_is_outline_witness :
  let chunks :=
    [mkChunk (py "unknown")
       (py "A matrix is defined as a rectangular array of numbers. It has rows.")
       (py "text")] in
  let g' := mkGlobals (w_model small_world) (Some small_kb) (w_index small_world) in
  (1 ≤ 3)%Z
  ∧ retrieve (U := ascii_db) small_world (py "matrix") 20 cold = (inr chunks, g')
  ∧ outline (U := ascii_db) chunks ≠ []
  ∧ ∃ res tape',
      generate_quiz_for_topic (U := ascii_db) small_world (py "matrix") 3 None
        cold [] = (inr res, g', tape')
      ∧ mcq_core <$> res = take (Z.to_nat 3) (outline (U := ascii_db) chunks).
Proof.
  intros chunks g'.
  assert (Hn : (1 ≤ 3)%Z) by lia.
  assert (Hret : retrieve (U := ascii_db) small_world (py "matrix") 20 cold
                 = (inr chunks, g')) by (vm_compute; reflexivity).
  assert (Hout : outline (U := ascii_db) chunks ≠ []) by (vm_compute; discriminate).
  split; [exact Hn|]. split; [exact Hret|]. split; [exact Hout|].
  exact (quiz_content_is_outline (U := ascii_db) small_world (py "matrix") 3 None
           cold g' chunks [] Hn Hret Hout).
Defined.

Lemma sentence_mcq_is_acceptable_witness :
  let m := mkMCQ (py "3.pdf") (py "What is A matrix?")
             [py "Integral"; py "Matrix"; py "a rectangular array of numbers.";
              py "Derivative"]
             (py "C") (py "a rectangular array of numbers.") in
  sentence_to_mcq (U := ascii_db)
    (py "A matrix is defined as a rectangular array of numbers.") (py "3.pdf") []
  = (inr (Some m), [])
  ∧ q_chapter m = py "3.pdf"
  ∧ (12 < length (q_explanation m))%nat
  ∧ ∃ concept, q_question m = py "What is " ++ concept ++ py "?"
               ∧ stripped (U := ascii_db) concept
               ∧ is_bad_concept (U := ascii_db) concept = false.
Proof.
  intros m.
  assert (Hrun : sentence_to_mcq (U := ascii_db)
                   (py "A matrix is defined as a rectangular array of numbers.")
                   (py "3.pdf") [] = (inr (Some m), []))
    by (vm_compute; reflexivity).
  split; [exact Hrun|].
  exact (sentence_mcq_is_acceptable (U := ascii_db) _ _ _ _ _ Hrun).
Defined.

(** ** Quizzes of no question, and the wrapper of the quiz agent *)

Section QuizEdges.
Context {U : Unicode}.

Lemma scan_sentences_nonpos (n : Z) (chapter : list N) (sents : list (list N)) :
  (n ≤ 0)%Z →
  q_ok (scan_sentences n chapter sents [])
       (λ r, match r with
             | Return l => (length l ≤ 1)%nat
                           ∧ (sentences_outline chapter sents = [] → l = [])
             | Next l => l = []
             end).
Proof.
  intros Hn. destruct sents as [|s sents]; [by apply q_ok_ret|].
  cbn [scan_sentences].
  eapply q_ok_bind; [apply sentence_to_mcq_plan|].
  intros mcq Hplan. cbv beta in Hplan.
  rewrite bool_decide_eq_true_2 by lia.
  apply q_ok_ret. rewrite sentences_outline_cons.
  destruct mcq as [q|], (sentence_plan s) as [qe|]; simpl; try done.
  split; [lia | done].
Qed.

Lemma scan_chunks_nonpos (n : Z) (chunks : list Chunk) :
  (n ≤ 0)%Z →
  q_ok (scan_chunks n chunks [])
       (λ r, match r with
             | Return l => (length l ≤ 1)%nat ∧ chunks ≠ []
                           ∧ (outline chunks = [] → l = [])
             | Next l => l = []
             end).
Proof.
  intros Hn. induction chunks as [|ch chunks IH]; [by apply q_ok_ret|].
  cbn [scan_chunks]. cbv zeta. fold (sentences_of ch).
  eapply q_ok_bind; [by apply scan_sentences_nonpos|].
  intros r Hr. cbv beta in Hr. rewrite outline_cons.
  destruct r as [l|l].
  - apply q_ok_ret. destruct Hr as [Hlen Hl]. split; [done|]. split; [done|].
    intros [Ho _]%app_eq_nil. auto.
  - subst l. eapply q_ok_mono; [exact IH|].
    intros [l|l]; [|done]. intros (Hlen & _ & Hl). split; [done|]. split; [done|].
    intros [_ Ho]%app_eq_nil. auto.
Qed.

Lemma quiz_from_chunks_nonpos (topic : list N) (n : Z) (chunks : list Chunk) :
  (n ≤ 0)%Z →
  q_ok (quiz_from_chunks topic n chunks)
       (λ res, (length res ≤ 1)%nat
               ∧ (chunks = [] → res = [sentinel_mcq topic])
               ∧ (chunks ≠ [] → outline chunks = [] → res = [])).
Proof.
  intros Hn. unfold quiz_from_chunks.
  eapply q_ok_bind; [by apply scan_chunks_nonpos|].
  intros r Hr. cbv beta in Hr. destruct r as [l|l].
  - destruct Hr as (Hlen & Hne & Hl).
    apply q_ok_ret. split; [done|]. split; [done | auto].
  - subst l. destruct chunks as [|ch0 chunks].
    + apply q_ok_ret. simpl. split; [lia|]. split; done.
    + replace (Z.to_nat n) with 0%nat by lia. simpl.
      apply q_ok_ret. simpl. split; [lia|]. split; done.
Qed.

(** X13.  For [n_questions ≤ 0] a successful run returns at most one
    question: the scan stops at the first candidate sentence, whether it
    yields a question or not, and the fallback loop runs zero times.  The
    quiz is the sentinel alone when nothing was retrieved, and is empty
    when chunks were retrieved but no sentence yields a question. *)
Theorem quiz_nonpositive {Emb} (w : World Emb) (topic : list N) (n : Z)
    (difficulty : option (list N)) (g g' : Globals Emb) (chunks : list Chunk)
    (tape : list nat) :
  (n ≤ 0)%Z →
  retrieve w topic 20 g = (inr chunks, g') →
  ∃ res tape',
    generate_quiz_for_topic w topic n difficulty g tape = (inr res, g', tape')
    ∧ (length res ≤ 1)%nat
    ∧ (chunks = [] → res = [sentinel_mcq topic])
    ∧ (chunks ≠ [] → outline chunks = [] → res = []).
Proof.
  intros Hn Hret. unfold generate_quiz_for_topic. rewrite Hret.
  destruct (quiz_from_chunks_nonpos topic n chunks Hn tape)
    as (res & t1 & Hq & Hres).
  rewrite Hq. eauto.
Qed.

Lemma length_slice_to {A} (n : Z) (l : list A) :
  (0 ≤ n)%Z ∨ (length l ≤ 1)%nat →
  (length (slice_to n l) ≤ Z.to_nat n)%nat.
Proof.
  intros Hn. unfold slice_to. case_bool_decide; rewrite length_take; lia.
Qed.

(** X14.  The wrapper [generate_quiz] of the quiz agent returns a plain
    list and never raises.  Over the real generator its result has at
    most [max(n_questions, 0)] questions for every [n_questions], also
    where the generator itself returns one question for
    [n_questions ≤ 0], and is empty when the generator raises.  When the
    generator could not be imported, the result is exactly
    [max(n_questions, 0)] placeholders with four "-" options and the
    answer "A", and neither the module globals nor the random generator
    are touched. *)
Theorem generate_quiz_bounded {Emb} (w : World Emb) (topic : list N) (n : Z)
    (difficulty : option (list N)) (g : Globals Emb) (tape : list nat) :
  let core := generate_quiz_for_topic w in
  let wrapped := QuizAgent.generate_quiz (Some core) topic n difficulty g tape in
  let bare := QuizAgent.generate_quiz None topic n difficulty g tape in
  (length wrapped.1.1 ≤ Z.to_nat n)%nat
  ∧ (∀ e, (core topic n difficulty g tape).1.1 = inl e → wrapped.1.1 = [])
  ∧ length bare.1.1 = Z.to_nat n
  ∧ bare.1.2 = g ∧ bare.2 = tape
  ∧ ∀ m, m ∈ bare.1.1 →
      q_options m = [py "-"; py "-"; py "-"; py "-"] ∧ q_answer m = py "A".
Proof.
  intros core wrapped bare. split; [|split].
  - unfold wrapped, QuizAgent.generate_quiz, core, generate_quiz_for_topic.
    destruct (retrieve w topic 20 g) as [[e|chunks] g']; [simpl; lia|].
    destruct (Z_le_gt_dec n 0) as [Hn|Hn].
    + destruct (quiz_from_chunks_nonpos topic n chunks Hn tape)
        as (res & t1 & -> & Hlen & _).
      simpl. apply length_slice_to. by right.
    + destruct (quiz_from_chunks_ok topic n chunks tape)
        as (res & t1 & -> & _ & Hres).
      simpl. apply length_slice_to. left. lia.
  - intros e He. unfold wrapped, QuizAgent.generate_quiz.
    destruct (core topic n difficulty g tape) as [[[e'|quiz] g'] t']; done.
  - unfold bare, QuizAgent.generate_quiz, range1. simpl.
    rewrite !length_fmap, length_seq. split; [done|]. split; [done|].
    split; [done|]. intros m Hm.
    by apply list_elem_of_fmap in Hm as (i & -> & _).
Qed.

Lemma generate_distractors_for_picks (concept correct : list N) :
  q_ok (generate_distractors_for concept correct)
       (λ ds, NoDup (str_lower <$> BASE_DISTRACTORS) →
              ∀ d, d ∈ ds →
                   d ∈ BASE_DISTRACTORS ∧ str_lower d ≠ str_lower concept).
Proof.
  unfold generate_distractors_for.
  set (picks := List.filter _ BASE_DISTRACTORS).
  eapply q_ok_bind; [apply shuffle_ok|].
  intros picks' Hperm. cbv beta in Hperm.
  eapply q_ok_mono; [apply pad_distractors_ok|].
  intros r [Hlen Hfuel] Hbank d Hd. cbv beta in Hlen, Hfuel.
  assert (Hpicks : (13 ≤ length picks)%nat).
  { pose proof (length_filter_image str_lower (str_lower concept)
                  BASE_DISTRACTORS Hbank) as Hle.
    fold picks in Hle.
    change (length BASE_DISTRACTORS) with 14%nat in Hle. lia. }
  rewrite Hfuel in Hd.
  2:{ rewrite length_take, Hperm. lia. }
  assert (Hin : d ∈ picks).
  { rewrite <- Hperm. eapply elem_of_sublist; [exact Hd | apply sublist_take]. }
  unfold picks in Hin. apply list_elem_of_In, filter_In in Hin as [Hin Hne].
  split; [by apply list_elem_of_In|].
  unfold str_eqb in Hne. by case_bool_decide.
Qed.

(** X15.  While the distractor bank holds no two terms equal up to case,
    every distractor [generate_distractors_for] returns is a term of
    the bank that differs from the concept also up to case: the concept
    is never offered as a wrong option. *)
Theorem distractors_exclude_concept (concept correct : list N)
    (tape tape' : list nat) (ds : list (list N)) :
  NoDup (str_lower <$> BASE_DISTRACTORS) →
  generate_distractors_for concept correct tape = (inr ds, tape') →
  ∀ d, d ∈ ds → d ∈ BASE_DISTRACTORS ∧ str_lower d ≠ str_lower concept.
Proof.
  intros Hbank Hrun.
  destruct (generate_distractors_for_picks concept correct tape)
    as (r & t1 & Hr & Hpost).
  rewrite Hrun in Hr. injection Hr as <- <-. auto.
Qed.

(** X16.  Where the space is a whitespace character, every sentence
    [extract_candidate_sentences] returns has more than 20 and fewer
    than 300 characters, neither starts nor ends with whitespace, and
    holds no two consecutive whitespace characters. *)
Theorem candidate_sentences_shape (text s : list N) :
  isspace 32 = true →
  s ∈ extract_candidate_sentences text →
  (20 < length s < 300)%nat ∧ stripped s ∧ runs_below 2 isspace s.
Proof.
  intros Hsp Hs. unfold extract_candidate_sentences in Hs.
  apply list_elem_of_In, filter_In in Hs as [Hs Hlen].
  apply andb_prop in Hlen as [Hlo Hhi].
  apply bool_decide_eq_true in Hlo, Hhi. split; [lia|].
  apply list_elem_of_In, list_elem_of_fmap in Hs as (piece & -> & _).
  unfold clean_text. destruct (bnil piece).
  { split; [by split|]. intros i. rewrite drop_nil. simpl. lia. }
  split; [apply strip_stripped|]. apply runs_below_strip.
  apply re_sub_runs; [lia | | vm_compute; lia].
  intros c Hc. apply list_elem_of_singleton in Hc. by subst.
Qed.
End QuizEdges.

Lemma quiz_nonpositive_witness :
  let chunks :=
    [mkChunk (py "3.pdf") (py "Matrices are rectangular arrays of numbers.")
       (py "text")] in
  let g' := mkGlobals (w_model matrices_world) (Some matrices_kb)
              (w_index matrices_world) in
  (0 ≤ 0)%Z
  ∧ retrieve (U := ascii_db) matrices_world (py "matrices") 20 cold
    = (inr chunks, g')
  ∧ ∃ res tape',
      generate_quiz_for_topic (U := ascii_db) matrices_world (py "matrices") 0
        None cold [] = (inr res, g', tape')
      ∧ (length res ≤ 1)%nat
      ∧ (chunks = [] → res = [sentinel_mcq (py "matrices")])
      ∧ (chunks ≠ [] → outline (U := ascii_db) chunks = [] → res = []).
Proof.
  intros chunks g'.
  assert (Hn : (0 ≤ 0)%Z) by lia.
  assert (Hret : retrieve (U := ascii_db) matrices_world (py "matrices") 20 cold
                 = (inr chunks, g')) by (vm_compute; reflexivity).
  split; [exact Hn|]. split; [exact Hret|].
  exact (quiz_nonpositive (U := ascii_db) matrices_world (py "matrices") 0 None
           cold g' chunks [] Hn Hret).
Defined.

Lemma distractors_exclude_concept_witness :
  let ds := [py "Derivative"; py "Integral"; py "Determinant"] in
  NoDup (str_lower (Unicode := ascii_db) <$> BASE_DISTRACTORS)
  ∧ generate_distractors_for (U := ascii_db) (py "matrix")
      (py "a rectangular array") [] = (inr ds, [])
  ∧ ∀ d, d ∈ ds →
      d ∈ BASE_DISTRACTORS
      ∧ str_lower (Unicode := ascii_db) d
        ≠ str_lower (Unicode := ascii_db) (py "matrix").
Proof.
  intros ds.
  assert (Hbank : NoDup (str_lower (Unicode := ascii_db) <$> BASE_DISTRACTORS)).
  { apply (bool_decide_unpack _). vm_compute. exact I. }
  assert (Hrun : generate_distractors_for (U := ascii_db) (py "matrix")
                   (py "a rectangular array") [] = (inr ds, []))
    by (vm_compute; reflexivity).
  split; [exact Hbank|]. split; [exact Hrun|].
  exact (distractors_exclude_concept (U := ascii_db) (py "matrix")
           (py "a rectangular array") [] [] ds Hbank Hrun).
Defined.

Lemma candidate_sentences_shape_witness :
  let s := py "A matrix is defined as a rectangular array of numbers." in
  isspace (Unicode := ascii_db) 32 = true
  ∧ s ∈ extract_candidate_sentences (U := ascii_db) two_sentences
  ∧ (20 < length s < 300)%nat
  ∧ stripped (U := ascii_db) s
  ∧ runs_below 2 (isspace (Unicode := ascii_db)) s.
Proof.
  intros s.
  assert (Hsp : isspace (Unicode := ascii_db) 32 = true) by reflexivity.
  assert (Hs : s ∈ extract_candidate_sentences (U := ascii_db) two_sentences).
  { apply (bool_decide_unpack _). vm_compute. exact I. }
  split; [exact Hsp|]. split; [exact Hs|].
  exact (candidate_sentences_shape (U := ascii_db) two_sentences s Hsp Hs).
Defined.
(** ** More on the two planners *)

Section PlannerMore.
Context {U : Unicode}.

Lemma contains_inside (a w b s : list N) :
  contains (a ++ w ++ b) s = true → contains w s = true.
Proof.
  rewrite !contains_spec. intros (x & y & ->).
  exists (x ++ a), (b ++ y). by rewrite <- !app_assoc.
Qed.

(** X20.  [_match_best_topic] of Backend/agents/planner.py answers the
    empty string or one of the thirteen canonical topics; a topic it
    answers occurs in the text in lower case, or is "matrices" for a text
    that holds "matrix".  It never answers "application of integrals":
    "integrals" stands earlier in the list and occurs wherever that topic
    does. *)
Theorem match_best_topic_canonical (text : list N) :
  let t := AgentsPlanner._match_best_topic text in
  (t = [] ∨ t ∈ AgentsPlanner.VALID_TOPICS)
  ∧ t ≠ py "application of integrals"
  ∧ (t ≠ [] →
     contains t (str_lower text) = true
     ∨ (t = py "matrices" ∧ contains (py "matrix") (str_lower text) = true)).
Proof.
  intros t.
  assert (Ht : t = AgentsPlanner._match_best_topic text) by done.
  clearbody t. unfold AgentsPlanner._match_best_topic in Ht.
  destruct (bnil text).
  { subst t. split; [by left|]. split; [by vm_compute | done]. }
  set (s := str_lower text) in *.
  destruct (List.find _ AgentsPlanner.VALID_TOPICS) as [t'|] eqn:Hf.
  - subst t'. pose proof (find_some _ _ Hf) as [Hv Hc].
    apply list_elem_of_In in Hv.
    split; [by right|]. split; [|by left].
    intros ->. unfold AgentsPlanner.VALID_TOPICS in Hf. cbn [List.find] in Hf.
    repeat match type of Hf with
    | (if contains ?k s then _ else _) = _ =>
        let H := fresh "Hk" in
        destruct (contains k s) eqn:H;
        [ try (injection Hf as Hf; apply (f_equal length) in Hf;
               vm_compute in Hf; discriminate) | ]
    end.
    all: try discriminate.
    apply (contains_inside (py "application of ") (py "integrals") []) in Hk6.
    congruence.
  - destruct (contains (py "matrix") s) eqn:Hm.
    { subst t. split; [right; apply (bool_decide_unpack _); by vm_compute|].
      split; [by vm_compute|]. intros _. right. done. }
    destruct (contains (py "matrices") s) eqn:Hms.
    { subst t. split; [right; apply (bool_decide_unpack _); by vm_compute|].
      split; [by vm_compute|]. intros _. by left. }
    cbn [orb] in Ht.
    destruct (contains (py "probability") s) eqn:Hp.
    { subst t. split; [right; apply (bool_decide_unpack _); by vm_compute|].
      split; [by vm_compute|]. intros _. by left. }
    destruct (contains (py "conditional probability") s) eqn:Hcp.
    { apply (contains_inside (py "conditional ") (py "probability") []) in Hcp.
      congruence. }
    subst t. split; [by left|]. split; [by vm_compute | done].
Qed.
Lemma planner_decide_topic (ts : list N → list N → E Strength)
    (student_id query : list N) (topic : option (list N)) (p : Planner.Plan) :
  Planner.planner_decide ts student_id query topic = inr p →
  Planner.topic p = chosen_topic query topic.
Proof.
  unfold Planner.planner_decide, mbind, E_bind, mret, E_ret.
  destruct (if bnil student_id then _ else _) as [e|st]; [done|].
  by intros [= <-].
Qed.

Lemma agents_planner_topic
    (ts : option (list N → list N → E Strength))
    (student_id query : list N) (topic : option (list N)) (p : AgentsPlanner.Plan) :
  AgentsPlanner.planner_decide ts student_id query topic = inr p →
  AgentsPlanner.topic p
  = AgentsPlanner._normalize_topic
      (or_else (or_else (default [] topic)
                        (AgentsPlanner._match_best_topic (strip query)))
               (strip query)).
Proof.
  unfold AgentsPlanner.planner_decide, mbind, E_bind, mret, E_ret.
  destruct (try_except _ _) as [e|d]; [done|].
  by intros [= <-].
Qed.

(** X21.  A topic given to [planner_decide] and not empty is the topic
    of the plan, stripped and in lower case, in both planners, whatever
    the query, the student and the profile say. *)
Theorem explicit_topic_wins (ts1 : list N → list N → E Strength)
    (ts2 : option (list N → list N → E Strength))
    (student_id query t : list N) :
  t ≠ [] →
  (∀ p, Planner.planner_decide ts1 student_id query (Some t) = inr p →
        Planner.topic p = str_lower (strip t))
  ∧ (∃ p, AgentsPlanner.planner_decide ts2 student_id query (Some t) = inr p
          ∧ AgentsPlanner.topic p = str_lower (strip t)).
Proof.
  intros Ht. split.
  - intros p Hp. rewrite (planner_decide_topic _ _ _ _ _ Hp).
    unfold chosen_topic, or_else, Planner._normalize_topic. simpl.
    by destruct t.
  - destruct (agents_planner_decide_spec ts2 student_id query (Some t))
      as (p & Hp & _).
    exists p. split; [done|]. rewrite (agents_planner_topic _ _ _ _ _ Hp).
    unfold or_else, AgentsPlanner._normalize_topic. simpl.
    by destruct t.
Qed.

(** X22.  On the same query the two planners choose the same action,
    except for the keyword "solve": the planner of
    Backend/agents/planner.py answers [generate_quiz] when "solve" occurs
    in the query (stripped, in lower case), and what the planner of
    Backend/planner.py answers otherwise. *)
Theorem planners_agree_on_action (ts1 : list N → list N → E Strength)
    (ts2 : option (list N → list N → E Strength))
    (student_id query : list N) (topic : option (list N))
    (p1 : Planner.Plan) (p2 : AgentsPlanner.Plan) :
  Planner.planner_decide ts1 student_id query topic = inr p1 →
  AgentsPlanner.planner_decide ts2 student_id query topic = inr p2 →
  AgentsPlanner.action p2
  = if contains (py "solve") (str_lower (strip query)) then generate_quiz
    else Planner.action p1.
Proof.
  intros H1 H2.
  rewrite (planner_decide_action _ _ _ _ _ H1).
  destruct (agents_planner_decide_spec ts2 student_id query topic)
    as (p & Hp & Hact & _).
  rewrite H2 in Hp. injection Hp as <-. rewrite Hact.
  unfold spec_action, spec_quiz_keywords, Planner.quiz_intent_keywords.
  set (q := str_lower (strip query)). cbn [existsb].
  destruct (contains (py "solve") q); [|by rewrite !orb_false_r].
  rewrite !orb_true_r. done.
Qed.

Lemma agents_planner_suggestion
    (ts : option (list N → list N → E Strength))
    (student_id query : list N) (topic : option (list N)) (p : AgentsPlanner.Plan) :
  AgentsPlanner.planner_decide ts student_id query topic = inr p →
  AgentsPlanner.quiz_suggestion p
  = bool_decide (AgentsPlanner.action p = retrieve_and_explain).
Proof.
  unfold AgentsPlanner.planner_decide, mbind, E_bind, mret, E_ret.
  destruct (try_except _ _) as [e|d]; [done|].
  by intros [= <-].
Qed.

(** X19.  [planner_decide] of Backend/agents/planner.py never raises.
    Its plan suggests a quiz exactly when the action is
    [retrieve_and_explain]; and when the profile cannot be used (the
    import of [topic_strength] failed, the student id is empty, or
    [topic_strength] raises on the student and the plan's topic), the
    difficulty is decided by the query alone: hard for the word "hard" or
    "difficult", else easy for the word "easy", else medium. *)
Theorem agents_planner_total
    (ts : option (list N → list N → E Strength))
    (student_id query : list N) (topic : option (list N)) :
  ∃ p, AgentsPlanner.planner_decide ts student_id query topic = inr p
       ∧ AgentsPlanner.quiz_suggestion p
         = bool_decide (AgentsPlanner.action p = retrieve_and_explain)
       ∧ (ts = None ∨ student_id = []
          ∨ (∃ f e, ts = Some f
                    ∧ f student_id (AgentsPlanner.topic p) = inl e) →
          AgentsPlanner.difficulty p
          = let lower := str_lower (strip query) in
            if re_found AgentsPlanner.hard_re lower then hard
            else if re_found AgentsPlanner.easy_re lower then easy
            else medium).
Proof.
  destruct (agents_planner_decide_spec ts student_id query topic)
    as (p & Hp & _ & Hdiff).
  exists p. split; [done|]. split; [by eapply agents_planner_suggestion|].
  intros Hprof. rewrite Hdiff. cbv zeta.
  assert (Hbase : agents_base ts student_id (AgentsPlanner.topic p) = medium).
  { unfold agents_base.
    destruct Hprof as [-> | [-> | (f & e & -> & Hf)]]; [done | by destruct ts |].
    rewrite Hf. by destruct (bnil student_id). }
  by rewrite Hbase.
Qed.
End PlannerMore.

Lemma agents_planner_action_witness :
  let query := py "give me a hard quiz on probability" in
  let p := AgentsPlanner.mkPlan generate_quiz (py "probability") hard false in
  AgentsPlanner.planner_decide (U := ascii_db) (Some (topic_strength (Some [])))
    (py "s1") query None = inr p
  ∧ let lower := str_lower (Unicode := ascii_db) (strip (U := ascii_db) query) in
    ((∃ k, k ∈ spec_quiz_keywords ∧ ∃ a b, lower = a ++ k ++ b) →
     AgentsPlanner.action p = generate_quiz)
    ∧ ((∀ k, k ∈ spec_quiz_keywords → ¬ ∃ a b, lower = a ++ k ++ b) →
       AgentsPlanner.action p = retrieve_and_explain).
Proof.
  intros query p.
  assert (Hp : AgentsPlanner.planner_decide (U := ascii_db)
                 (Some (topic_strength (Some []))) (py "s1") query None = inr p)
    by (vm_compute; reflexivity).
  split; [exact Hp|].
  exact (agents_planner_action (U := ascii_db) _ _ _ _ _ Hp).
Defined.

Lemma agents_planner_difficulty_witness :
  let query := py "give me a hard quiz on probability" in
  let p := AgentsPlanner.mkPlan generate_quiz (py "probability") hard false in
  let ts := Some (topic_strength (Some [])) in
  AgentsPlanner.planner_decide (U := ascii_db) ts (py "s1") query None = inr p
  ∧ let lower := str_lower (Unicode := ascii_db) (strip (U := ascii_db) query) in
    let forced_hard := standalone (U := ascii_db) (py "hard") lower
                       ∨ standalone (U := ascii_db) (py "difficult") lower in
    (forced_hard → AgentsPlanner.difficulty p = hard)
    ∧ (¬ forced_hard → standalone (U := ascii_db) (py "easy") lower →
       AgentsPlanner.difficulty p = easy)
    ∧ (¬ forced_hard → ¬ standalone (U := ascii_db) (py "easy") lower →
       AgentsPlanner.difficulty p
       = agents_base ts (py "s1") (AgentsPlanner.topic p)).
Proof.
  intros query p ts.
  assert (Hp : AgentsPlanner.planner_decide (U := ascii_db) ts (py "s1") query None
               = inr p) by (vm_compute; reflexivity).
  split; [exact Hp|].
  exact (agents_planner_difficulty (U := ascii_db) _ _ _ _ _ Hp).
Defined.

Lemma planner_decide_difficulty_witness :
  let query := py "i can hardly follow matrices" in
  let p := Planner.mkPlan retrieve_and_explain (py "matrices") hard in
  Planner.planner_decide (U := ascii_db) (topic_strength (Some [])) (py "s1")
    query None = inr p
  ∧ let q := str_lower (Unicode := ascii_db) (strip (U := ascii_db) query) in
    ((∃ a b, q = a ++ py "hard" ++ b) ∨ (∃ a b, q = a ++ py "difficult" ++ b) →
     Planner.difficulty p = hard)
    ∧ ((∃ a b, q = a ++ py "easy" ++ b) →
       Planner.difficulty p = easy ∨ Planner.difficulty p = hard).
Proof.
  intros query p.
  assert (Hp : Planner.planner_decide (U := ascii_db) (topic_strength (Some []))
                 (py "s1") query None = inr p) by (vm_compute; reflexivity).
  split; [exact Hp|].
  exact (planner_decide_difficulty (U := ascii_db) _ _ _ _ _ Hp).
Defined.

Lemma explicit_topic_wins_witness :
  let ts1 := topic_strength (Some []) in
  let t := py "  Linear Programming " in
  t ≠ []
  ∧ (∀ p, Planner.planner_decide (U := ascii_db) ts1 (py "s1")
            (py "quiz me on matrices") (Some t) = inr p →
          Planner.topic p = str_lower (Unicode := ascii_db) (strip (U := ascii_db) t))
  ∧ (∃ p, AgentsPlanner.planner_decide (U := ascii_db) (Some ts1) (py "s1")
            (py "quiz me on matrices") (Some t) = inr p
          ∧ AgentsPlanner.topic p
            = str_lower (Unicode := ascii_db) (strip (U := ascii_db) t)).
Proof.
  intros ts1 t.
  assert (Ht : t ≠ []) by discriminate.
  split; [exact Ht|].
  exact (explicit_topic_wins (U := ascii_db) ts1 (Some ts1) (py "s1")
           (py "quiz me on matrices") t Ht).
Defined.

Lemma planners_agree_on_action_witness :
  let ts1 := topic_strength (Some []) in
  let query := py "solve this problem" in
  let p1 := Planner.mkPlan retrieve_and_explain (py "solve this problem") medium in
  let p2 := AgentsPlanner.mkPlan generate_quiz (py "solve this problem") medium
              false in
  Planner.planner_decide (U := ascii_db) ts1 (py "s1") query None = inr p1
  ∧ AgentsPlanner.planner_decide (U := ascii_db) (Some ts1) (py "s1") query None
    = inr p2
  ∧ AgentsPlanner.action p2
    = if contains (py "solve")
           (str_lower (Unicode := ascii_db) (strip (U := ascii_db) query))
      then generate_quiz else Planner.action p1.
Proof.
  intros ts1 query p1 p2.
  assert (H1 : Planner.planner_decide (U := ascii_db) ts1 (py "s1") query None
               = inr p1) by (vm_compute; reflexivity).
  assert (H2 : AgentsPlanner.planner_decide (U := ascii_db) (Some ts1) (py "s1")
                 query None = inr p2) by (vm_compute; reflexivity).
  split; [exact H1|]. split; [exact H2|].
  exact (planners_agree_on_action (U := ascii_db) ts1 (Some ts1) (py "s1") query
           None p1 p2 H1 H2).
Defined.

(** ** The profile, by counts *)

Section ProgressTheorems.

Lemma tally_lookup (rows : list attempt) (student_id topic : list N) :
  tally rows student_id !! topic
  = match attempts_on rows student_id topic with
    | [] => None
    | l => Some (n_correct l, length l)
    end.
Proof.
  unfold attempts_on.
  induction rows as [|r rows IH]; [done|].
  cbn [tally foldr]. fold (tally rows student_id).
  case_bool_decide as Hs.
  - destruct (default (0, 0)%nat (tally rows student_id !! a_topic r))
      as [c n] eqn:Hd.
    destruct (decide (a_topic r = topic)) as [Ht|Ht].
    + rewrite Ht, lookup_insert_eq. rewrite filter_cons_True by done.
      rewrite Ht, IH in Hd.
      unfold n_correct. rewrite filter_cons. cbn [length].
      destruct (filter _ rows) as [|r' l] eqn:Hl; simpl in Hd;
        injection Hd as <- <-;
        destruct (a_correct r); by repeat case_decide.
    + rewrite lookup_insert_ne by done.
      rewrite filter_cons_False by tauto. done.
  - rewrite filter_cons_False by tauto. done.
Qed.

(** X24.  [topic_strength] on a readable database is decided by two
    counts, the attempts [n] of the student on the topic and the correct
    ones [c] among them; the attempts of other students and on other
    topics do not matter.  It is strong exactly when [n ≥ 3] and
    [c / n ≥ 0.8], weak exactly when [n ≥ 2] and [c / n ≤ 0.5], and
    medium otherwise, in particular for a topic never attempted. *)
Theorem topic_strength_counts (rows : list attempt) (student_id topic : list N) :
  let n := length (attempts_on rows student_id topic) in
  let c := n_correct (attempts_on rows student_id topic) in
  ∃ s, topic_strength (Some rows) student_id topic = inr s
       ∧ (s = Strong ↔ (3 ≤ n ∧ 4 * n ≤ 5 * c)%nat)
       ∧ (s = Weak ↔ (2 ≤ n ∧ 2 * c ≤ n)%nat)
       ∧ (n = 0%nat → s = Medium).
Proof.
  intros n c.
  assert (Hcn : (c ≤ n)%nat).
  { unfold c, n, n_correct. apply length_filter. }
  exists (classify c n). split.
  - unfold topic_strength, get_progress, mbind, E_bind, mret, E_ret.
    f_equal. rewrite lookup_fmap, tally_lookup. fold n c. unfold n, c.
    destruct (attempts_on rows student_id topic); done.
  - unfold classify.
    repeat case_bool_decide; simpl; repeat split; intros; try done; try lia.
Qed.

(** X25.  After [record_attempt] the student has one more attempt on the
    topic, and one more correct attempt when the answer was correct; the
    strength of every other student and of every other topic is what it
    was. *)
Theorem record_attempt_counts (rows : list attempt)
    (student_id topic : list N) (is_correct : bool) :
  ∃ rows', record_attempt (Some rows) student_id topic is_correct = inr rows'
    ∧ length (attempts_on rows' student_id topic)
      = S (length (attempts_on rows student_id topic))
    ∧ n_correct (attempts_on rows' student_id topic)
      = (n_correct (attempts_on rows student_id topic)
         + if is_correct then 1 else 0)%nat
    ∧ ∀ student_id' topic',
        ¬ (student_id' = student_id ∧ topic' = topic) →
        attempts_on rows' student_id' topic' = attempts_on rows student_id' topic'
        ∧ topic_strength (Some rows') student_id' topic'
          = topic_strength (Some rows) student_id' topic'.
Proof.
  eexists. split; [reflexivity|].
  unfold attempts_on. rewrite filter_app.
  split; [|split].
  - rewrite filter_cons_True by done. rewrite length_app. simpl. lia.
  - rewrite filter_cons_True by done. unfold n_correct.
    rewrite filter_app, length_app, filter_cons. simpl.
    destruct is_correct; by case_decide.
  - intros student_id' topic' Hne.
    assert (Hsame : filter (λ r, a_student r = student_id' ∧ a_topic r = topic')
                      (rows ++ [mkAttempt student_id topic is_correct])
                    = filter (λ r, a_student r = student_id' ∧ a_topic r = topic')
                        rows).
    { rewrite filter_app, filter_cons_False; [by rewrite app_nil_r|].
      simpl. intros [<- <-]. by apply Hne. }
    split; [by rewrite <- Hsame, filter_app|].
    unfold topic_strength, get_progress, mbind, E_bind, mret, E_ret.
    f_equal. rewrite !lookup_fmap, !tally_lookup. unfold attempts_on.
    by rewrite Hsame.
Qed.
End ProgressTheorems.

(** On [mixed_db] student "s1" has four attempts on "matrices", three of
    them correct: neither strong (0.75) nor weak; a fourth correct answer
    makes the topic strong. *)
Example mixed_db_strength :
  topic_strength (Some mixed_db) (py "s1") (py "matrices") = inr Medium
  ∧ (rows ← record_attempt (Some mixed_db) (py "s1") (py "matrices") true;
     topic_strength (Some rows) (py "s1") (py "matrices")) = inr Strong
  ∧ topic_strength (Some mixed_db) (py "s1") (py "probability") = inr Medium
  ∧ topic_strength (Some mixed_db) (py "s2") (py "matrices") = inr Medium.
Proof. vm_compute. done. Qed.

(** ** The two math filters *)

Section MathFilters.
Context {U : Unicode}.

Lemma count_if_snoc {A} (p : A → bool) (l : list A) (x : A) :
  count_if p (l ++ [x]) = (count_if p l + if p x then 1 else 0)%nat.
Proof.
  unfold count_if. rewrite List.filter_app, length_app. simpl.
  by destruct (p x).
Qed.

(** X26.  The math filter of the retriever answers true exactly when the
    math filter of the index builder does or the text holds "exp": the
    retriever rejects whatever the builder rejects, and the two differ
    on the texts with "exp" only. *)
Theorem math_filters_differ_by_exp (text : list N) :
  is_math_block text
  = KbBuilder.is_math_block text || contains (py "exp") text.
Proof.
  unfold is_math_block, KbBuilder.is_math_block.
  destruct text as [|x text]; [done|]. cbn [bnil].
  set (t := x :: text).
  assert (Hc : count_tokens t
               = (KbBuilder.count_tokens t
                  + if contains (py "exp") t then 1 else 0)%nat).
  { unfold count_tokens, KbBuilder.count_tokens.
    change MATH_TOKENS with (KbBuilder.MATH_TOKENS ++ [py "exp"]).
    exact (count_if_snoc (λ k, contains k t) KbBuilder.MATH_TOKENS (py "exp")). }
  rewrite Hc.
  destruct (contains (py "exp") t).
  { rewrite bool_decide_eq_true_2 by lia. by rewrite orb_true_r. }
  rewrite Nat.add_0_r, orb_false_r. done.
Qed.
End MathFilters.

(** ** The endpoint /ask *)

Section AskTheorems.
Context {U : Unicode}.
Variable Emb : Type.

(** X27.  [ask] on a query with a quiz keyword of Backend/planner.py:
    when the planner and the retrieval of 20 chunks do not raise, the
    answer is a quiz on the planned topic with the planned difficulty,
    of one to three questions, each with four options and an answer
    letter from A to D that points at one of them. *)
Theorem ask_quiz (db : option (list attempt)) (w : World Emb)
    (student_id query : list N) (p : Planner.Plan)
    (g g' : Globals Emb) (chunks : list Chunk) (tape : list nat) :
  Planner.planner_decide (topic_strength db) student_id query None = inr p →
  existsb (λ k, contains k (str_lower (strip query)))
          Planner.quiz_intent_keywords = true →
  retrieve w (Planner.topic p) 20 g = (inr chunks, g') →
  ∃ quiz tape',
    ask_backend db w student_id query g tape
    = (Main.Quiz (Planner.topic p) (Planner.difficulty p) quiz, g', tape')
    ∧ (1 ≤ length quiz ≤ 3)%nat
    ∧ ∀ m, m ∈ quiz →
        length (q_options m) = 4%nat
        ∧ ∃ i, answer_index m = Some i ∧ is_Some (q_options m !! i).
Proof.
  intros Hp Hkw Hret. unfold ask_backend, Main.ask. rewrite Hp.
  rewrite (planner_decide_action _ _ _ _ _ Hp), Hkw.
  unfold generate_quiz_for_topic. rewrite Hret.
  destruct (quiz_from_chunks_ok (Planner.topic p) 3 chunks tape)
    as (quiz & tape' & -> & Hshape & Hlen).
  destruct (Hlen ltac:(lia)) as (Hle & Hne & _).
  exists quiz, tape'. split; [done|]. split.
  { destruct quiz; [done|]. simpl in *. lia. }
  intros m Hm. destruct (Hshape m Hm) as [-> | (H4 & (i & Hi & Ho) & _)].
  - split; [done|]. exists 0%nat. split; [done | by eexists].
  - split; [done|]. exists i. split; [done | by eexists].
Qed.

(** X28.  [ask] on a query without quiz keyword: when the planner and
    the retrieval of one chunk do not raise, the answer is an
    explanation on the planned topic; it is the text and the chapter of
    the one chunk retrieved, of 20 characters at least, with a quiz
    suggested, or "No explanation found." without chapter and
    suggestion when nothing was retrieved.  The random generator is not
    used. *)
Theorem ask_explain (db : option (list attempt)) (w : World Emb)
    (student_id query : list N) (p : Planner.Plan)
    (g g' : Globals Emb) (chunks : list Chunk) (tape : list nat) :
  Planner.planner_decide (topic_strength db) student_id query None = inr p →
  existsb (λ k, contains k (str_lower (strip query)))
          Planner.quiz_intent_keywords = false →
  retrieve w (Planner.topic p) 1 g = (inr chunks, g') →
  (chunks = []
   ∧ ask_backend db w student_id query g tape
     = (Main.Explain (Planner.topic p) (Planner.difficulty p)
          (py "No explanation found.") None false, g', tape))
  ∨ (∃ c, chunks = [c]
          ∧ (20 ≤ length (ch_text c))%nat
          ∧ ask_backend db w student_id query g tape
            = (Main.Explain (Planner.topic p) (Planner.difficulty p)
                 (ch_text c) (Some (ch_chapter c)) true, g', tape)).
Proof.
  intros Hp Hkw Hret. unfold ask_backend, Main.ask. rewrite Hp.
  rewrite (planner_decide_action _ _ _ _ _ Hp), Hkw, Hret.
  destruct chunks as [|c rest]; [by left|]. right.
  pose proof (retrieve_inr _ _ _ _ _ _ _ Hret) as (model & kb & idx & _ & Hres).
  assert (Hlen : (length (c :: rest) ≤ 1)%nat).
  { rewrite Hres, retrieve_loop_first_seen, length_fmap.
    etrans; [apply sublist_length, first_seen_sublist|].
    etrans; [apply length_omap_le|].
    by rewrite length_faiss_search. }
  destruct rest; [|simpl in Hlen; lia].
  exists c. split; [done|]. split; [|done].
  destruct (returned_chunk_origin _ _ _ _ _ _ _ Hret c) as (H20 & _); [by left|].
  done.
Qed.

(** X29.  With a database that cannot be read, [ask] fails for every
    student with an id and every query, also one that needs no profile,
    with the error "planner_decide() crashed", before anything is
    retrieved; with an empty student id it never fails in the planner. *)
Theorem ask_profile_failure (w : World Emb) (student_id query : list N)
    (g : Globals Emb) (tape : list nat) :
  (student_id ≠ [] →
   ask_backend None w student_id query g tape
   = (Main.ServerError (py "planner_decide() crashed"), g, tape))
  ∧ (∀ db, (ask_backend db w [] query g tape).1.1
           ≠ Main.ServerError (py "planner_decide() crashed")).
Proof.
  split.
  - intros Hsid. unfold ask_backend, Main.ask.
    rewrite (planner_decide_raises _ _ _ _ OperationalError); done.
  - intros db. unfold ask_backend, Main.ask.
    destruct (Planner.planner_decide _ [] query None) as [e|p] eqn:Hp.
    { unfold Planner.planner_decide, mbind, E_bind, mret, E_ret in Hp.
      simpl in Hp. done. }
    destruct (Planner.action p).
    + destruct (retrieve w _ 1 g) as [[e|[|c l]] g']; simpl; try done;
        intros [=].
    + destruct (generate_quiz_for_topic w _ _ _ g tape) as [[[e|quiz] g'] t'];
        simpl; try done; intros [=].
Qed.
End AskTheorems.

Lemma ask_quiz_witness :
  let query := py "quiz on matrix" in
  let p := Planner.mkPlan generate_quiz (py "quiz on matrix") medium in
  let chunks :=
    [mkChunk (py "unknown")
       (py "A matrix is defined as a rectangular array of numbers. It has rows.")
       (py "text")] in
  let g' := mkGlobals (w_model small_world) (Some small_kb) (w_index small_world) in
  Planner.planner_decide (U := ascii_db) (topic_strength (Some [])) (py "s1")
    query None = inr p
  ∧ existsb (λ k, contains k (str_lower (Unicode := ascii_db)
                                (strip (U := ascii_db) query)))
            Planner.quiz_intent_keywords = true
  ∧ retrieve (U := ascii_db) small_world (Planner.topic p) 20 cold
    = (inr chunks, g')
  ∧ ∃ quiz tape',
      ask_backend (U := ascii_db) (Some []) small_world (py "s1") query cold []
      = (Main.Quiz (Planner.topic p) (Planner.difficulty p) quiz, g', tape')
      ∧ (1 ≤ length quiz ≤ 3)%nat
      ∧ ∀ m, m ∈ quiz →
          length (q_options m) = 4%nat
          ∧ ∃ i, answer_index m = Some i ∧ is_Some (q_options m !! i).
Proof.
  intros query p chunks g'.
  assert (Hp : Planner.planner_decide (U := ascii_db) (topic_strength (Some []))
                 (py "s1") query None = inr p) by (vm_compute; reflexivity).
  assert (Hkw : existsb (λ k, contains k (str_lower (Unicode := ascii_db)
                                            (strip (U := ascii_db) query)))
                        Planner.quiz_intent_keywords = true)
    by (vm_compute; reflexivity).
  assert (Hret : retrieve (U := ascii_db) small_world (Planner.topic p) 20 cold
                 = (inr chunks, g')) by (vm_compute; reflexivity).
  split; [exact Hp|]. split; [exact Hkw|]. split; [exact Hret|].
  exact (ask_quiz (U := ascii_db) unit (Some []) small_world (py "s1") query p
           cold g' chunks [] Hp Hkw Hret).
Defined.

Lemma ask_explain_witness :
  let query := py "explain matrices" in
  let p := Planner.mkPlan retrieve_and_explain (py "matrices") medium in
  let c := mkChunk (py "3.pdf") (py "Matrices are rectangular arrays of numbers.")
             (py "text") in
  let g' := mkGlobals (w_model matrices_world) (Some matrices_kb)
              (w_index matrices_world) in
  Planner.planner_decide (U := ascii_db) (topic_strength (Some [])) (py "s1")
    query None = inr p
  ∧ existsb (λ k, contains k (str_lower (Unicode := ascii_db)
                                (strip (U := ascii_db) query)))
            Planner.quiz_intent_keywords = false
  ∧ retrieve (U := ascii_db) matrices_world (Planner.topic p) 1 cold
    = (inr [c], g')
  ∧ (([c] = []
      ∧ ask_backend (U := ascii_db) (Some []) matrices_world (py "s1") query cold []
        = (Main.Explain (Planner.topic p) (Planner.difficulty p)
             (py "No explanation found.") None false, g', []))
     ∨ (∃ c', [c] = [c']
              ∧ (20 ≤ length (ch_text c'))%nat
              ∧ ask_backend (U := ascii_db) (Some []) matrices_world (py "s1")
                  query cold []
                = (Main.Explain (Planner.topic p) (Planner.difficulty p)
                     (ch_text c') (Some (ch_chapter c')) true, g', []))).
Proof.
  intros query p c g'.
  assert (Hp : Planner.planner_decide (U := ascii_db) (topic_strength (Some []))
                 (py "s1") query None = inr p) by (vm_compute; reflexivity).
  assert (Hkw : existsb (λ k, contains k (str_lower (Unicode := ascii_db)
                                            (strip (U := ascii_db) query)))
                        Planner.quiz_intent_keywords = false)
    by (vm_compute; reflexivity).
  assert (Hret : retrieve (U := ascii_db) matrices_world (Planner.topic p) 1 cold
                 = (inr [c], g')) by (vm_compute; reflexivity).
  split; [exact Hp|]. split; [exact Hkw|]. split; [exact Hret|].
  exact (ask_explain (U := ascii_db) unit (Some []) matrices_world (py "s1") query p
           cold g' [c] [] Hp Hkw Hret).
Defined.

(** The endpoint on the two sample queries, and on a database that
    cannot be read. *)
Example ask_samples :
  (ask_backend (U := ascii_db) (Some []) matrices_world (py "s1")
     (py "explain matrices") cold []).1.1
  = Main.Explain (py "matrices") medium
      (py "Matrices are rectangular arrays of numbers.") (Some (py "3.pdf")) true
  ∧ (ask_backend (U := ascii_db) None matrices_world (py "s1")
       (py "explain matrices") cold []).1.1
    = Main.ServerError (py "planner_decide() crashed")
  ∧ (ask_backend (U := ascii_db) (Some []) missing_world (py "s1")
       (py "explain matrices") cold []).1.1
    = Main.ServerError (py "retrieve() crashed").
Proof. vm_compute. done. Qed.
